(** * bukit-dashboard: the API client, the onboarding wizards and the pages
    around them

    A shallow embedding of
      - [apiFetch] and the token helpers of the API client, in its two
        versions (the one with refresh-and-retry, and [src/lib/api.ts]), and
        the endpoint wrappers that build a path or a body of their own;
      - the three onboarding wizards (the edit-capable two-step setup page,
        the plain two-step setup page and the three-step onboarding page):
        their field-change handlers, list operations, validation gates and
        step submissions;
      - the signup page, the route guard, the module resolution and loading
        of the dashboard page and the filters of the facilities page.

    Part I holds the definitions; the lemmas and theorems follow. *)

From Stdlib Require Import Floats ZArith Ascii.
From Stdlib Require String.
From stdpp Require Import base option strings gmap list pretty.

(** The literal [-122.6] of the specification stands for the nearest binary64
    number, as it does in the source language. *)
Set Warnings "-inexact-float".


(* ===================================================================== *)
(** * Part I: definitions *)
(* ===================================================================== *)

(** ** JavaScript values and strings

    A JavaScript string is modelled as a [string] whose characters are its
    code units (those below 256); [String.length] is then [.length]. *)
Module Js.

(** [WhiteSpace] and [LineTerminator] code units: what [trim()] strips and
    what [\s] matches (TAB, LF, VT, FF, CR, SP, NBSP). *)
Definition is_white_space (c : ascii) : bool :=
  let n := nat_of_ascii c in
  Nat.eqb n 9 || Nat.eqb n 10 || Nat.eqb n 11 || Nat.eqb n 12 ||
  Nat.eqb n 13 || Nat.eqb n 32 || Nat.eqb n 160.

Fixpoint trimStart (s : string) : string :=
  match s with
  | EmptyString => EmptyString
  | String c s' => if is_white_space c then trimStart s' else s
  end.

Fixpoint trimEnd (s : string) : string :=
  match s with
  | EmptyString => EmptyString
  | String c s' =>
      match trimEnd s' with
      | EmptyString => if is_white_space c then EmptyString else String c EmptyString
      | t => String c t
      end
  end.

(** [s.trim()] *)
Definition trim (s : string) : string := trimEnd (trimStart s).

(** Truthiness of a string: the empty string is the only falsy one. *)
Definition truthy_string (s : string) : bool :=
  match s with EmptyString => false | String _ _ => true end.

(** [a || b] on strings. *)
Definition or_string (a b : string) : string :=
  if truthy_string a then a else b.

(** Truthiness of [string | null | undefined]. *)
Definition truthy_opt (o : option string) : bool :=
  match o with Some s => truthy_string s | None => false end.

(** A string none of whose characters survives [trim()]. *)
Fixpoint blank (s : string) : bool :=
  match s with
  | EmptyString => true
  | String c s' => is_white_space c && blank s'
  end.

(** Values, as far as JSON bodies and untyped ([any]) results need them. *)
#[local] Set Warnings "-register-all".
Inductive value :=
| VUndef
| VNull
| VBool (b : bool)
| VNum (x : float)
| VStr (s : string)
| VArr (items : list value)
| VObj (props : list (string * value)).

Definition is_nan (x : float) : bool := negb (PrimFloat.eqb x x).

Definition truthy (v : value) : bool :=
  match v with
  | VUndef | VNull => false
  | VBool b => b
  | VNum x => negb (PrimFloat.eqb x 0%float) && negb (is_nan x)
  | VStr s => truthy_string s
  | VArr _ | VObj _ => true
  end.

(** [a || b] on values. *)
Definition or_value (a b : value) : value := if truthy a then a else b.

Fixpoint assoc (k : string) (props : list (string * value)) : value :=
  match props with
  | [] => VUndef
  | (k', v) :: rest => if String.eqb k k' then v else assoc k rest
  end.

(** [v.k] for the property names used by the client ([message],
    [access_token], [id], ...): [None] is the TypeError of reading a property
    of [null] or [undefined]; primitives and arrays have no such property. *)
Definition get (v : value) (k : string) : option value :=
  match v with
  | VUndef | VNull => None
  | VObj props => Some (assoc k props)
  | _ => Some VUndef
  end.

(** [v?.k] *)
Definition get_opt (v : value) (k : string) : value :=
  match get v k with Some x => x | None => VUndef end.

Fixpoint join (sep : string) (l : list string) : string :=
  match l with
  | [] => ""
  | [s] => s
  | s :: rest => s +:+ sep +:+ join sep rest
  end.

(** What the host supplies: the conversions between numbers and strings and
    the JSON serializer. *)
Class Runtime := {
  NumberToString : float → string;
  StringToNumber : string → float;
  JSON_stringify : value → string;
}.

(** [String(v)], the coercion applied by [localStorage.setItem] and by
    [new Error(v)]. *)
Fixpoint ToString `{Runtime} (v : value) : string :=
  match v with
  | VUndef => "undefined"
  | VNull => "null"
  | VBool true => "true"
  | VBool false => "false"
  | VNum x => NumberToString x
  | VStr s => s
  | VArr items =>
      join "," (map (λ x, match x with
                          | VUndef | VNull => ""
                          | _ => ToString x
                          end) items)
  | VObj _ => "[object Object]"
  end.

(** Thrown values: an error object with its constructor name and message. *)
Record exn := Exn { exn_name : string; message : string }.

(** [new Error(m)] *)
Definition Error (m : string) : exn := Exn "Error" m.

End Js.

(** ** Regular expressions

    The fragment used by the wizards' email test: character classes,
    concatenation and iteration, matched against the whole input (the
    pattern is anchored by [^] and [$]). *)
Module Regex.

Inductive regex :=
| Void
| Eps
| Class (p : ascii → bool)
| Cat (r1 r2 : regex)
| Alt (r1 r2 : regex)
| Star (r : regex).

(** [r+] *)
Definition Plus (r : regex) : regex := Cat r (Star r).

Fixpoint nullable (r : regex) : bool :=
  match r with
  | Void => false
  | Eps => true
  | Class _ => false
  | Cat r1 r2 => nullable r1 && nullable r2
  | Alt r1 r2 => nullable r1 || nullable r2
  | Star _ => true
  end.

Fixpoint deriv (c : ascii) (r : regex) : regex :=
  match r with
  | Void | Eps => Void
  | Class p => if p c then Eps else Void
  | Cat r1 r2 =>
      if nullable r1
      then Alt (Cat (deriv c r1) r2) (deriv c r2)
      else Cat (deriv c r1) r2
  | Alt r1 r2 => Alt (deriv c r1) (deriv c r2)
  | Star r1 => Cat (deriv c r1) (Star r1)
  end.

Fixpoint matches (r : regex) (w : list ascii) : bool :=
  match w with
  | [] => nullable r
  | c :: w' => matches (deriv c r) w'
  end.

(** [/^r$/.test(s)] *)
Definition test (r : regex) (s : string) : bool :=
  matches r (String.list_ascii_of_string s).

(** The words of a regular expression. *)
Inductive lang : regex → list ascii → Prop :=
| lang_eps : lang Eps []
| lang_class p c : p c = true → lang (Class p) [c]
| lang_cat r1 r2 u v : lang r1 u → lang r2 v → lang (Cat r1 r2) (u ++ v)
| lang_alt_l r1 r2 u : lang r1 u → lang (Alt r1 r2) u
| lang_alt_r r1 r2 u : lang r2 u → lang (Alt r1 r2) u
| lang_star_nil r : lang (Star r) []
| lang_star_app r u v : lang r u → lang (Star r) v → lang (Star r) (u ++ v).

(** [[^\s@]] *)
Definition not_space_or_at (c : ascii) : bool :=
  negb (Js.is_white_space c || Ascii.eqb c "@"%char).

(** [/^[^\s@]+@[^\s@]+\.[^\s@]+$/] *)
Definition EMAIL : regex :=
  Cat (Plus (Class not_space_or_at))
   (Cat (Class (Ascii.eqb "@"%char))
    (Cat (Plus (Class not_space_or_at))
     (Cat (Class (Ascii.eqb "."%char))
      (Plus (Class not_space_or_at))))).

(** The shape the specification names: [local@domain.tld], each part
    non-empty and free of white space and of [@]. *)
Definition email_shape (s : string) : Prop :=
  ∃ l d t : list ascii,
    String.list_ascii_of_string s = l ++ "@"%char :: d ++ "."%char :: t ∧
    l ≠ [] ∧ d ≠ [] ∧ t ≠ [] ∧
    Forall (λ c, not_space_or_at c = true) l ∧
    Forall (λ c, not_space_or_at c = true) d ∧
    Forall (λ c, not_space_or_at c = true) t.

End Regex.

(** ** Effects

    Handlers and API calls run in a state monad with exceptions: a thrown
    value leaves the state as the throwing statement left it, which is what
    [try]/[catch] observes. *)
Module Eff.

Inductive result (A : Type) :=
| Return (a : A)
| Throw (e : Js.exn).
Arguments Return {A} a.
Arguments Throw {A} e.

Definition M (S A : Type) : Type := S → result A * S.

Definition ret {S A} (a : A) : M S A := λ s, (Return a, s).

Definition bind {S A B} (m : M S A) (k : A → M S B) : M S B :=
  λ s, match m s with
       | (Return a, s') => k a s'
       | (Throw e, s') => (Throw e, s')
       end.

Definition throw {S A} (e : Js.exn) : M S A := λ s, (Throw e, s).

(** [try { m } catch (e) { h e }] *)
Definition try_catch {S A} (m : M S A) (h : Js.exn → M S A) : M S A :=
  λ s, match m s with
       | (Return a, s') => (Return a, s')
       | (Throw e, s') => h e s'
       end.

(** [try { m } finally { f }], for an [f] that does not throw. *)
Definition try_finally {S A} (m : M S A) (f : S → S) : M S A :=
  λ s, let '(r, s') := m s in (r, f s').

Definition gets {S A} (f : S → A) : M S A := λ s, (Return (f s), s).

Definition modify {S} (f : S → S) : M S unit := λ s, (Return tt, f s).

(** Awaiting a settled promise. *)
Definition await {S A} (r : result A) : M S A := λ s, (r, s).

Declare Scope eff_scope.
Delimit Scope eff_scope with eff.
Notation "x <- c1 ;; c2" := (bind c1 (λ x, c2))
  (at level 100, c1 at next level, right associativity) : eff_scope.
Notation "c1 ;; c2" := (bind c1 (λ _, c2))
  (at level 100, right associativity) : eff_scope.

End Eff.

(** ** HTTP and browser storage, as both versions of the client use them *)
Module Http.
Import Js Eff.

Inductive Body :=
| NoBody
| TextBody (s : string)
| FormData.

(** [RequestInit], as far as the callers of [apiFetch] fill it. *)
Record RequestInit := {
  method : option string;
  body : Body;
  headers : option (gmap string string);
}.

(** What [fetch] is called with. *)
Record Request := {
  url : string;
  req_method : option string;
  req_body : Body;
  req_headers : gmap string string;
  credentials : string;
}.

(** A response: its status and what [res.json()] settles to. *)
Record Response := {
  status : Z;
  json : result value;
}.

(** [res.ok] *)
Definition ok (r : Response) : bool :=
  (200 <=? status r)%Z && (status r <=? 299)%Z.

(** The host: the environment variable read at load time, and the network,
    a state machine answering each [fetch] with a response or a rejection. *)
Class Host (Net : Type) := {
  NEXT_PUBLIC_API_BASE_URL : option string;
  fetch_step : Net → Request → result Response * Net;
}.

(** [localStorage] is [None] where [window] is undefined. [issued] records
    each request handed to [fetch], with the storage as it was then. *)
Record World (Net : Type) := {
  localStorage : option (gmap string string);
  net : Net;
  issued : list (option (gmap string string) * Request);
}.
Arguments localStorage {Net} w.
Arguments net {Net} w.
Arguments issued {Net} w.

Section Client.
Context {Net : Type} `{Host Net}.

Definition API_BASE_URL : string :=
  or_string (default "" NEXT_PUBLIC_API_BASE_URL) "http://localhost:3001".

Definition getItem (key : string) : M (World Net) (option string) :=
  gets (λ w, localStorage w ≫= λ ls, ls !! key).

Definition setItem (key val : string) : M (World Net) unit :=
  modify (λ w, {| localStorage := insert key val <$> localStorage w;
                  net := net w; issued := issued w |}).

Definition removeItem (key : string) : M (World Net) unit :=
  modify (λ w, {| localStorage := delete key <$> localStorage w;
                  net := net w; issued := issued w |}).

Definition fetch (req : Request) : M (World Net) Response :=
  λ w, let '(r, n) := fetch_step (net w) req in
       (r, {| localStorage := localStorage w; net := n;
              issued := issued w ++ [(localStorage w, req)] |}).

(** The tail shared by both versions: a failed response becomes an [Error]
    with the body's [message] (or "Request failed"), a 204 yields
    [undefined], anything else its JSON body. *)
Definition finish `{Runtime} (res : Response) : M (World Net) value :=
  (if negb (ok res) then
     message <- try_catch
                  (data <- await (json res) ;;
                   match get data "message" with
                   | Some m => ret (or_value m (VStr "Request failed"))
                   | None => throw (Exn "TypeError" "Cannot read properties")
                   end)
                  (λ _, ret (VStr "Request failed")) ;;
     throw (Error (ToString message))
   else if (status res =? 204)%Z then ret VUndef
   else await (json res))%eff.

(** What [finish] comes to, written without the monad: the message of the
    [Error] and the settled outcome. *)
Definition failure_message (res : Response) : value :=
  match json res with
  | Return data =>
      match get data "message" with
      | Some m => or_value m (VStr "Request failed")
      | None => VStr "Request failed"
      end
  | Throw _ => VStr "Request failed"
  end.

Definition outcome `{Runtime} (res : Response) : result value :=
  if negb (ok res) then Throw (Error (ToString (failure_message res)))
  else if (status res =? 204)%Z then Return VUndef
  else json res.

(** [headers["Content-Type"] = headers["Content-Type"] || "application/json"]
    unless the body is form data. *)
Definition initial_headers (options : RequestInit) : gmap string string :=
  let h := default ∅ (headers options) in
  match body options with
  | FormData => h
  | _ => <["Content-Type" :=
            or_string (default "" (h !! "Content-Type")) "application/json"]> h
  end.

(** [fetch(`${API_BASE_URL}${path}`, {...options, headers, credentials})] *)
Definition request_of (path : string) (options : RequestInit)
    (h : gmap string string) : Request :=
  {| url := API_BASE_URL +:+ path;
     req_method := method options;
     req_body := body options;
     req_headers := h;
     credentials := "include" |}.

End Client.
End Http.

(** ** The API client with refresh and retry *)
Module Api.
Import Js Eff Http.

Definition ACCESS_TOKEN_KEY : string := "token".
Definition REFRESH_TOKEN_KEY : string := "refresh_token".

Section Client.
Context {Net : Type} `{Host Net} `{Runtime}.

Definition getAccessToken : M (World Net) (option string) :=
  getItem ACCESS_TOKEN_KEY.

Definition getRefreshToken : M (World Net) (option string) :=
  getItem REFRESH_TOKEN_KEY.

(** The caller passes [data.access_token] and [data.refresh_token] as they
    came; [setItem] stores their string forms. *)
Definition setAuthTokens (accessToken refreshToken : value)
    : M (World Net) unit :=
  (setItem ACCESS_TOKEN_KEY (ToString accessToken) ;;
   if truthy refreshToken
   then setItem REFRESH_TOKEN_KEY (ToString refreshToken)
   else ret tt)%eff.

(** Storage after [setAuthTokens]. *)
Definition store_tokens (accessToken refreshToken : value)
    (ls : gmap string string) : gmap string string :=
  let ls := <[ACCESS_TOKEN_KEY := ToString accessToken]> ls in
  if truthy refreshToken
  then <[REFRESH_TOKEN_KEY := ToString refreshToken]> ls
  else ls.

(** Storage after [clearAuthTokens]. *)
Definition clear_tokens (ls : gmap string string) : gmap string string :=
  delete REFRESH_TOKEN_KEY (delete ACCESS_TOKEN_KEY ls).

Definition clearAuthTokens : M (World Net) unit :=
  (removeItem ACCESS_TOKEN_KEY ;; removeItem REFRESH_TOKEN_KEY)%eff.

(** [headers] after [attachAuthHeader] has read [currentToken]. *)
Definition with_auth (currentToken : option string) (h : gmap string string)
    : gmap string string :=
  if truthy_opt currentToken
  then <["Authorization" := "Bearer " +:+ default "" currentToken]> h
  else delete "Authorization" h.

(** Mutates [headers]: the updated object is returned. *)
Definition attachAuthHeader (h : gmap string string)
    : M (World Net) (gmap string string) :=
  (currentToken <- getAccessToken ;;
   ret (with_auth currentToken h))%eff.

Definition doRequest (path : string) (options : RequestInit)
    (h : gmap string string) : M (World Net) (Response * gmap string string) :=
  (h' <- attachAuthHeader h ;;
   res <- fetch (request_of path options h') ;;
   ret (res, h'))%eff.

Definition refresh_request (refreshToken : string) : Request :=
  {| url := API_BASE_URL +:+ "/auth/refresh";
     req_method := Some "POST";
     req_body :=
       TextBody (JSON_stringify (VObj [("refresh_token", VStr refreshToken)]));
     req_headers := {["Content-Type" := "application/json"]};
     credentials := "include" |}.

(** Whether a first response leads to the refresh attempt. *)
Definition wants_refresh (path : string) (res : Response) : bool :=
  (status res =? 401)%Z &&
  negb (String.eqb path "/auth/login") &&
  negb (String.eqb path "/auth/refresh").

(** The refresh block: yields the response [apiFetch] goes on with. *)
Definition refresh_and_retry (path : string) (options : RequestInit)
    (h : gmap string string) (res : Response) (refreshToken : string)
    : M (World Net) Response :=
  (try_catch
     (refreshRes <- fetch (refresh_request refreshToken) ;;
      if ok refreshRes then
        data <- await (json refreshRes) ;;
        if truthy (get_opt data "access_token") then
          setAuthTokens (get_opt data "access_token")
                        (get_opt data "refresh_token") ;;
          p <- doRequest path options h ;;
          ret (fst p)
        else ret res
      else
        clearAuthTokens ;; ret res)
     (λ _, clearAuthTokens ;; ret res))%eff.

(** How a refresh call can fail: a rejection, or a response that is not
    [ok]. *)
Definition refresh_failed (r : result Response) : Prop :=
  match r with
  | Throw _ => True
  | Return refreshRes => ok refreshRes = false
  end.

(** The unused [const token = getAccessToken()] of the source is left out. *)
Definition apiFetch (path : string) (options : RequestInit)
    : M (World Net) value :=
  (p <- doRequest path options (initial_headers options) ;;
   let '(res, h) := p in
   res <- (if wants_refresh path res then
             refreshToken <- getRefreshToken ;;
             if truthy_opt refreshToken
             then refresh_and_retry path options h res (default "" refreshToken)
             else ret res
           else ret res) ;;
   finish res)%eff.

(** Every request is issued with the token read at that moment: an entry of
    [issued] made while the storage held no access token has no
    [Authorization] header. [guarded m] says that [m] only adds such
    entries. *)
Definition bare_entry (e : option (gmap string string) * Request) : Prop :=
  truthy_opt (e.1 ≫= λ m, m !! ACCESS_TOKEN_KEY) = false →
  req_headers e.2 !! "Authorization" = None.

Definition grows (w w' : World Net) : Prop :=
  ∃ new, issued w' = issued w ++ new ∧ Forall bare_entry new.

Definition guarded {A} (m : M (World Net) A) : Prop := ∀ w, grows w (m w).2.

End Client.
End Api.

(** ** The API client of [src/lib/api.ts] (no refresh) *)
Module ApiV0.
Import Js Eff Http.

Section Client.
Context {Net : Type} `{Host Net} `{Runtime}.

Definition getToken : M (World Net) (option string) := getItem "token".

Definition apiFetch (path : string) (options : RequestInit)
    : M (World Net) value :=
  (token <- getToken ;;
   let h := initial_headers options in
   let h := if truthy_opt token
            then <["Authorization" := "Bearer " +:+ default "" token]> h
            else h in
   res <- fetch (request_of path options h) ;;
   finish res)%eff.

End Client.
End ApiV0.

(** ** What the three wizard pages share *)
Module Wizard.
Import Js Eff.

Record StepErrorState := {
  global : option string;
  fields : gmap string (option string);
}.

Definition initialErrorState : StepErrorState :=
  {| global := None; fields := ∅ |}.

(** [LocationPayload]. Optional and nullable members are [None] when absent;
    [client_id] receives the untyped identifier of step 1 and is kept as a
    value ([VUndef] when absent). *)
Record LocationPayload := {
  id : option string;
  client_id : value;
  name : string;
  description : option string;
  phone : option string;
  address : option string;
  city : option string;
  state : option string;
  country : option string;
  postal_code : option string;
  latitude : option float;
  longitude : option float;
}.

(** [keyof LocationPayload] *)
Inductive LocationField :=
| f_id | f_client_id | f_name | f_description | f_phone | f_address
| f_city | f_state | f_country | f_postal_code | f_latitude | f_longitude.

Definition location_key (f : LocationField) : string :=
  match f with
  | f_id => "id" | f_client_id => "client_id" | f_name => "name"
  | f_description => "description" | f_phone => "phone"
  | f_address => "address" | f_city => "city" | f_state => "state"
  | f_country => "country" | f_postal_code => "postal_code"
  | f_latitude => "latitude" | f_longitude => "longitude"
  end.

(** [{ ...loc, client_id: v }] *)
Definition with_client_id (v : value) (loc : LocationPayload) : LocationPayload :=
  let 'Build_LocationPayload a _ c d e f g h i j k l := loc in
  Build_LocationPayload a v c d e f g h i j k l.

(** [{ ...loc, [field]: x }] where [x] is the text [text] for a text member
    and the number [num] for a coordinate. *)
Definition with_field (field : LocationField) (text : string)
    (num : option float) (loc : LocationPayload) : LocationPayload :=
  let 'Build_LocationPayload a b c d e f g h i j k l := loc in
  match field with
  | f_id => Build_LocationPayload (Some text) b c d e f g h i j k l
  | f_client_id => Build_LocationPayload a (VStr text) c d e f g h i j k l
  | f_name => Build_LocationPayload a b text d e f g h i j k l
  | f_description => Build_LocationPayload a b c (Some text) e f g h i j k l
  | f_phone => Build_LocationPayload a b c d (Some text) f g h i j k l
  | f_address => Build_LocationPayload a b c d e (Some text) g h i j k l
  | f_city => Build_LocationPayload a b c d e f (Some text) h i j k l
  | f_state => Build_LocationPayload a b c d e f g (Some text) i j k l
  | f_country => Build_LocationPayload a b c d e f g h (Some text) j k l
  | f_postal_code => Build_LocationPayload a b c d e f g h i (Some text) k l
  | f_latitude => Build_LocationPayload a b c d e f g h i j num l
  | f_longitude => Build_LocationPayload a b c d e f g h i j k num
  end.

(** The update every field-change handler applies to its step's errors:
    [prev => ({ global: null, fields: { ...prev.fields, [key]: null } })]. *)
Definition cleared (key : string) (prev : StepErrorState) : StepErrorState :=
  {| global := None; fields := <[key := None]> (fields prev) |}.

(** The row [addLocation] appends, also the initial row. *)
Definition emptyLocation : LocationPayload :=
  {| id := None; client_id := VUndef; name := ""; description := None;
     phone := Some ""; address := Some ""; city := Some ""; state := Some "";
     country := Some ""; postal_code := None;
     latitude := None; longitude := None |}.

(** [`${index}.${field}`] *)
Definition row_key (index : nat) (field : string) : string :=
  pretty index +:+ "." +:+ field.

(** [!s?.trim()] on an optional string. *)
Definition missing (o : option string) : bool :=
  negb (truthy_string (trim (default "" o))).

(** [x != null && (x < lo || x > hi)] *)
Definition out_of_range (lo hi : float) (o : option float) : bool :=
  match o with
  | Some x => PrimFloat.ltb x lo || PrimFloat.ltb hi x
  | None => false
  end.

(** [if (cond) errors.fields[key] = msg] *)
Definition flag (cond : bool) (key msg : string)
    (e : gmap string (option string)) : gmap string (option string) :=
  if cond then <[key := Some msg]> e else e.

(** [list.forEach((x, index) => ...)] threading the error object. *)
Fixpoint forEach {A E : Type} (f : A → nat → E → E) (index : nat)
    (l : list A) (e : E) : E :=
  match l with
  | [] => e
  | x :: rest => forEach f (S index) rest (f x index e)
  end.

(** [Object.keys(o).length > 0] *)
Definition has_keys (o : gmap string (option string)) : bool :=
  Nat.ltb 0 (size o).

(** The three required-text checks every step-2 gate makes on a row. *)
Definition check_required (loc : LocationPayload) (index : nat)
    (e : gmap string (option string)) : gmap string (option string) :=
  let e := flag (negb (truthy_string (trim (name loc))))
             (row_key index "name") "Location name is required" e in
  let e := flag (missing (city loc))
             (row_key index "city") "City is required" e in
  flag (missing (country loc)) (row_key index "country") "Country is required" e.

(** The outcome shared by the step-2 gates once the rows are checked. *)
Definition step2_verdict (rows : nat) (e : gmap string (option string))
    : bool * StepErrorState :=
  let g := if Nat.eqb rows 0
           then Some "Add at least one location to continue." else None in
  if has_keys e || truthy_opt g then
    (false,
     {| global := if negb (truthy_opt g)
                  then Some "Please complete the required fields for locations."
                  else g;
        fields := e |})
  else (true, initialErrorState).

(** [s || null], [s || undefined] and [s ? Number(s) : fallback] *)
Definition or_null (s : string) : value :=
  if truthy_string s then VStr s else VNull.
Definition or_undefined (s : string) : value :=
  if truthy_string s then VStr s else VUndef.
Definition number_or `{Runtime} (s : string) (fallback : value) : value :=
  if truthy_string s then VNum (StringToNumber s) else fallback.

(** A string without a dot, as the decimal form of a row index is. *)
Fixpoint dotless (s : string) : bool :=
  match s with
  | EmptyString => true
  | String c s' => negb (Ascii.eqb c "."%char) && dotless s'
  end.

(** A row whose name, city and country survive [trim()]. *)
Definition filled (loc : LocationPayload) : Prop :=
  blank (name loc) = false ∧
  blank (default "" (city loc)) = false ∧
  blank (default "" (country loc)) = false.

(** A row whose coordinates, where set, are not out of range. *)
Definition in_range (loc : LocationPayload) : Prop :=
  out_of_range (-90)%float 90%float (latitude loc) = false ∧
  out_of_range (-180)%float 180%float (longitude loc) = false.

(** A row without a (truthy) identifier. *)
Definition unidentified (loc : LocationPayload) : Prop :=
  truthy_opt (id loc) = false.

#[export] Instance unidentified_dec loc : Decision (unidentified loc).
Proof. unfold unidentified. apply _. Defined.

(** What a field change does to its step's errors: the field's entry is
    [null], the other entries are as before, the step-global message is
    [null]. *)
Definition clears_field (key : string) (before after : StepErrorState) : Prop :=
  fields after !! key = Some None ∧
  (∀ k, k ≠ key → fields after !! k = fields before !! k) ∧
  global after = None.

(** The backend calls the pages make, each settling to a result or a
    rejection; [Net] is the backend's state. *)
Class Backend (Net : Type) := {
  createClientWithUserApi : value → Net → result value * Net;
  updateClientApi : string → value → Net → result value * Net;
  createLocationApi : LocationPayload → Net → result value * Net;
}.

Inductive Call :=
| CreateClientWithUser (payload : value)
| UpdateClient (client : string) (payload : value)
| CreateLocation (payload : LocationPayload).

(** A mounted page: its React state, the backend, the calls made so far and
    the routes pushed. *)
Record Page (St Net : Type) := {
  ui : St;
  server : Net;
  calls : list Call;
  pushed : list string;
}.
Arguments ui {St Net} p.
Arguments server {St Net} p.
Arguments calls {St Net} p.
Arguments pushed {St Net} p.

(** The create-location calls for the rows [l], each stamped with the
    client identifier [cid]; [expected] keeps the rows without identifier. *)
Definition payloads (cid : value) (l : list LocationPayload) : list Call :=
  map (λ loc, CreateLocation (with_client_id cid loc)) l.

Definition expected (cid : value) (l : list LocationPayload) : list Call :=
  payloads cid (filter unidentified l).

(** Every call of [new] creates a location whose [client_id] is [cid]. *)
Definition stamped (cid : value) (new : list Call) : Prop :=
  Forall (λ c, ∃ payload, c = CreateLocation payload ∧ client_id payload = cid) new.

Section Effects.
Context {St Net : Type} `{Backend Net}.

Definition on_ui (f : St → St) (p : Page St Net) : Page St Net :=
  {| ui := f (ui p); server := server p; calls := calls p; pushed := pushed p |}.

(** A state setter, [setX(prev => f prev)]. *)
Definition set_state (f : St → St) : M (Page St Net) unit := modify (on_ui f).

(** A synchronous function that calls setters and returns a value. *)
Definition run_ui {A} (f : St → A * St) : M (Page St Net) A :=
  λ p, let '(a, s) := f (ui p) in
       (Return a, {| ui := s; server := server p;
                     calls := calls p; pushed := pushed p |}).

Definition call {A} (c : Call) (step : Net → result A * Net)
    : M (Page St Net) A :=
  λ p, let '(r, n) := step (server p) in
       (r, {| ui := ui p; server := n;
              calls := calls p ++ [c]; pushed := pushed p |}).

(** [router.push(route)] *)
Definition router_push (route : string) : M (Page St Net) unit :=
  modify (λ p, {| ui := ui p; server := server p;
                  calls := calls p; pushed := pushed p ++ [route] |}).

(** [for (const x of l) { await f x }] *)
Fixpoint for_of {A} (l : list A) (f : A → M (Page St Net) unit)
    : M (Page St Net) unit :=
  match l with
  | [] => ret tt
  | x :: rest => (f x ;; for_of rest f)%eff
  end.

(** A handler closes over the state of the render it belongs to. *)
Definition fire {A} (handler : St → M (Page St Net) A) : M (Page St Net) A :=
  λ p, handler (ui p) p.

(** What a submission loop leaves behind: the state and the routes are
    untouched and the calls made are all of [all] if the loop completed,
    and a non-empty prefix of it, ending in the rejected call, if not. *)
Definition loop_outcome (all : list Call) (p : Page St Net)
    (rp : result unit * Page St Net) : Prop :=
  ui rp.2 = ui p ∧ pushed rp.2 = pushed p ∧
  match rp.1 with
  | Return _ => calls rp.2 = calls p ++ all
  | Throw _ => ∃ k, k < length all ∧ calls rp.2 = calls p ++ take (S k) all
  end.

(** What the backend makes of a call. *)
Definition answer (c : Call) : Net → result value * Net :=
  match c with
  | CreateClientWithUser payload => createClientWithUserApi payload
  | UpdateClient client payload => updateClientApi client payload
  | CreateLocation payload => createLocationApi payload
  end.

(** The backend's state once it has settled each of the calls [l], made one
    after the other from the state [n], with a result; [None] when it
    rejects one of them. *)
Fixpoint accepted (l : list Call) (n : Net) : option Net :=
  match l with
  | [] => Some n
  | c :: rest =>
      match answer c n with
      | (Return _, n') => accepted rest n'
      | (Throw _, _) => None
      end
  end.

End Effects.

End Wizard.

(** ** The edit-capable two-step setup page ([DashboardSetupPage]) *)
Module Setup.
Import Js Eff Wizard.

Inductive WizardStep := Step1 | Step2.

(** [keyof typeof businessForm] *)
Inductive BusinessField :=
| companyName | legalName | contactName | email | phone | address | city
| state | country | postalCode | taxId | registrationNumber | description
| logoUrl | coverImageUrl | latitude | longitude | adminPassword.

#[export] Instance BusinessField_eq_dec : EqDecision BusinessField.
Proof. solve_decision. Defined.

Definition business_key (f : BusinessField) : string :=
  match f with
  | companyName => "companyName" | legalName => "legalName"
  | contactName => "contactName" | email => "email" | phone => "phone"
  | address => "address" | city => "city" | state => "state"
  | country => "country" | postalCode => "postalCode" | taxId => "taxId"
  | registrationNumber => "registrationNumber"
  | description => "description" | logoUrl => "logoUrl"
  | coverImageUrl => "coverImageUrl" | latitude => "latitude"
  | longitude => "longitude" | adminPassword => "adminPassword"
  end.

(** The form object: every member is a string. *)
Definition BusinessForm : Type := BusinessField → string.

Definition emptyForm : BusinessForm := λ _, "".

(** [{ ...prev, [field]: value }] *)
Definition with_business (field : BusinessField) (value : string)
    (prev : BusinessForm) : BusinessForm :=
  λ f, if decide (f = field) then value else prev f.

Record State := {
  currentStep : WizardStep;
  isSubmitting : bool;
  clientId : value;
  isEditing : bool;
  businessForm : BusinessForm;
  step1Errors : StepErrorState;
  locations : list LocationPayload;
  step2Errors : StepErrorState;
}.

Definition initialState : State :=
  {| currentStep := Step1; isSubmitting := false; clientId := VNull;
     isEditing := false; businessForm := emptyForm;
     step1Errors := initialErrorState; locations := [emptyLocation];
     step2Errors := initialErrorState |}.

Definition setCurrentStep (x : WizardStep) (s : State) : State :=
  let 'Build_State _ b c d e f g h := s in Build_State x b c d e f g h.
Definition setIsSubmitting (x : bool) (s : State) : State :=
  let 'Build_State a _ c d e f g h := s in Build_State a x c d e f g h.
Definition setClientId (x : value) (s : State) : State :=
  let 'Build_State a b _ d e f g h := s in Build_State a b x d e f g h.
Definition setBusinessForm (x : BusinessForm → BusinessForm) (s : State) : State :=
  let 'Build_State a b c d e f g h := s in Build_State a b c d (x e) f g h.
Definition setStep1Errors (x : StepErrorState → StepErrorState) (s : State) : State :=
  let 'Build_State a b c d e f g h := s in Build_State a b c d e (x f) g h.
Definition setLocations (x : list LocationPayload → list LocationPayload)
    (s : State) : State :=
  let 'Build_State a b c d e f g h := s in Build_State a b c d e f (x g) h.
Definition setStep2Errors (x : StepErrorState → StepErrorState) (s : State) : State :=
  let 'Build_State a b c d e f g h := s in Build_State a b c d e f g (x h).

Definition goToStep (step : WizardStep) : State → State := setCurrentStep step.

Definition handleBusinessChange (field : BusinessField) (value : string)
    (s : State) : State :=
  let s := setBusinessForm (with_business field value) s in
  setStep1Errors (cleared (business_key field)) s.

Section Handlers.
Context `{Runtime}.

(** The number stored for a coordinate typed into a row. *)
Definition coordinate_of (field : LocationField) (value : string) : option float :=
  if negb (truthy_string value) then None
  else
    let num := StringToNumber value in
    if is_nan num then None
    else match field with
         | f_latitude =>
             if PrimFloat.ltb num (-90)%float || PrimFloat.ltb 90%float num
             then None else Some num
         | f_longitude =>
             if PrimFloat.ltb num (-180)%float || PrimFloat.ltb 180%float num
             then None else Some num
         | _ => Some num
         end.

Definition handleLocationChange (index : nat) (field : LocationField)
    (value : string) (s : State) : State :=
  let s := setLocations
             (alter (with_field field value (coordinate_of field value)) index) s in
  setStep2Errors (cleared (row_key index (location_key field))) s.

Definition addLocation : State → State :=
  setLocations (λ prev, prev ++ [emptyLocation]).

(** [c] is the state the handler closed over. *)
Definition removeLocation (c : State) (index : nat) (s : State) : State :=
  if Nat.ltb 1 (length (locations c))
  then setLocations (delete index) s
  else s.

(** The remove control of a row is rendered only under
    [locations.length > 1]; clicking it calls [removeLocation(index)]. *)
Definition remove_rendered (c : State) : bool := Nat.ltb 1 (length (locations c)).

Definition click_remove (c : State) (index : nat) (s : State) : State :=
  if remove_rendered c then removeLocation c index s else s.

(** The field errors [validateStep1] collects. *)
Definition step1_fields (c : State) : gmap string (option string) :=
  let form := businessForm c in
  let e : gmap string (option string) := ∅ in
  let e := flag (negb (truthy_string (trim (form companyName))))
             "companyName" "Company name is required" e in
  let e := flag (negb (truthy_string (trim (form contactName))))
             "contactName" "Contact person is required" e in
  let e := if negb (truthy_string (trim (form email)))
           then <["email" := Some "Email is required"]> e
           else flag (negb (Regex.test Regex.EMAIL (form email)))
                  "email" "Please enter a valid email address" e in
  let e := flag (negb (truthy_string (trim (form phone))))
             "phone" "Phone is required" e in
  let e := flag (negb (truthy_string (trim (form city))))
             "city" "City is required" e in
  let e := flag (negb (truthy_string (trim (form country))))
             "country" "Country is required" e in
  let e := if truthy_string (form latitude) && truthy_string (trim (form latitude))
           then let lat := StringToNumber (form latitude) in
                flag (is_nan lat || PrimFloat.ltb lat (-90)%float
                      || PrimFloat.ltb 90%float lat)
                  "latitude" "Latitude must be between -90 and 90" e
           else e in
  let e := if truthy_string (form longitude) && truthy_string (trim (form longitude))
           then let lng := StringToNumber (form longitude) in
                flag (is_nan lng || PrimFloat.ltb lng (-180)%float
                      || PrimFloat.ltb 180%float lng)
                  "longitude" "Longitude must be between -180 and 180" e
           else e in
  if negb (isEditing c) then
    if negb (truthy_string (trim (form adminPassword)))
    then <["adminPassword" := Some "Admin password is required"]> e
    else flag (Nat.ltb (String.length (trim (form adminPassword))) 6)
           "adminPassword" "Password must be at least 6 characters" e
  else e.

Definition validateStep1 (c : State) (s : State) : bool * State :=
  let e := step1_fields c in
  if has_keys e
  then (false, setStep1Errors
                 (λ _, {| global := Some "Please fill in all required fields.";
                          fields := e |}) s)
  else (true, setStep1Errors (λ _, initialErrorState) s).

Definition check_location (loc : LocationPayload) (index : nat)
    (e : gmap string (option string)) : gmap string (option string) :=
  let e := check_required loc index e in
  let e := flag (out_of_range (-90)%float 90%float (Wizard.latitude loc))
             (row_key index "latitude") "Latitude must be between -90 and 90" e in
  flag (out_of_range (-180)%float 180%float (Wizard.longitude loc))
    (row_key index "longitude") "Longitude must be between -180 and 180" e.

Definition validateStep2 (c : State) (s : State) : bool * State :=
  let e := forEach check_location 0 (locations c) ∅ in
  let '(valid, errors) := step2_verdict (length (locations c)) e in
  (valid, setStep2Errors (λ _, errors) s).

End Handlers.

Section Submit.
Context {Net : Type} `{Backend Net} `{Runtime}.

Definition update_payload (form : BusinessForm) : value :=
  VObj [("company_name", VStr (form companyName));
        ("legal_name", or_null (form legalName));
        ("contact_name", or_null (form contactName));
        ("email", or_null (form email));
        ("phone", or_null (form phone));
        ("address", or_null (form address));
        ("city", or_null (form city));
        ("state", or_null (form state));
        ("country", or_null (form country));
        ("postal_code", or_null (form postalCode));
        ("tax_id", or_null (form taxId));
        ("company_registration_number", or_null (form registrationNumber));
        ("description", or_null (form description));
        ("logo_url", or_null (form logoUrl));
        ("cover_image_url", or_null (form coverImageUrl));
        ("latitude", number_or (form latitude) VNull);
        ("longitude", number_or (form longitude) VNull)].

Definition create_payload (form : BusinessForm) : value :=
  VObj [("user",
         VObj [("name", VStr (or_string (trim (form contactName))
                               (or_string (trim (form companyName)) (form email))));
               ("email", VStr (form email));
               ("password", VStr (form adminPassword))]);
        ("client",
         VObj [("company_name", VStr (form companyName));
               ("legal_name", or_undefined (form legalName));
               ("contact_name", VStr (form contactName));
               ("email", VStr (form email));
               ("phone", VStr (form phone));
               ("address", or_undefined (form address));
               ("city", VStr (form city));
               ("state", or_undefined (form state));
               ("country", VStr (form country));
               ("postal_code", or_undefined (form postalCode));
               ("tax_id", or_undefined (form taxId));
               ("company_registration_number",
                or_undefined (form registrationNumber));
               ("description", or_undefined (form description));
               ("logo_url", or_undefined (form logoUrl));
               ("cover_image_url", or_undefined (form coverImageUrl));
               ("latitude", number_or (form latitude) VUndef);
               ("longitude", number_or (form longitude) VUndef)])].

(** [user.id || client.id || client_id || id] of the creation result. *)
Definition created_id (result : value) : value :=
  or_value (get_opt (get_opt result "user") "id")
    (or_value (get_opt (get_opt result "client") "id")
       (or_value (get_opt result "client_id") (get_opt result "id"))).

(** [clientIdFromQuery] is the [clientId] query parameter of the page. *)
Definition handleSubmitStep1 (clientIdFromQuery : option string) (c : State)
    : M (Page State Net) unit :=
  (valid <- run_ui (validateStep1 c) ;;
   if negb valid then ret tt else
   set_state (setIsSubmitting true) ;;
   try_finally
     (try_catch
        (if isEditing c && truthy_opt clientIdFromQuery then
           let target := default "" clientIdFromQuery in
           let payload := update_payload (businessForm c) in
           call (UpdateClient target payload) (updateClientApi target payload) ;;
           set_state (setClientId (VStr target)) ;;
           set_state (setCurrentStep Step2)
         else
           let payload := create_payload (businessForm c) in
           result <- call (CreateClientWithUser payload)
                       (createClientWithUserApi payload) ;;
           let createdClientId := created_id result in
           if negb (truthy createdClientId)
           then throw (Error "Client ID missing from response")
           else
             set_state (setClientId createdClientId) ;;
             set_state (setCurrentStep Step2))
        (λ err,
           set_state (setStep1Errors (λ _,
             {| global := Some (or_string (message err)
                                  (if isEditing c
                                   then "Failed to update business"
                                   else "Failed to create business"));
                fields := ∅ |}))))
     (on_ui (setIsSubmitting false)))%eff.

(** One turn of the submission loop. *)
Definition submit_location (c : State) (loc : LocationPayload)
    : M (Page State Net) unit :=
  (if truthy_opt (Wizard.id loc) then ret tt
   else
     let payload := with_client_id (clientId c) loc in
     call (CreateLocation payload) (createLocationApi payload) ;; ret tt)%eff.

Definition handleSubmitStep2 (c : State) : M (Page State Net) unit :=
  (if negb (truthy (clientId c)) then
     set_state (setStep2Errors (λ _,
       {| global := Some "Business has not been created yet. Please complete Step 1 first.";
          fields := ∅ |})) ;;
     set_state (setCurrentStep Step1)
   else
     valid <- run_ui (validateStep2 c) ;;
     if negb valid then ret tt else
     set_state (setIsSubmitting true) ;;
     try_finally
       (try_catch
          (for_of (locations c) (submit_location c) ;;
           router_push "/dashboard")
          (λ err,
             set_state (setStep2Errors (λ _,
               {| global := Some (or_string (message err) "Failed to save locations");
                  fields := ∅ |}))))
       (on_ui (setIsSubmitting false)))%eff.

End Submit.
End Setup.

(** ** The plain two-step setup page (no edit mode, no admin password) *)
Module SetupPlain.
Import Js Eff Wizard.

Inductive WizardStep := Step1 | Step2.

(** [keyof typeof businessForm] *)
Inductive BusinessField :=
| companyName | legalName | contactName | email | phone | address | city
| country | taxId | registrationNumber | description | logoUrl.

#[export] Instance BusinessField_eq_dec : EqDecision BusinessField.
Proof. solve_decision. Defined.

Definition business_key (f : BusinessField) : string :=
  match f with
  | companyName => "companyName" | legalName => "legalName"
  | contactName => "contactName" | email => "email" | phone => "phone"
  | address => "address" | city => "city" | country => "country"
  | taxId => "taxId" | registrationNumber => "registrationNumber"
  | description => "description" | logoUrl => "logoUrl"
  end.

Definition BusinessForm : Type := BusinessField → string.

Definition emptyForm : BusinessForm := λ _, "".

(** [{ ...prev, [field]: value }] *)
Definition with_business (field : BusinessField) (value : string)
    (prev : BusinessForm) : BusinessForm :=
  λ f, if decide (f = field) then value else prev f.

Record State := {
  currentStep : WizardStep;
  isSubmitting : bool;
  clientId : value;
  businessForm : BusinessForm;
  step1Errors : StepErrorState;
  locations : list LocationPayload;
  step2Errors : StepErrorState;
}.

Definition initialState : State :=
  {| currentStep := Step1; isSubmitting := false; clientId := VNull;
     businessForm := emptyForm; step1Errors := initialErrorState;
     locations := [emptyLocation]; step2Errors := initialErrorState |}.

Definition setCurrentStep (x : WizardStep) (s : State) : State :=
  let 'Build_State _ b c d e f g := s in Build_State x b c d e f g.
Definition setIsSubmitting (x : bool) (s : State) : State :=
  let 'Build_State a _ c d e f g := s in Build_State a x c d e f g.
Definition setClientId (x : value) (s : State) : State :=
  let 'Build_State a b _ d e f g := s in Build_State a b x d e f g.
Definition setBusinessForm (x : BusinessForm → BusinessForm) (s : State) : State :=
  let 'Build_State a b c d e f g := s in Build_State a b c (x d) e f g.
Definition setStep1Errors (x : StepErrorState → StepErrorState) (s : State) : State :=
  let 'Build_State a b c d e f g := s in Build_State a b c d (x e) f g.
Definition setLocations (x : list LocationPayload → list LocationPayload)
    (s : State) : State :=
  let 'Build_State a b c d e f g := s in Build_State a b c d e (x f) g.
Definition setStep2Errors (x : StepErrorState → StepErrorState) (s : State) : State :=
  let 'Build_State a b c d e f g := s in Build_State a b c d e f (x g).

Definition handleBusinessChange (field : BusinessField) (value : string)
    (s : State) : State :=
  let s := setBusinessForm (with_business field value) s in
  setStep1Errors (cleared (business_key field)) s.

Section Handlers.
Context `{Runtime}.

(** [value === "" ? undefined : Number(value)] *)
Definition coordinate_of (value : string) : option float :=
  if negb (truthy_string value) then None else Some (StringToNumber value).

Definition handleLocationChange (index : nat) (field : LocationField)
    (value : string) (s : State) : State :=
  let s := setLocations
             (alter (with_field field value (coordinate_of value)) index) s in
  setStep2Errors (cleared (row_key index (location_key field))) s.

Definition addLocation : State → State :=
  setLocations (λ prev, prev ++ [emptyLocation]).

Definition removeLocation (c : State) (index : nat) (s : State) : State :=
  if Nat.ltb 1 (length (locations c))
  then setLocations (delete index) s
  else s.

Definition remove_rendered (c : State) : bool := Nat.ltb 1 (length (locations c)).

Definition click_remove (c : State) (index : nat) (s : State) : State :=
  if remove_rendered c then removeLocation c index s else s.

Definition step1_fields (c : State) : gmap string (option string) :=
  let form := businessForm c in
  let e : gmap string (option string) := ∅ in
  let e := flag (negb (truthy_string (trim (form companyName))))
             "companyName" "Company name is required" e in
  let e := flag (negb (truthy_string (trim (form contactName))))
             "contactName" "Contact person is required" e in
  let e := if negb (truthy_string (trim (form email)))
           then <["email" := Some "Email is required"]> e
           else flag (negb (Regex.test Regex.EMAIL (form email)))
                  "email" "Please enter a valid email address" e in
  let e := flag (negb (truthy_string (trim (form phone))))
             "phone" "Phone is required" e in
  let e := flag (negb (truthy_string (trim (form city))))
             "city" "City is required" e in
  flag (negb (truthy_string (trim (form country))))
    "country" "Country is required" e.

Definition validateStep1 (c : State) (s : State) : bool * State :=
  let e := step1_fields c in
  if has_keys e
  then (false, setStep1Errors
                 (λ _, {| global := Some "Please fill in all required fields.";
                          fields := e |}) s)
  else (true, setStep1Errors (λ _, initialErrorState) s).

Definition validateStep2 (c : State) (s : State) : bool * State :=
  let e := forEach check_required 0 (locations c) ∅ in
  let '(valid, errors) := step2_verdict (length (locations c)) e in
  (valid, setStep2Errors (λ _, errors) s).

End Handlers.

Section Submit.
Context {Net : Type} `{Backend Net} `{Runtime}.

Definition create_payload (form : BusinessForm) : value :=
  VObj [("company_name", VStr (form companyName));
        ("legal_name", or_undefined (form legalName));
        ("contact_name", VStr (form contactName));
        ("email", VStr (form email));
        ("phone", VStr (form phone));
        ("address", or_undefined (form address));
        ("city", VStr (form city));
        ("country", VStr (form country));
        ("tax_id", or_undefined (form taxId));
        ("company_registration_number", or_undefined (form registrationNumber));
        ("description", or_undefined (form description));
        ("logo_url", or_undefined (form logoUrl))].

(** [client.id || client_id || id] of the creation result. *)
Definition created_id (result : value) : value :=
  or_value (get_opt (get_opt result "client") "id")
    (or_value (get_opt result "client_id") (get_opt result "id")).

Definition handleSubmitStep1 (c : State) : M (Page State Net) unit :=
  (valid <- run_ui (validateStep1 c) ;;
   if negb valid then ret tt else
   set_state (setIsSubmitting true) ;;
   try_finally
     (try_catch
        (let payload := create_payload (businessForm c) in
         result <- call (CreateClientWithUser payload)
                     (createClientWithUserApi payload) ;;
         let createdClientId := created_id result in
         if negb (truthy createdClientId)
         then throw (Error "Client ID missing from response")
         else
           set_state (setClientId createdClientId) ;;
           set_state (setCurrentStep Step2))
        (λ err,
           set_state (setStep1Errors (λ _,
             {| global := Some (or_string (message err) "Failed to create business");
                fields := ∅ |}))))
     (on_ui (setIsSubmitting false)))%eff.

(** One turn of the submission loop. *)
Definition submit_location (c : State) (loc : LocationPayload)
    : M (Page State Net) unit :=
  (let payload := with_client_id (clientId c) loc in
   call (CreateLocation payload) (createLocationApi payload) ;; ret tt)%eff.

Definition handleSubmitStep2 (c : State) : M (Page State Net) unit :=
  (if negb (truthy (clientId c)) then
     set_state (setStep2Errors (λ _,
       {| global := Some "Business has not been created yet. Please complete Step 1 first.";
          fields := ∅ |})) ;;
     set_state (setCurrentStep Step1)
   else
     valid <- run_ui (validateStep2 c) ;;
     if negb valid then ret tt else
     set_state (setIsSubmitting true) ;;
     try_finally
       (try_catch
          (for_of (locations c) (submit_location c) ;;
           router_push "/dashboard")
          (λ err,
             set_state (setStep2Errors (λ _,
               {| global := Some (or_string (message err) "Failed to create locations");
                  fields := ∅ |}))))
       (on_ui (setIsSubmitting false)))%eff.

End Submit.
End SetupPlain.

(** ** The three-step onboarding page ([ClientOnboardingPage]) *)
Module Onboarding.
Import Js Eff Wizard.

Inductive WizardStep := Step1 | Step2 | Step3.

(** [keyof typeof businessForm] *)
Inductive BusinessField :=
| companyName | legalName | contactName | email | phone | address | city
| country | taxId | registrationNumber | description | logoUrl
| adminPassword.

#[export] Instance BusinessField_eq_dec : EqDecision BusinessField.
Proof. solve_decision. Defined.

Definition business_key (f : BusinessField) : string :=
  match f with
  | companyName => "companyName" | legalName => "legalName"
  | contactName => "contactName" | email => "email" | phone => "phone"
  | address => "address" | city => "city" | country => "country"
  | taxId => "taxId" | registrationNumber => "registrationNumber"
  | description => "description" | logoUrl => "logoUrl"
  | adminPassword => "adminPassword"
  end.

Definition BusinessForm : Type := BusinessField → string.

Definition emptyForm : BusinessForm := λ _, "".

(** [{ ...prev, [field]: value }] *)
Definition with_business (field : BusinessField) (value : string)
    (prev : BusinessForm) : BusinessForm :=
  λ f, if decide (f = field) then value else prev f.

(** [FacilityPayload]; [location_id] receives the untyped identifier of a
    created location and is kept as a value. *)
Record FacilityPayload := {
  fac_id : option string;
  location_id : value;
  fac_name : string;
  type : string;
  status : string;
  capacity : option float;
  metadata : option value;
}.

(** [keyof FacilityPayload] *)
Inductive FacilityField :=
| k_id | k_location_id | k_name | k_type | k_status | k_capacity | k_metadata.

Definition facility_key (f : FacilityField) : string :=
  match f with
  | k_id => "id" | k_location_id => "location_id" | k_name => "name"
  | k_type => "type" | k_status => "status" | k_capacity => "capacity"
  | k_metadata => "metadata"
  end.

(** [{ ...fac, [field]: x }], [x] being [num] for the capacity and [text]
    otherwise. *)
Definition with_facility_field (field : FacilityField) (text : string)
    (num : option float) (fac : FacilityPayload) : FacilityPayload :=
  let 'Build_FacilityPayload a b c d e f g := fac in
  match field with
  | k_id => Build_FacilityPayload (Some text) b c d e f g
  | k_location_id => Build_FacilityPayload a (VStr text) c d e f g
  | k_name => Build_FacilityPayload a b text d e f g
  | k_type => Build_FacilityPayload a b c text e f g
  | k_status => Build_FacilityPayload a b c d text f g
  | k_capacity => Build_FacilityPayload a b c d e num g
  | k_metadata => Build_FacilityPayload a b c d e f (Some (VStr text))
  end.

Definition emptyFacility : FacilityPayload :=
  {| fac_id := None; location_id := VStr ""; fac_name := ""; type := "other";
     status := "active"; capacity := None; metadata := None |}.

Record State := {
  currentStep : WizardStep;
  isSubmitting : bool;
  clientId : value;
  locationChoices : list (value * value);
  businessForm : BusinessForm;
  step1Errors : StepErrorState;
  locations : list LocationPayload;
  step2Errors : StepErrorState;
  facilities : list FacilityPayload;
  step3Errors : StepErrorState;
}.

Definition initialState : State :=
  {| currentStep := Step1; isSubmitting := false; clientId := VNull;
     locationChoices := []; businessForm := emptyForm;
     step1Errors := initialErrorState; locations := [emptyLocation];
     step2Errors := initialErrorState; facilities := [emptyFacility];
     step3Errors := initialErrorState |}.

Definition setCurrentStep (x : WizardStep) (s : State) : State :=
  let 'Build_State _ b c d e f g h i j := s in Build_State x b c d e f g h i j.
Definition setIsSubmitting (x : bool) (s : State) : State :=
  let 'Build_State a _ c d e f g h i j := s in Build_State a x c d e f g h i j.
Definition setClientId (x : value) (s : State) : State :=
  let 'Build_State a b _ d e f g h i j := s in Build_State a b x d e f g h i j.
Definition setLocationChoices (x : list (value * value)) (s : State) : State :=
  let 'Build_State a b c _ e f g h i j := s in Build_State a b c x e f g h i j.
Definition setBusinessForm (x : BusinessForm → BusinessForm) (s : State) : State :=
  let 'Build_State a b c d e f g h i j := s in Build_State a b c d (x e) f g h i j.
Definition setStep1Errors (x : StepErrorState → StepErrorState) (s : State) : State :=
  let 'Build_State a b c d e f g h i j := s in Build_State a b c d e (x f) g h i j.
Definition setLocations (x : list LocationPayload → list LocationPayload)
    (s : State) : State :=
  let 'Build_State a b c d e f g h i j := s in Build_State a b c d e f (x g) h i j.
Definition setStep2Errors (x : StepErrorState → StepErrorState) (s : State) : State :=
  let 'Build_State a b c d e f g h i j := s in Build_State a b c d e f g (x h) i j.
Definition setFacilities (x : list FacilityPayload → list FacilityPayload)
    (s : State) : State :=
  let 'Build_State a b c d e f g h i j := s in Build_State a b c d e f g h (x i) j.
Definition setStep3Errors (x : StepErrorState → StepErrorState) (s : State) : State :=
  let 'Build_State a b c d e f g h i j := s in Build_State a b c d e f g h i (x j).

Definition handleBusinessChange (field : BusinessField) (value : string)
    (s : State) : State :=
  let s := setBusinessForm (with_business field value) s in
  setStep1Errors (cleared (business_key field)) s.

Section Handlers.
Context `{Runtime}.

(** [value === "" ? undefined : Number(value)] *)
Definition number_of (value : string) : option float :=
  if negb (truthy_string value) then None else Some (StringToNumber value).

Definition handleLocationChange (index : nat) (field : LocationField)
    (value : string) (s : State) : State :=
  let s := setLocations
             (alter (with_field field value (number_of value)) index) s in
  setStep2Errors (cleared (row_key index (location_key field))) s.

Definition addLocation : State → State :=
  setLocations (λ prev, prev ++ [emptyLocation]).

(** No length test here: the guard is the one on the remove control. *)
Definition removeLocation (index : nat) (s : State) : State :=
  setLocations (delete index) s.

(** The remove control of a row is rendered only under
    [locations.length > 1]. *)
Definition remove_rendered (c : State) : bool := Nat.ltb 1 (length (locations c)).

Definition click_remove (c : State) (index : nat) (s : State) : State :=
  if remove_rendered c then removeLocation index s else s.

Definition handleFacilityChange (index : nat) (field : FacilityField)
    (value : string) (s : State) : State :=
  let s := setFacilities
             (alter (with_facility_field field value (number_of value)) index) s in
  setStep3Errors (cleared (row_key index (facility_key field))) s.

Definition addFacility : State → State :=
  setFacilities (λ prev, prev ++ [emptyFacility]).

Definition removeFacility (index : nat) (s : State) : State :=
  setFacilities (delete index) s.

Definition step1_fields (c : State) : gmap string (option string) :=
  let form := businessForm c in
  let e : gmap string (option string) := ∅ in
  let e := flag (negb (truthy_string (trim (form companyName))))
             "companyName" "Company name is required" e in
  let e := flag (negb (truthy_string (trim (form contactName))))
             "contactName" "Contact person is required" e in
  let e := flag (negb (truthy_string (trim (form email))))
             "email" "Email is required" e in
  let e := flag (negb (truthy_string (trim (form phone))))
             "phone" "Phone is required" e in
  let e := flag (negb (truthy_string (trim (form city))))
             "city" "City is required" e in
  let e := flag (negb (truthy_string (trim (form country))))
             "country" "Country is required" e in
  if negb (truthy_string (trim (form adminPassword)))
  then <["adminPassword" := Some "Admin password is required"]> e
  else flag (Nat.ltb (String.length (trim (form adminPassword))) 6)
         "adminPassword" "Password must be at least 6 characters" e.

Definition validateStep1 (c : State) (s : State) : bool * State :=
  let e := step1_fields c in
  if has_keys e
  then (false, setStep1Errors
                 (λ _, {| global := Some "Please fill in all required fields.";
                          fields := e |}) s)
  else (true, setStep1Errors (λ _, initialErrorState) s).

Definition validateStep2 (c : State) (s : State) : bool * State :=
  let e := forEach check_required 0 (locations c) ∅ in
  let '(valid, errors) := step2_verdict (length (locations c)) e in
  (valid, setStep2Errors (λ _, errors) s).

End Handlers.

Section Submit.
Context {Net : Type} `{Backend Net} `{Runtime}.

Definition create_payload (form : BusinessForm) : value :=
  VObj [("user",
         VObj [("name", VStr (or_string (trim (form contactName))
                               (or_string (trim (form companyName)) (form email))));
               ("email", VStr (form email));
               ("password", VStr (form adminPassword))]);
        ("client",
         VObj [("company_name", VStr (form companyName));
               ("legal_name", or_undefined (form legalName));
               ("contact_name", VStr (form contactName));
               ("email", VStr (form email));
               ("phone", VStr (form phone));
               ("address", or_undefined (form address));
               ("city", VStr (form city));
               ("country", VStr (form country));
               ("tax_id", or_undefined (form taxId));
               ("company_registration_number",
                or_undefined (form registrationNumber));
               ("description", or_undefined (form description));
               ("logo_url", or_undefined (form logoUrl))])].

(** [user.id || client.id || client_id || id] of the creation result. *)
Definition created_id (result : value) : value :=
  or_value (get_opt (get_opt result "user") "id")
    (or_value (get_opt (get_opt result "client") "id")
       (or_value (get_opt result "client_id") (get_opt result "id"))).

Definition handleSubmitStep1 (c : State) : M (Page State Net) unit :=
  (valid <- run_ui (validateStep1 c) ;;
   if negb valid then ret tt else
   set_state (setIsSubmitting true) ;;
   try_finally
     (try_catch
        (let payload := create_payload (businessForm c) in
         result <- call (CreateClientWithUser payload)
                     (createClientWithUserApi payload) ;;
         let createdClientId := created_id result in
         if negb (truthy createdClientId)
         then throw (Error "Client ID missing from response")
         else
           set_state (setClientId createdClientId) ;;
           set_state (setCurrentStep Step2))
        (λ err,
           set_state (setStep1Errors (λ _,
             {| global := Some (or_string (message err) "Failed to create client");
                fields := ∅ |}))))
     (on_ui (setIsSubmitting false)))%eff.

(** The submission loop, collecting [{ id: result.id, name: result.name }]
    of each created location. *)
Fixpoint create_locations (c : State) (l : list LocationPayload)
    (createdLocations : list (value * value))
    : M (Page State Net) (list (value * value)) :=
  match l with
  | [] => ret createdLocations
  | loc :: rest =>
      (let payload := with_client_id (clientId c) loc in
       result <- call (CreateLocation payload) (createLocationApi payload) ;;
       match get result "id", get result "name" with
       | Some i, Some n => create_locations c rest (createdLocations ++ [(i, n)])
       | _, _ => throw (Exn "TypeError" "Cannot read properties")
       end)%eff
  end.

Definition handleSubmitStep2 (c : State) : M (Page State Net) unit :=
  (if negb (truthy (clientId c)) then
     set_state (setStep2Errors (λ _,
       {| global := Some "Client has not been created yet. Please complete Step 1 first.";
          fields := ∅ |})) ;;
     set_state (setCurrentStep Step1)
   else
     valid <- run_ui (validateStep2 c) ;;
     if negb valid then ret tt else
     set_state (setIsSubmitting true) ;;
     try_finally
       (try_catch
          (createdLocations <- create_locations c (locations c) [] ;;
           match createdLocations with
           | first :: _ =>
               set_state (setLocationChoices createdLocations) ;;
               set_state (setFacilities
                 (map (λ fac, if negb (truthy (location_id fac))
                              then let 'Build_FacilityPayload a _ n t st cp md := fac in
                                   Build_FacilityPayload a (fst first) n t st cp md
                              else fac)))
           | [] => ret tt
           end ;;
           set_state (setCurrentStep Step3))
          (λ err,
             set_state (setStep2Errors (λ _,
               {| global := Some (or_string (message err) "Failed to create locations");
                  fields := ∅ |}))))
       (on_ui (setIsSubmitting false)))%eff.

End Submit.
End Onboarding.

(** ** Scripted hosts, for closed examples

    The network and the backend answer from a script, one entry per call,
    and reject once it is exhausted. The runtime is one for examples in which
    no number is converted and no body is inspected. *)
Module Script.
Import Js Eff.

Definition next {A} (script : list (result A)) : result A * list (result A) :=
  match script with
  | [] => (Throw (Exn "TypeError" "Failed to fetch"), [])
  | r :: rest => (r, rest)
  end.

#[export] Instance host : Http.Host (list (result Http.Response)) :=
  {| Http.NEXT_PUBLIC_API_BASE_URL := None; Http.fetch_step := λ n _, next n |}.

#[export] Instance backend : Wizard.Backend (list (result value)) :=
  {| Wizard.createClientWithUserApi := λ _ n, next n;
     Wizard.updateClientApi := λ _ _ n, next n;
     Wizard.createLocationApi := λ _ n, next n |}.

(** A backend that accepts every call, counting them. *)
#[export] Instance agreeable : Wizard.Backend nat :=
  {| Wizard.createClientWithUserApi := λ _ n, (Return VNull, S n);
     Wizard.updateClientApi := λ _ _ n, (Return VNull, S n);
     Wizard.createLocationApi := λ _ n, (Return VNull, S n) |}.

#[export] Instance runtime : Runtime :=
  {| NumberToString := λ _, "NaN"; StringToNumber := λ _, nan;
     JSON_stringify := λ _, "null" |}.

Definition world (ls : gmap string string) (script : list (result Http.Response))
    : Http.World (list (result Http.Response)) :=
  {| Http.localStorage := Some ls; Http.net := script; Http.issued := [] |}.

Definition page {St Net} (s : St) (n : Net) : Wizard.Page St Net :=
  {| Wizard.ui := s; Wizard.server := n; Wizard.calls := [];
     Wizard.pushed := [] |}.

(** A storage holding both tokens. *)
Definition tokens : gmap string string :=
  <["token" := "old"]> (<["refresh_token" := "r1"]> ∅).

Definition bare : Http.RequestInit :=
  {| Http.method := None; Http.body := Http.NoBody; Http.headers := None |}.

Definition unauthorized : Http.Response :=
  {| Http.status := 401;
     Http.json := Return (VObj [("message", VStr "Unauthorized")]) |}.

Definition refreshed (token : string) : Http.Response :=
  {| Http.status := 200;
     Http.json := Return (VObj [("access_token", VStr token)]) |}.

Definition success (v : value) : Http.Response :=
  {| Http.status := 200; Http.json := Return v |}.

(** A row with the three required texts and the given coordinates. *)
Definition row (name : string) (lat lng : option float) : Wizard.LocationPayload :=
  {| Wizard.id := None; Wizard.client_id := VUndef; Wizard.name := name;
     Wizard.description := None; Wizard.phone := Some "";
     Wizard.address := Some ""; Wizard.city := Some "Portland";
     Wizard.state := Some ""; Wizard.country := Some "US";
     Wizard.postal_code := None;
     Wizard.latitude := lat; Wizard.longitude := lng |}.

(** The same row as loaded from the backend, with its identifier. *)
Definition loaded (ident name : string) : Wizard.LocationPayload :=
  Wizard.with_field Wizard.f_id ident None (row name None None).

(** The business form of the specification's example, with the email and
    the admin password left open; the members it does not name are empty. *)
Definition setup_form (mail password : string) : Setup.BusinessForm :=
  λ f, match f with
       | Setup.companyName => "Acme" | Setup.contactName => "Jo"
       | Setup.email => mail | Setup.phone => "+1" | Setup.city => "NYC"
       | Setup.country => "US" | Setup.adminPassword => password
       | _ => ""
       end.

Definition plain_form (mail : string) : SetupPlain.BusinessForm :=
  λ f, match f with
       | SetupPlain.companyName => "Acme" | SetupPlain.contactName => "Jo"
       | SetupPlain.email => mail | SetupPlain.phone => "+1"
       | SetupPlain.city => "NYC" | SetupPlain.country => "US"
       | _ => ""
       end.

Definition onboarding_form (mail password : string) : Onboarding.BusinessForm :=
  λ f, match f with
       | Onboarding.companyName => "Acme" | Onboarding.contactName => "Jo"
       | Onboarding.email => mail | Onboarding.phone => "+1"
       | Onboarding.city => "NYC" | Onboarding.country => "US"
       | Onboarding.adminPassword => password
       | _ => ""
       end.

(** Page states with a given form, rows and client identifier. *)
Definition setup (form : Setup.BusinessForm) (rows : list Wizard.LocationPayload)
    (cid : value) : Setup.State :=
  {| Setup.currentStep := Setup.Step1; Setup.isSubmitting := false;
     Setup.clientId := cid; Setup.isEditing := false;
     Setup.businessForm := form; Setup.step1Errors := Wizard.initialErrorState;
     Setup.locations := rows; Setup.step2Errors := Wizard.initialErrorState |}.

Definition plain (form : SetupPlain.BusinessForm)
    (rows : list Wizard.LocationPayload) (cid : value) : SetupPlain.State :=
  {| SetupPlain.currentStep := SetupPlain.Step1; SetupPlain.isSubmitting := false;
     SetupPlain.clientId := cid; SetupPlain.businessForm := form;
     SetupPlain.step1Errors := Wizard.initialErrorState;
     SetupPlain.locations := rows;
     SetupPlain.step2Errors := Wizard.initialErrorState |}.

Definition onboarding (form : Onboarding.BusinessForm)
    (rows : list Wizard.LocationPayload) (cid : value) : Onboarding.State :=
  {| Onboarding.currentStep := Onboarding.Step1; Onboarding.isSubmitting := false;
     Onboarding.clientId := cid; Onboarding.locationChoices := [];
     Onboarding.businessForm := form;
     Onboarding.step1Errors := Wizard.initialErrorState;
     Onboarding.locations := rows;
     Onboarding.step2Errors := Wizard.initialErrorState;
     Onboarding.facilities := [Onboarding.emptyFacility];
     Onboarding.step3Errors := Wizard.initialErrorState |}.

End Script.

(** ** The endpoint wrappers of the refreshing client *)
Module Endpoints.
Import Js Eff Http Api.

(** *** Percent-encoding

    Of a string of code units below 256: a code unit below 128 is one UTF-8
    byte, one from 128 on is two. *)
Definition hex_digit (n : nat) : ascii :=
  ascii_of_nat (if Nat.ltb n 10 then 48 + n else 55 + n).

(** [%XX] *)
Definition percent (byte : nat) : string :=
  String "%"%char
    (String (hex_digit (byte / 16)) (String (hex_digit (byte mod 16)) "")).

Definition utf8 (c : ascii) : string :=
  let n := nat_of_ascii c in
  if Nat.ltb n 128 then percent n
  else percent (192 + n / 64) +:+ percent (128 + n mod 64).

Definition is_alnum (c : ascii) : bool :=
  let n := nat_of_ascii c in
  Nat.leb 48 n && Nat.leb n 57 || Nat.leb 65 n && Nat.leb n 90 ||
  Nat.leb 97 n && Nat.leb n 122.

Definition one_of (marks : string) (c : ascii) : bool :=
  existsb (Ascii.eqb c) (String.list_ascii_of_string marks).

(** [encodeURIComponent(s)]: letters, digits and [-_.!~*'()] stay. *)
Fixpoint encodeURIComponent (s : string) : string :=
  match s with
  | EmptyString => EmptyString
  | String c s' =>
      (if is_alnum c || one_of "-_.!~*'()" c then String c "" else utf8 c)
      +:+ encodeURIComponent s'
  end.

(** The serializer of [URLSearchParams]: letters, digits and [*-._] stay, a
    space becomes [+]. *)
Fixpoint form_encode (s : string) : string :=
  match s with
  | EmptyString => EmptyString
  | String c s' =>
      (if is_alnum c || one_of "*-._" c then String c ""
       else if Ascii.eqb c " "%char then "+" else utf8 c)
      +:+ form_encode s'
  end.

(** [query.set(name, value)]: the first pair named [name] takes the value and
    the later ones go; without one the pair is appended. *)
Fixpoint URLSearchParams_set (name value : string) (query : list (string * string))
    : list (string * string) :=
  match query with
  | [] => [(name, value)]
  | (k, v) :: rest =>
      if String.eqb k name
      then (k, value) :: filter (λ p, negb (String.eqb p.1 name)) rest
      else (k, v) :: URLSearchParams_set name value rest
  end.

(** [query.toString()] *)
Definition URLSearchParams_toString (query : list (string * string)) : string :=
  join "&" (map (λ p, form_encode p.1 +:+ "=" +:+ form_encode p.2) query).

(** A character that would end or split a query parameter. *)
Definition delimiter (c : ascii) : bool := one_of "&=?#/ " c.

Fixpoint delimiter_free (s : string) : bool :=
  match s with
  | EmptyString => true
  | String c s' => negb (delimiter c) && delimiter_free s'
  end.

Record GetFacilitiesParams := {
  search : option string;
  type : option string;
  location_id : option string;
}.

(** The path [getFacilitiesApi] requests. *)
Definition facilities_path (params : GetFacilitiesParams) : string :=
  let query : list (string * string) := [] in
  let query := if truthy_opt (search params)
               then URLSearchParams_set "search" (default "" (search params)) query
               else query in
  let query := if truthy_opt (type params)
               then URLSearchParams_set "type" (default "" (type params)) query
               else query in
  let query := if truthy_opt (location_id params)
               then URLSearchParams_set "location_id"
                      (default "" (location_id params)) query
               else query in
  let qs := URLSearchParams_toString query in
  if truthy_string qs then "/facilities?" +:+ qs else "/facilities".

(** [clientId ? `?clientId=${encodeURIComponent(clientId)}` : ""] *)
Definition client_query (clientId : option string) : string :=
  if truthy_opt clientId
  then "?clientId=" +:+ encodeURIComponent (default "" clientId)
  else "".

(** [options = {}] *)
Definition defaults : RequestInit :=
  {| method := None; body := NoBody; headers := None |}.

Definition post (text : string) : RequestInit :=
  {| method := Some "POST"; body := TextBody text; headers := None |}.

Section Calls.
Context {Net : Type} `{Host Net} `{Runtime}.

Definition loginApi (email password : string) : M (World Net) value :=
  apiFetch "/auth/login"
    (post (JSON_stringify (VObj [("email", VStr email);
                                 ("password", VStr password)]))).

(** The body [logoutApi] sends for the token it settled on. *)
Definition logout_body (token : option string) : Body :=
  let body := if truthy_opt token
              then [("refresh_token", VStr (default "" token))] else [] in
  if Nat.ltb 0 (length body) then TextBody (JSON_stringify (VObj body))
  else NoBody.

(** [refreshToken] is [None] for [null] and [undefined]. *)
Definition logoutApi (refreshToken : option string) : M (World Net) value :=
  (token <- match refreshToken with
            | Some t => ret (Some t)
            | None => getRefreshToken
            end ;;
   apiFetch "/auth/logout"
     {| method := Some "POST"; body := logout_body token; headers := None |})%eff.

(** The form data holds the file; the client does not look into it. *)
Definition uploadImageApi : M (World Net) value :=
  apiFetch "/auth/upload"
    {| method := Some "POST"; body := FormData; headers := None |}.

Definition getLocationsApi (clientId : option string) : M (World Net) value :=
  apiFetch ("/locations" +:+ client_query clientId) defaults.

Definition getGamingCentersApi (clientId : option string) : M (World Net) value :=
  apiFetch ("/gaming" +:+ client_query clientId) defaults.

Definition getFacilitiesApi (params : GetFacilitiesParams) : M (World Net) value :=
  apiFetch (facilities_path params) defaults.

End Calls.
End Endpoints.

(** ** What a call leaves as it was *)
Module Frames.
Import Js Eff Http Api.

Section Frames.
Context {Net : Type}.

(** [m] takes every world to one related to it by [R]. *)
Definition respects (R : World Net → World Net → Prop) {A}
    (m : M (World Net) A) : Prop :=
  ∀ w, R w (m w).2.

(** The storage exists or not as before, and holds under every key other
    than the two token keys what it held. *)
Definition same_elsewhere (w w' : World Net) : Prop :=
  (localStorage w = None ↔ localStorage w' = None) ∧
  ∀ k, k ≠ ACCESS_TOKEN_KEY → k ≠ REFRESH_TOKEN_KEY →
       (localStorage w' ≫= λ m, m !! k) = (localStorage w ≫= λ m, m !! k).

End Frames.
End Frames.

(** ** Step 3 of the three-step onboarding page: the facilities *)
Module Step3.
Import Js Eff Wizard Onboarding.

(** [!fac.location_id?.trim()]: [location_id] holds what step 2 put there,
    the untyped [id] of a created location, or the string of the select
    control. On a value that is neither nullish nor a string [trim] is not
    a function. *)
Definition location_missing (v : value) : result bool :=
  match v with
  | VUndef | VNull => Return true
  | VStr s => Return (negb (truthy_string (trim s)))
  | _ => Throw (Exn "TypeError" "fac.location_id?.trim is not a function")
  end.

(** The body of the [forEach] callback of [validateStep3]. *)
Definition check_facility (fac : FacilityPayload) (index : nat)
    (e : gmap string (option string)) : result (gmap string (option string)) :=
  let e := flag (negb (truthy_string (trim (fac_name fac))))
             (row_key index "name") "Facility name is required" e in
  let e := flag (negb (truthy_string (trim (type fac))))
             (row_key index "type") "Type is required" e in
  match location_missing (location_id fac) with
  | Return b => Return (flag b (row_key index "location_id") "Location is required" e)
  | Throw err => Throw err
  end.

(** [facilities.forEach(...)], which a throwing callback leaves. *)
Fixpoint check_facilities (index : nat) (l : list FacilityPayload)
    (e : gmap string (option string)) : result (gmap string (option string)) :=
  match l with
  | [] => Return e
  | fac :: rest =>
      match check_facility fac index e with
      | Return e' => check_facilities (S index) rest e'
      | Throw err => Throw err
      end
  end.

(** The outcome of the gate once the rows are checked. *)
Definition step3_verdict (rows : nat) (e : gmap string (option string))
    : bool * StepErrorState :=
  let g := if Nat.eqb rows 0
           then Some "Add at least one facility to continue." else None in
  if has_keys e || truthy_opt g then
    (false,
     {| global := if negb (truthy_opt g)
                  then Some "Please complete the required fields for facilities."
                  else g;
        fields := e |})
  else (true, initialErrorState).

(** The backend call of step 3, settling to a result or a rejection. *)
Class FacilityBackend (Net : Type) := {
  createFacilityApi : FacilityPayload → Net → result value * Net;
}.

(** The mounted page at step 3: its state, the backend, the facilities
    submitted so far and the routes pushed. *)
Record Page (Net : Type) := {
  ui : State;
  server : Net;
  submitted : list FacilityPayload;
  pushed : list string;
}.
Arguments ui {Net} p.
Arguments server {Net} p.
Arguments submitted {Net} p.
Arguments pushed {Net} p.

Section Submit.
Context {Net : Type} `{FacilityBackend Net}.

Definition set_state (f : State → State) : M (Page Net) unit :=
  modify (λ p, {| ui := f (ui p); server := server p;
                  submitted := submitted p; pushed := pushed p |}).

Definition router_push (route : string) : M (Page Net) unit :=
  modify (λ p, {| ui := ui p; server := server p;
                  submitted := submitted p; pushed := pushed p ++ [route] |}).

(** [await createFacilityApi(fac)] *)
Definition create (fac : FacilityPayload) : M (Page Net) value :=
  λ p, let '(r, n) := createFacilityApi fac (server p) in
       (r, {| ui := ui p; server := n;
              submitted := submitted p ++ [fac]; pushed := pushed p |}).

Fixpoint for_of (l : list FacilityPayload)
    (f : FacilityPayload → M (Page Net) unit) : M (Page Net) unit :=
  match l with
  | [] => ret tt
  | x :: rest => (f x ;; for_of rest f)%eff
  end.

(** One turn of the submission loop. *)
Definition submit_facility (fac : FacilityPayload) : M (Page Net) unit :=
  (create fac ;; ret tt)%eff.

(** The backend's state once it has settled the creation of each of the
    facilities [l], asked for one after the other from the state [n], with
    a result; [None] when it rejects one of them. *)
Fixpoint accepted (l : list FacilityPayload) (n : Net) : option Net :=
  match l with
  | [] => Some n
  | fac :: rest =>
      match createFacilityApi fac n with
      | (Return _, n') => accepted rest n'
      | (Throw _, _) => None
      end
  end.

(** [c] is the state the handler closed over. *)
Definition validateStep3 (c : State) : M (Page Net) bool :=
  (e <- await (check_facilities 0 (facilities c) ∅) ;;
   let '(valid, errors) := step3_verdict (length (facilities c)) e in
   set_state (setStep3Errors (λ _, errors)) ;;
   ret valid)%eff.

(** There is no [finally] here: nothing sets [isSubmitting] back. *)
Definition handleSubmitStep3 (c : State) : M (Page Net) unit :=
  (valid <- validateStep3 c ;;
   if negb valid then ret tt else
   set_state (setIsSubmitting true) ;;
   try_catch
     (for_of (facilities c) submit_facility ;;
      router_push "/dashboard")
     (λ err,
        set_state (setStep3Errors (λ _,
          {| global := Some (or_string (message err) "Failed to create facilities");
             fields := ∅ |}))))%eff.

(** The remove control of a facility is rendered only under
    [facilities.length > 1]. *)
Definition remove_rendered (c : State) : bool :=
  Nat.ltb 1 (length (facilities c)).

Definition click_remove (c : State) (index : nat) (s : State) : State :=
  if remove_rendered c then removeFacility index s else s.

End Submit.
End Step3.

(** ** A session on the edit-capable page

    What the user does between submissions, one event after the other; each
    handler belongs to the render of the state it finds. *)
Module Session.
Import Js Eff Wizard Setup.

Inductive Event :=
| TypeBusiness (field : BusinessField) (value : string)
| TypeLocation (index : nat) (field : LocationField) (value : string)
| AddLocation
| ClickRemove (index : nat)
| GoToStep (step : WizardStep).

Section Session.
Context `{Runtime}.

Definition handle (s : State) (e : Event) : State :=
  match e with
  | TypeBusiness field value => handleBusinessChange field value s
  | TypeLocation index field value => handleLocationChange index field value s
  | AddLocation => addLocation s
  | ClickRemove index => click_remove s index s
  | GoToStep step => goToStep step s
  end.

Definition after (events : list Event) (s : State) : State :=
  foldl handle s events.

(** An event that neither adds a row nor writes the [id] of one. (No input
    of the page is bound to [id].) *)
Definition keeps_rows (e : Event) : bool :=
  match e with
  | AddLocation => false
  | TypeLocation _ f_id _ => false
  | _ => true
  end.

End Session.
End Session.

(** ** More scripted fixtures *)
Module Fixtures.
Import Js Eff.

#[export] Instance facilities : Step3.FacilityBackend (list (result value)) :=
  {| Step3.createFacilityApi := λ _ n, Script.next n |}.

(** A facility with the given name and location. *)
Definition facility (name : string) (location : value) : Onboarding.FacilityPayload :=
  {| Onboarding.fac_id := None; Onboarding.location_id := location;
     Onboarding.fac_name := name; Onboarding.type := "other";
     Onboarding.status := "active"; Onboarding.capacity := None;
     Onboarding.metadata := None |}.

(** The three-step page at step 3 with the given facilities. *)
Definition step3 (rows : list Onboarding.FacilityPayload) (script : list (result value))
    : Step3.Page (list (result value)) :=
  {| Step3.ui :=
       Onboarding.setFacilities (λ _, rows)
         (Onboarding.setCurrentStep Onboarding.Step3 Onboarding.initialState);
     Step3.server := script; Step3.submitted := []; Step3.pushed := [] |}.

(** A backend that answers every call with an object carrying an [id]
    and the [name] it was sent, and keeps the names. *)
#[export] Instance answering : Wizard.Backend (list string) :=
  {| Wizard.createClientWithUserApi := λ _ n, (Return (VObj [("id", VStr "c1")]), n);
     Wizard.updateClientApi := λ _ _ n, (Return (VObj []), n);
     Wizard.createLocationApi := λ loc n,
       (Return (VObj [("id", VStr ("loc-" +:+ pretty (length n)));
                      ("name", VStr (Wizard.name loc))]),
        n ++ [Wizard.name loc]) |}.

(** A rejection by the backend. *)
Definition rejection (message : string) : result value :=
  Throw (Error message).

(** A backend that settles a create-location call with an object or
    rejects it, as its script says ([true] rejects), and settles every
    call once the script is exhausted. *)
#[export] Instance scripted_rejections : Wizard.Backend (list bool) :=
  {| Wizard.createClientWithUserApi := λ _ n, (Return (VObj [("id", VStr "c1")]), n);
     Wizard.updateClientApi := λ _ _ n, (Return (VObj []), n);
     Wizard.createLocationApi := λ loc n,
       match n with
       | true :: rest => (rejection "Conflict", rest)
       | _ =>
           (Return (VObj [("id", VStr ("loc-" +:+ Wizard.name loc));
                          ("name", VStr (Wizard.name loc))]),
            tail n)
       end |}.

End Fixtures.

(** ** Case and substrings *)
Module Text.

(** The lower-case form of a code unit below 256: [A]-[Z] and the capital
    letters from U+00C0 to U+00DE (the sign U+00D7 is not one) move up by
    32. *)
Definition lower (c : ascii) : ascii :=
  let n := nat_of_ascii c in
  if Nat.leb 65 n && Nat.leb n 90 ||
     Nat.leb 192 n && Nat.leb n 222 && negb (Nat.eqb n 215)
  then ascii_of_nat (n + 32) else c.

(** [s.toLowerCase()], on strings of code units below 256 as everywhere
    here: on these the lower-case form of a string is made of the lower-case
    forms of its code units. On other text it is not (the lower-case form of
    a capital sigma depends on what surrounds it), so that no property is
    drawn from the lower-case form of a concatenation. *)
Fixpoint toLowerCase (s : string) : string :=
  match s with
  | EmptyString => EmptyString
  | String c s' => String (lower c) (toLowerCase s')
  end.

(** [s.startsWith(p)] *)
Fixpoint startsWith (s p : string) {struct p} : bool :=
  match p, s with
  | EmptyString, _ => true
  | String a p', String b s' => Ascii.eqb a b && startsWith s' p'
  | String _ _, EmptyString => false
  end.

(** [s.includes(sub)] *)
Fixpoint includes (s sub : string) : bool :=
  startsWith s sub ||
  match s with
  | EmptyString => false
  | String _ s' => includes s' sub
  end.

End Text.

(** ** A page with a backend: state, calls made, routes taken *)
Module Paged.
Import Js Eff.

Record Page (St C Net : Type) := {
  ui : St;
  server : Net;
  calls : list C;
  routes : list string;
}.
Arguments ui {St C Net} p.
Arguments server {St C Net} p.
Arguments calls {St C Net} p.
Arguments routes {St C Net} p.

Section Effects.
Context {St C Net : Type}.

Definition set_state (f : St → St) : M (Page St C Net) unit :=
  modify (λ p, {| ui := f (ui p); server := server p;
                  calls := calls p; routes := routes p |}).

Definition call {A} (c : C) (step : Net → result A * Net) : M (Page St C Net) A :=
  λ p, let '(r, n) := step (server p) in
       (r, {| ui := ui p; server := n; calls := calls p ++ [c];
              routes := routes p |}).

(** [router.replace(route)] and [router.push(route)] *)
Definition route (target : string) : M (Page St C Net) unit :=
  modify (λ p, {| ui := ui p; server := server p;
                  calls := calls p; routes := routes p ++ [target] |}).

(** One promise of [Promise.allSettled]: its settlement, never a throw. *)
Definition settle {A} (m : M (Page St C Net) A) : M (Page St C Net) (result A) :=
  λ p, let '(r, p') := m p in (Return r, p').

End Effects.
End Paged.

(** ** The signup page ([SignupPage]) *)
Module Signup.
Import Js Eff Text Paged.

Record State := {
  name : string;
  email : string;
  password : string;
  confirmPassword : string;
  error : option string;
  hint : option string;
  loading : bool;
}.

Definition initialState : State :=
  {| name := ""; email := ""; password := ""; confirmPassword := "";
     error := None; hint := None; loading := false |}.

Definition setError (x : option string) (s : State) : State :=
  let 'Build_State a b c d _ f g := s in Build_State a b c d x f g.
Definition setHint (x : option string) (s : State) : State :=
  let 'Build_State a b c d e _ g := s in Build_State a b c d e x g.
Definition setLoading (x : bool) (s : State) : State :=
  let 'Build_State a b c d e f _ := s in Build_State a b c d e f x.

(** [registerApi({ name, email, password })] *)
Class Backend (Net : Type) := {
  registerApi : string → string → string → Net → result value * Net;
}.

Inductive Call := Register (name email password : string).

Section Submit.
Context {Net : Type} `{Backend Net}.

(** What the [catch] clause shows for a message. *)
Definition report (message : string) : M (Page State Call Net) unit :=
  (if includes (toLowerCase message) "user with this email already exists" then
     set_state (setError (Some "An account with this email already exists."))
   else if includes (toLowerCase message) "gateway timeout" ||
           includes (toLowerCase message) "bad gateway" then
     set_state (setError (Some "The server is taking too long to respond.")) ;;
     set_state (setHint (Some "Please try again in a few seconds. If this keeps happening, the backend may still be deploying."))
   else
     set_state (setError (Some (or_string message "Registration failed"))))%eff.

(** [c] is the state the handler closed over. Every thrown value here is
    an [Error], so [err instanceof Error] holds. *)
Definition handleSubmit (c : State) : M (Page State Call Net) unit :=
  (set_state (setError None) ;;
   set_state (setHint None) ;;
   if negb (String.eqb (password c) (confirmPassword c)) then
     set_state (setError (Some "Passwords do not match"))
   else if Nat.ltb (String.length (password c)) 6 then
     set_state (setError (Some "Password must be at least 6 characters"))
   else
     set_state (setLoading true) ;;
     try_finally
       (try_catch
          (call (Register (trim (name c)) (trim (email c)) (password c))
             (registerApi (trim (name c)) (trim (email c)) (password c)) ;;
           route "/login")
          (λ err, report (message err)))
       (λ p, {| ui := setLoading false (ui p); server := server p;
                calls := calls p; routes := routes p |}))%eff.

End Submit.
End Signup.

(** ** [registerApi] of [src/lib/api.ts], and the signup page over it *)
Module LibApi.
Import Js Eff Http.

Section Calls.
Context {Net : Type} `{Host Net} `{Runtime}.

Definition registerApi (name email password : string) : M (World Net) value :=
  ApiV0.apiFetch "/auth/register"
    {| method := Some "POST";
       body := TextBody (JSON_stringify (VObj [("name", VStr name);
                                               ("email", VStr email);
                                               ("password", VStr password)]));
       headers := None |}.

#[export] Instance signup_backend : Signup.Backend (World Net) :=
  {| Signup.registerApi := registerApi |}.

End Calls.
End LibApi.

(** ** The route guard ([ProtectedRoute]) *)
Module ProtectedRoute.
Import Js.

Inductive Role := admin | client | user.

(** What [useAuth()] hands the component; [hasUser] is whether [user] is
    set. *)
Record Auth := {
  hasUser : bool;
  loading : bool;
  isAuthenticated : bool;
  hasRole : list Role → bool;
}.

Inductive View := Loading | NoAccess | Children.

(** The effect: the route it replaces the current one with, if any. *)
Definition redirect (auth : Auth) (allowedRoles : option (list Role))
    (pathname : string) : option string :=
  if negb (loading auth) then
    if negb (isAuthenticated auth)
    then Some ("/login?next=" +:+ Endpoints.encodeURIComponent pathname)
    else match allowedRoles with
         | Some roles => if negb (hasRole auth roles) then Some "/dashboard" else None
         | None => None
         end
  else None.

(** What the component renders. *)
Definition render (auth : Auth) (allowedRoles : option (list Role)) : View :=
  if loading auth || negb (isAuthenticated auth) then Loading
  else match allowedRoles with
       | Some roles =>
           if hasUser auth && negb (hasRole auth roles) then NoAccess else Children
       | None => Children
       end.

End ProtectedRoute.

(** ** The dashboard page ([DashboardPage]) *)
Module Dashboard.
Import Js Eff Paged.

Inductive Role := admin | client | user.

(** [AuthUserProfile] *)
Record AuthUserProfile := {
  id : string;
  email : string;
  name : string;
  role : Role;
  modules : option (list string);
}.

(** The [modules] memo: the set of module keys the page shows. *)
Definition shown (u : option AuthUserProfile) : gset string :=
  match u with
  | None => ∅
  | Some u =>
      match modules u with
      | None | Some [] =>
          match role u with
          | admin => list_to_set ["dashboard-overview"; "analytics"; "bookings"; "gaming"]
          | client => list_to_set ["dashboard-overview"; "bookings"; "gaming"]
          | user => list_to_set ["dashboard-overview"]
          end
      | Some l => list_to_set (filter (λ k, truthy_string k = true) l)
      end
  end.

(** [modules.has(key)] *)
Definition has (key : string) (u : option AuthUserProfile) : bool :=
  bool_decide (key ∈ shown u).

Record State := {
  bookings : value;
  gamingCenters : value;
  clientStats : option value;
  loading : bool;
  error : option string;
}.

Definition initialState : State :=
  {| bookings := VArr []; gamingCenters := VArr []; clientStats := None;
     loading := true; error := None |}.

Definition setBookings (x : value) (s : State) : State :=
  let 'Build_State _ b c d e := s in Build_State x b c d e.
Definition setGamingCenters (x : value) (s : State) : State :=
  let 'Build_State a _ c d e := s in Build_State a x c d e.
Definition setClientStats (x : option value) (s : State) : State :=
  let 'Build_State a b _ d e := s in Build_State a b x d e.
Definition setLoading (x : bool) (s : State) : State :=
  let 'Build_State a b c _ e := s in Build_State a b c x e.
Definition setError (x : option string) (s : State) : State :=
  let 'Build_State a b c d _ := s in Build_State a b c d x.

Class Backend (Net : Type) := {
  getBookingsApi : Net → result value * Net;
  getGamingCentersApi : option string → Net → result value * Net;
  getClientStatisticsApi : Net → result value * Net;
}.

Inductive Call :=
| Bookings
| GamingCenters (clientId : option string)
| ClientStatistics.

Section Load.
Context {Net : Type} `{Backend Net}.

(** [user?.role === "client" ? user.id : undefined] *)
Definition own_centers (u : option AuthUserProfile) : option string :=
  match u with
  | Some u => match role u with client => Some (id u) | _ => None end
  | None => None
  end.

Definition is_admin (u : option AuthUserProfile) : bool :=
  match u with
  | Some u => match role u with admin => true | _ => false end
  | None => false
  end.

(** [if (res.status === "fulfilled") set(res.value || [])] *)
Definition keep_list (res : result value) (set : value → State → State)
    : M (Page State Call Net) unit :=
  match res with
  | Return v => set_state (set (or_value v (VArr [])))
  | Throw _ => ret tt
  end.

(** The effect's [load]. The three calls are started in this order and
    awaited together; [isMounted] is the flag as the continuation finds
    it. *)
Definition load (u : option AuthUserProfile) (isMounted : bool)
    : M (Page State Call Net) unit :=
  (λ p,
   let '(r, p') :=
     try_catch
       (set_state (setLoading true) ;;
        set_state (setError None) ;;
        bookingsRes <- settle (call Bookings getBookingsApi) ;;
        gamingRes <- settle (call (GamingCenters (own_centers u))
                               (getGamingCentersApi (own_centers u))) ;;
        statsRes <- settle (if is_admin u
                            then call ClientStatistics getClientStatisticsApi
                            else ret VNull) ;;
        if negb isMounted then ret tt else
        keep_list bookingsRes setBookings ;;
        keep_list gamingRes setGamingCenters ;;
        match statsRes with
        | Return v => if truthy v then set_state (setClientStats (Some v)) else ret tt
        | Throw _ => ret tt
        end)
       (λ err,
          if negb isMounted then ret tt
          else set_state (setError (Some (message err)))) p in
   (r, if isMounted
       then {| ui := setLoading false (ui p'); server := server p';
               calls := calls p'; routes := routes p' |}
       else p'))%eff.

End Load.
End Dashboard.

(** ** The facilities page ([FacilitiesPage]) *)
Module FacilitiesPage.
Import Js Text.

(** [Facility], as far as the page reads it. *)
Record Facility := {
  id : string;
  location_id : string;
  name : string;
  type : string;
  status : string;
}.

(** The predicate of the [filteredFacilities] memo. *)
Definition matches (searchQuery selectedType selectedLocationId : string)
    (facility : Facility) : bool :=
  let matchesSearch :=
    negb (truthy_string searchQuery) ||
    includes (toLowerCase (name facility)) (toLowerCase searchQuery) in
  let matchesType :=
    negb (truthy_string selectedType) || String.eqb (type facility) selectedType in
  let matchesLocation :=
    negb (truthy_string selectedLocationId) ||
    String.eqb (location_id facility) selectedLocationId in
  matchesSearch && matchesType && matchesLocation.

Definition filteredFacilities (facilities : list Facility)
    (searchQuery selectedType selectedLocationId : string) : list Facility :=
  List.filter (matches searchQuery selectedType selectedLocationId) facilities.

End FacilitiesPage.

(* ===================================================================== *)
(** * Part II: lemmas and theorems *)
(* ===================================================================== *)

(** ** Strings *)
Section StringFacts.
Import Js.

Lemma trimEnd_length s : String.length (trimEnd s) ≤ String.length s.
Proof.
  induction s as [|c s IH]; simpl; [lia|].
  destruct (trimEnd s); [destruct (is_white_space c)|]; simpl in *; lia.
Qed.

Lemma trimStart_length s : String.length (trimStart s) ≤ String.length s.
Proof.
  induction s as [|c s IH]; simpl; [lia|].
  destruct (is_white_space c); simpl; lia.
Qed.

Lemma trim_length s : String.length (trim s) ≤ String.length s.
Proof.
  unfold trim. etrans; [apply trimEnd_length | apply trimStart_length].
Qed.

Lemma trimStart_blank s : trimStart s = "" ↔ blank s = true.
Proof.
  induction s as [|c s IH]; simpl; [done|].
  destruct (is_white_space c); simpl; [done|]. split; discriminate.
Qed.

Lemma trimStart_head s c t : trimStart s = String c t → is_white_space c = false.
Proof.
  induction s as [|c' s IH]; simpl; [discriminate|].
  destruct (is_white_space c') eqn:E; [done|]. by intros [= <- _].
Qed.

Lemma trimEnd_head c t : is_white_space c = false → trimEnd (String c t) ≠ "".
Proof. intros E. simpl. rewrite E. by destruct (trimEnd t). Qed.

(** [!s.trim()] holds exactly of the blank strings. *)
Lemma trim_truthy s : truthy_string (trim s) = negb (blank s).
Proof.
  unfold trim. destruct (trimStart s) as [|c t] eqn:E.
  - apply trimStart_blank in E. by rewrite E.
  - pose proof (trimStart_head _ _ _ E) as Hc.
    pose proof (trimEnd_head c t Hc) as Hne.
    destruct (blank s) eqn:Hb.
    + apply trimStart_blank in Hb. congruence.
    + by destruct (trimEnd (String c t)).
Qed.

End StringFacts.

(** ** Regular expressions: the matcher decides the language *)
Section RegexFacts.
Import Regex.

Lemma nullable_lang r : nullable r = true ↔ lang r [].
Proof.
  induction r as [| |p|r1 IH1 r2 IH2|r1 IH1 r2 IH2|r IH]; simpl.
  - split; [discriminate | inversion 1].
  - split; [constructor | done].
  - split; [discriminate | inversion 1].
  - rewrite andb_true_iff, IH1, IH2. split.
    + intros [H1 H2]. by apply (lang_cat _ _ [] []).
    + inversion 1 as [| |? ? u v Hu Hv| | | |]; subst.
      match goal with E : _ ++ _ = [] |- _ => apply app_eq_nil in E as [-> ->] end.
      done.
  - rewrite orb_true_iff, IH1, IH2. split.
    + intros [?|?]; [by apply lang_alt_l | by apply lang_alt_r].
    + inversion 1; subst; auto.
  - split; [constructor | done].
Qed.

Lemma deriv_sound c r w : lang (deriv c r) w → lang r (c :: w).
Proof.
  revert w. induction r as [| |p|r1 IH1 r2 IH2|r1 IH1 r2 IH2|r IH]; simpl; intros w H.
  - inversion H.
  - inversion H.
  - destruct (p c) eqn:E; inversion H; subst. by constructor.
  - assert (Hcat : ∀ x, lang (Cat (deriv c r1) r2) x → lang (Cat r1 r2) (c :: x)).
    { intros x Hx. inversion Hx as [| |? ? u v Hu Hv| | | |]; subst.
      apply (lang_cat _ _ (c :: u) v); auto. }
    destruct (nullable r1) eqn:N; [|by apply Hcat].
    inversion H; subst; [by apply Hcat|].
    apply (lang_cat _ _ [] (c :: w)); [by apply nullable_lang | auto].
  - inversion H; subst; [apply lang_alt_l | apply lang_alt_r]; auto.
  - inversion H as [| |? ? u v Hu Hv| | | |]; subst.
    apply (lang_star_app _ (c :: u) v); auto.
Qed.

Lemma deriv_complete c r x : lang r x → ∀ w, x = c :: w → lang (deriv c r) w.
Proof.
  induction 1 as [|p c'|r1 r2 u v Hu IHu Hv IHv|r1 r2 u Hu IHu|r1 r2 u Hu IHu
                 |r|r u v Hu IHu Hv IHv]; intros w E; simpl.
  - discriminate.
  - injection E as -> <-. rewrite H. constructor.
  - destruct u as [|c0 u]; simpl in E.
    + apply nullable_lang in Hu. rewrite Hu. apply lang_alt_r. auto.
    + injection E as -> <-.
      assert (lang (Cat (deriv c r1) r2) (u ++ v)) by (constructor; auto).
      destruct (nullable r1); [by apply lang_alt_l | done].
  - apply lang_alt_l. auto.
  - apply lang_alt_r. auto.
  - discriminate.
  - destruct u as [|c0 u]; simpl in E.
    + apply (IHv w E).
    + injection E as -> <-. constructor; auto.
Qed.

Lemma deriv_lang c r w : lang (deriv c r) w ↔ lang r (c :: w).
Proof. split; [apply deriv_sound | intros H; by eapply deriv_complete]. Qed.

Lemma matches_lang r w : matches r w = true ↔ lang r w.
Proof.
  revert r. induction w as [|c w IH]; intros r; simpl.
  - apply nullable_lang.
  - rewrite IH. apply deriv_lang.
Qed.

Lemma lang_class_inv p w : lang (Class p) w ↔ ∃ c, w = [c] ∧ p c = true.
Proof.
  split.
  - inversion 1; subst. eauto.
  - intros (c & -> & Hc). by constructor.
Qed.

Lemma lang_cat_inv r1 r2 w :
  lang (Cat r1 r2) w ↔ ∃ u v, w = u ++ v ∧ lang r1 u ∧ lang r2 v.
Proof.
  split.
  - inversion 1; subst. eauto.
  - intros (u & v & -> & Hu & Hv). by constructor.
Qed.

Lemma lang_star_class p w :
  lang (Star (Class p)) w ↔ Forall (λ c, p c = true) w.
Proof.
  split.
  - intros H. remember (Star (Class p)) as r eqn:E.
    induction H as [| | | | | |r u v Hu _ Hv IHv]; try discriminate.
    + constructor.
    + injection E as ->. apply lang_class_inv in Hu as (c & -> & Hc).
      simpl. constructor; auto.
  - induction 1 as [|c w Hc _ IH]; [constructor|].
    apply (lang_star_app _ [c] w); [by constructor | done].
Qed.

Lemma lang_plus_class p w :
  lang (Plus (Class p)) w ↔ w ≠ [] ∧ Forall (λ c, p c = true) w.
Proof.
  unfold Plus. rewrite lang_cat_inv. split.
  - intros (u & v & -> & Hu & Hv).
    apply lang_class_inv in Hu as (c & -> & Hc).
    apply lang_star_class in Hv. split; [done|]. simpl. by constructor.
  - intros [Hne Hall]. destruct w as [|c w]; [done|].
    inversion Hall; subst. exists [c], w. split; [done|].
    split; [by constructor | by apply lang_star_class].
Qed.

Lemma lang_char_inv (a : ascii) w :
  lang (Class (Ascii.eqb a)) w ↔ w = [a].
Proof.
  rewrite lang_class_inv. split.
  - intros (c & -> & Hc). apply Ascii.eqb_eq in Hc. by subst.
  - intros ->. exists a. split; [done | apply Ascii.eqb_refl].
Qed.

(** The pattern of the email test denotes the [local@domain.tld] shape. *)
Lemma EMAIL_lang s :
  lang EMAIL (String.list_ascii_of_string s) ↔ email_shape s.
Proof.
  unfold EMAIL, email_shape. split.
  - intros H.
    apply lang_cat_inv in H as (l & w1 & E1 & Hl & H).
    apply lang_cat_inv in H as (a & w2 & E2 & Ha & H).
    apply lang_cat_inv in H as (d & w3 & E3 & Hd & H).
    apply lang_cat_inv in H as (o & t & E4 & Ho & Ht).
    apply lang_char_inv in Ha as ->. apply lang_char_inv in Ho as ->.
    apply lang_plus_class in Hl as [? ?], Hd as [? ?], Ht as [? ?].
    exists l, d, t. subst. simpl. done.
  - intros (l & d & t & E & Hl & Hd & Ht & Al & Ad & At).
    rewrite E.
    apply lang_cat_inv. exists l, ("@"%char :: d ++ "."%char :: t).
    split; [done|]. split; [by apply lang_plus_class|].
    apply lang_cat_inv. exists ["@"%char], (d ++ "."%char :: t).
    split; [done|]. split; [by apply lang_char_inv|].
    apply lang_cat_inv. exists d, ("."%char :: t).
    split; [done|]. split; [by apply lang_plus_class|].
    apply lang_cat_inv. exists ["."%char], t.
    split; [done|]. split; [by apply lang_char_inv | by apply lang_plus_class].
Qed.

Lemma test_EMAIL s : test EMAIL s = true ↔ email_shape s.
Proof. unfold test. rewrite matches_lang. apply EMAIL_lang. Qed.

End RegexFacts.

(** ** The API client *)
Section ApiFacts.
Import Js Eff Http Api.
Context {Net : Type} `{Host Net} `{Runtime}.

Lemma finish_outcome (res : Response) (w : World Net) :
  finish res w = (outcome res, w).
Proof.
  unfold finish, outcome, failure_message, bind, try_catch, await, ret, throw.
  destruct (ok res); simpl.
  - destruct (status res =? 204)%Z; done.
  - destruct (json res) as [data|e]; [|done].
    destruct (get data "message"); done.
Qed.

Lemma doRequest_run path options h (w : World Net) :
  doRequest path options h w =
    let h' := with_auth (localStorage w ≫= λ m, m !! ACCESS_TOKEN_KEY) h in
    let rn := fetch_step (net w) (request_of path options h') in
    (match fst rn with Return res => Return (res, h') | Throw e => Throw e end,
     {| localStorage := localStorage w; net := snd rn;
        issued := issued w ++ [(localStorage w, request_of path options h')] |}).
Proof.
  unfold doRequest, attachAuthHeader, getAccessToken, getItem, gets, bind, ret, fetch.
  simpl. destruct (fetch_step _ _) as [[res|e] n]; done.
Qed.

Lemma setAuthTokens_run a r (w : World Net) :
  setAuthTokens a r w =
    (Return tt, {| localStorage := store_tokens a r <$> localStorage w;
                   net := net w; issued := issued w |}).
Proof.
  unfold setAuthTokens, store_tokens, bind, setItem, modify, ret. simpl.
  destruct (truthy r); simpl; [|done].
  by rewrite <- option_fmap_compose.
Qed.

Lemma clearAuthTokens_run (w : World Net) :
  clearAuthTokens w =
    (Return tt, {| localStorage := clear_tokens <$> localStorage w;
                   net := net w; issued := issued w |}).
Proof.
  unfold clearAuthTokens, clear_tokens, bind, removeItem, modify. simpl.
  by rewrite <- option_fmap_compose.
Qed.

Lemma store_tokens_access a r ls :
  store_tokens a r ls !! ACCESS_TOKEN_KEY = Some (ToString a).
Proof.
  unfold store_tokens. destruct (truthy r).
  - rewrite lookup_insert_ne by done. apply lookup_insert_eq.
  - apply lookup_insert_eq.
Qed.

Lemma clear_tokens_lookup ls :
  clear_tokens ls !! ACCESS_TOKEN_KEY = None ∧
  clear_tokens ls !! REFRESH_TOKEN_KEY = None.
Proof.
  unfold clear_tokens. split.
  - rewrite lookup_delete_ne by done. apply lookup_delete_eq.
  - apply lookup_delete_eq.
Qed.

Lemma wants_refresh_not_ok path res : wants_refresh path res = true → ok res = false.
Proof.
  unfold wants_refresh, ok. destruct (status res =? 401)%Z eqn:E; [|done].
  apply Z.eqb_eq in E. by rewrite E.
Qed.

Lemma truthy_string_ne s : s ≠ "" → truthy_string s = true.
Proof. by destruct s. Qed.

(** A call that is eligible for refresh: the storage holds a refresh token,
    the first request is answered by [res], a 401 on a path other than the
    login and refresh endpoints. *)
Section Eligible.
Variables (path : string) (options : RequestInit) (w : World Net).
Variables (ls : gmap string string) (rt : string) (res : Response) (n1 : Net).
Let h1 := with_auth (ls !! ACCESS_TOKEN_KEY) (initial_headers options).
Let first := request_of path options h1.
Hypothesis Hls : localStorage w = Some ls.
Hypothesis Hrt : ls !! REFRESH_TOKEN_KEY = Some rt.
Hypothesis Hne : rt ≠ "".
Hypothesis H1 : fetch_step (net w) first = (Return res, n1).
Hypothesis Hw : wants_refresh path res = true.

Lemma apiFetch_enters_refresh :
  apiFetch path options w =
    (let '(r, w') :=
       refresh_and_retry path options h1 res rt
         {| localStorage := Some ls; net := n1;
            issued := issued w ++ [(Some ls, first)] |} in
     match r with
     | Return res' => (outcome res', w')
     | Throw e => (Throw e, w')
     end).
Proof using All.
  unfold apiFetch, bind. rewrite doRequest_run. rewrite Hls. simpl.
  fold h1 first. rewrite H1. simpl. rewrite Hw.
  unfold getRefreshToken, getItem, gets. simpl. rewrite Hrt. simpl.
  rewrite (truthy_string_ne _ Hne).
  destruct (refresh_and_retry _ _ _ _ _ _) as [[res'|e] w']; [|done].
  apply finish_outcome.
Qed.

(** Refresh fails: the tokens are cleared, nothing is retried, the first
    response's error is thrown. *)
Lemma apiFetch_refresh_failed r n2 :
  fetch_step n1 (refresh_request rt) = (r, n2) →
  refresh_failed r →
  apiFetch path options w =
    (Throw (Error (ToString (failure_message res))),
     {| localStorage := Some (clear_tokens ls); net := n2;
        issued := issued w ++ [(Some ls, first); (Some ls, refresh_request rt)] |}).
Proof using All.
  intros H2 Hr. rewrite apiFetch_enters_refresh.
  unfold refresh_and_retry, try_catch, bind, fetch. simpl. rewrite H2.
  pose proof (wants_refresh_not_ok _ _ Hw) as Hnok.
  destruct r as [refreshRes|e]; simpl in Hr.
  - rewrite Hr. simpl. unfold outcome. rewrite Hnok. simpl.
    by rewrite <- app_assoc.
  - simpl. unfold outcome. rewrite Hnok. simpl. by rewrite <- app_assoc.
Qed.

(** Refresh answers [ok] without a usable access token: storage is left as
    it is, nothing is retried, the first response's error is thrown. *)
Lemma apiFetch_refresh_no_token refreshRes data n2 :
  fetch_step n1 (refresh_request rt) = (Return refreshRes, n2) →
  ok refreshRes = true →
  json refreshRes = Return data →
  truthy (get_opt data "access_token") = false →
  apiFetch path options w =
    (Throw (Error (ToString (failure_message res))),
     {| localStorage := Some ls; net := n2;
        issued := issued w ++ [(Some ls, first); (Some ls, refresh_request rt)] |}).
Proof using All.
  intros H2 Hok Hj Ht. rewrite apiFetch_enters_refresh.
  unfold refresh_and_retry, try_catch, bind, fetch. simpl. rewrite H2. simpl.
  rewrite Hok. unfold await. rewrite Hj, Ht. simpl.
  unfold outcome. rewrite (wants_refresh_not_ok _ _ Hw). simpl.
  by rewrite <- app_assoc.
Qed.

(** Refresh succeeds: the new tokens are stored and the request is issued
    once more, with the storage [ls'] and the headers [h2]. *)
Section Refreshed.
Variables (refreshRes : Response) (data : value) (n2 : Net).
Let ls' := store_tokens (get_opt data "access_token")
             (get_opt data "refresh_token") ls.
Let h2 := with_auth (Some (ToString (get_opt data "access_token"))) h1.
Let retry := request_of path options h2.
Hypothesis H2 : fetch_step n1 (refresh_request rt) = (Return refreshRes, n2).
Hypothesis Hok : ok refreshRes = true.
Hypothesis Hj : json refreshRes = Return data.
Hypothesis Ht : truthy (get_opt data "access_token") = true.

Lemma apiFetch_retries r n3 :
  fetch_step n2 retry = (r, n3) →
  apiFetch path options w =
    match r with
    | Return retryRes =>
        (outcome retryRes,
         {| localStorage := Some ls'; net := n3;
            issued := issued w ++ [(Some ls, first); (Some ls, refresh_request rt);
                                   (Some ls', retry)] |})
    | Throw _ =>
        (Throw (Error (ToString (failure_message res))),
         {| localStorage := Some (clear_tokens ls'); net := n3;
            issued := issued w ++ [(Some ls, first); (Some ls, refresh_request rt);
                                   (Some ls', retry)] |})
    end.
Proof using All.
  intros H3. rewrite apiFetch_enters_refresh.
  unfold refresh_and_retry, try_catch, bind, fetch. simpl. rewrite H2. simpl.
  rewrite Hok. unfold await. rewrite Hj, Ht. simpl.
  rewrite setAuthTokens_run. simpl. rewrite doRequest_run. simpl.
  assert (Hacc : ls' !! ACCESS_TOKEN_KEY
                 = Some (ToString (get_opt data "access_token")))
    by apply store_tokens_access.
  fold ls'. rewrite Hacc. fold h2 retry.
  rewrite H3. simpl. destruct r as [retryRes|e]; simpl.
  - unfold ret. simpl. by rewrite <- !app_assoc.
  - unfold outcome. rewrite (wants_refresh_not_ok _ _ Hw). simpl.
    by rewrite <- !app_assoc.
Qed.

End Refreshed.
End Eligible.

(** With a string as the new access token, the retried request carries it. *)
Lemma retry_carries_token tok h path options :
  tok ≠ "" →
  req_headers (request_of path options (with_auth (Some tok) h)) !! "Authorization"
  = Some ("Bearer " +:+ tok).
Proof.
  intros Hne. simpl. unfold with_auth. simpl.
  rewrite (truthy_string_ne _ Hne). apply lookup_insert_eq.
Qed.

(** *** No token, no [Authorization] header *)

Lemma grows_same (w w' : World Net) : issued w' = issued w → grows w w'.
Proof. intros E. exists []. by rewrite app_nil_r. Qed.

Lemma grows_refl (w : World Net) : grows w w.
Proof. by apply grows_same. Qed.

Lemma grows_trans (w1 w2 w3 : World Net) : grows w1 w2 → grows w2 w3 → grows w1 w3.
Proof.
  intros (a & Ha & Fa) (b & Hb & Fb). exists (a ++ b).
  rewrite Hb, Ha, app_assoc. split; [done | by apply Forall_app].
Qed.

Lemma guarded_ret {A} (a : A) : guarded (Net:=Net) (ret a).
Proof. intros w. apply grows_refl. Qed.

Lemma guarded_throw {A} e : guarded (Net:=Net) (throw (A:=A) e).
Proof. intros w. apply grows_refl. Qed.

Lemma guarded_await {A} (r : result A) : guarded (Net:=Net) (await r).
Proof. intros w. apply grows_refl. Qed.

Lemma guarded_gets {A} (f : World Net → A) : guarded (gets f).
Proof. intros w. apply grows_refl. Qed.

Lemma guarded_setItem k v : guarded (Net:=Net) (setItem k v).
Proof. intros w. by apply grows_same. Qed.

Lemma guarded_removeItem k : guarded (Net:=Net) (removeItem k).
Proof. intros w. by apply grows_same. Qed.

Lemma guarded_bind {A B} (m : M (World Net) A) (k : A → M (World Net) B) :
  guarded m → (∀ a, guarded (k a)) → guarded (bind m k).
Proof.
  intros Hm Hk w. unfold bind. specialize (Hm w).
  destruct (m w) as [[a|e] w1]; simpl in *; [|done].
  eapply grows_trans; [done | apply Hk].
Qed.

Lemma guarded_try_catch {A} (m : M (World Net) A) h :
  guarded m → (∀ e, guarded (h e)) → guarded (try_catch m h).
Proof.
  intros Hm Hh w. unfold try_catch. specialize (Hm w).
  destruct (m w) as [[a|e] w1]; simpl in *; [done|].
  eapply grows_trans; [done | apply Hh].
Qed.

Lemma guarded_if {A} (b : bool) (m1 m2 : M (World Net) A) :
  guarded m1 → guarded m2 → guarded (if b then m1 else m2).
Proof. by destruct b. Qed.

Lemma guarded_doRequest path options h : guarded (doRequest path options h).
Proof.
  intros w. rewrite doRequest_run. simpl. eexists. split; [done|].
  constructor; [|done]. unfold bare_entry. simpl. intros E.
  unfold with_auth. rewrite E. apply lookup_delete_eq.
Qed.

Lemma guarded_refresh rt : guarded (fetch (refresh_request rt)).
Proof.
  intros w. unfold fetch. destruct (fetch_step _ _) as [r n]. simpl.
  eexists. split; [done|]. constructor; [|done]. by intros _.
Qed.

Lemma guarded_finish res : guarded (Net:=Net) (finish res).
Proof. intros w. rewrite finish_outcome. apply grows_refl. Qed.

(** Whatever the options' headers, no request the refreshing client issues
    while the storage holds no access token has an entry under the key
    [Authorization]. *)
Lemma guarded_apiFetch path options : guarded (apiFetch path options).
Proof.
  unfold apiFetch, refresh_and_retry, setAuthTokens, clearAuthTokens,
    getRefreshToken, getItem.
  repeat first
    [ apply guarded_doRequest | apply guarded_refresh | apply guarded_finish
    | apply guarded_bind; [|intros ?]
    | apply guarded_try_catch; [|intros ?]
    | apply guarded_if
    | apply guarded_ret | apply guarded_throw | apply guarded_await
    | apply guarded_gets | apply guarded_setItem | apply guarded_removeItem
    | match goal with |- guarded (let '(_, _) := ?p in _) => destruct p end ].
Qed.

(** The client of [src/lib/api.ts] adds no [Authorization] entry of its own
    while the storage holds no token: the request carries one only if the
    options' headers did. *)
Lemma ApiV0_adds_no_header path options (w : World Net) :
  truthy_opt (localStorage w ≫= λ m, m !! "token") = false →
  ∃ req, issued (ApiV0.apiFetch path options w).2 = issued w ++ [(localStorage w, req)] ∧
         req_headers req !! "Authorization"
         = default ∅ (headers options) !! "Authorization".
Proof.
  intros Ht. unfold ApiV0.apiFetch, ApiV0.getToken, getItem, gets, bind, fetch.
  simpl. rewrite Ht.
  destruct (fetch_step _ _) as [[res|e] n]; simpl.
  - rewrite finish_outcome. simpl. eexists. split; [done|]. simpl.
    unfold initial_headers. destruct (body options); [|..|done];
      by rewrite lookup_insert_ne.
  - eexists. split; [done|]. simpl.
    unfold initial_headers. destruct (body options); [|..|done];
      by rewrite lookup_insert_ne.
Qed.

End ApiFacts.

(** ** The wizards: error records and row keys *)
Section WizardFacts.
Import Js Eff Wizard.

Lemma has_keys_lookup (e : gmap string (option string)) k :
  is_Some (e !! k) → has_keys e = true.
Proof.
  intros [v Hv]. unfold has_keys. apply Nat.ltb_lt.
  destruct (decide (size e = 0)) as [E|]; [|lia].
  apply map_size_empty_iff in E. subst. by rewrite lookup_empty in Hv.
Qed.

Lemma flag_lookup_ne c k k' m (e : gmap string (option string)) :
  k ≠ k' → flag c k' m e !! k = e !! k.
Proof. intros Hk. unfold flag. destruct c; [|done]. by apply lookup_insert_ne. Qed.

Lemma flag_lookup_set k m (e : gmap string (option string)) :
  flag true k m e !! k = Some (Some m).
Proof. apply lookup_insert_eq. Qed.

(** *** Row keys identify the row and the field *)

Lemma dotless_split s1 s2 t1 t2 :
  dotless s1 = true → dotless s2 = true →
  s1 +:+ "." +:+ t1 = s2 +:+ "." +:+ t2 → s1 = s2 ∧ t1 = t2.
Proof.
  revert s2. induction s1 as [|c s1 IH]; intros [|d s2]; simpl.
  - intros _ _ E. by simplify_eq.
  - intros _ Hd E. by simplify_eq.
  - intros Hc _ E. by simplify_eq.
  - intros [_ H1]%andb_true_iff [_ H2]%andb_true_iff E. simplify_eq.
    match goal with E : _ +:+ _ = _ |- _ => destruct (IH _ H1 H2 E) as [-> ->] end.
    done.
Qed.

Lemma pretty_N_char_dotless x : Ascii.eqb (pretty_N_char x) "."%char = false.
Proof. unfold pretty_N_char. by repeat case_match. Qed.

Lemma pretty_N_go_dotless x s : dotless s = true → dotless (pretty_N_go x s) = true.
Proof.
  revert s. induction (N.lt_wf_0 x) as [x _ IH]. intros s Hs.
  destruct (decide (x = 0)%N) as [->|Hx]; [by rewrite pretty_N_go_0|].
  rewrite pretty_N_go_step by lia.
  apply IH; [apply N.div_lt; lia|]. simpl.
  by rewrite pretty_N_char_dotless.
Qed.

Lemma pretty_nat_dotless (n : nat) : dotless (pretty n) = true.
Proof.
  unfold pretty, pretty_nat, pretty, pretty_N.
  case_decide; [done|]. by apply pretty_N_go_dotless.
Qed.

Lemma row_key_inj i j f g : row_key i f = row_key j g → i = j ∧ f = g.
Proof.
  unfold row_key. intros E.
  apply dotless_split in E as [E ->]; [|apply pretty_nat_dotless..].
  split; [|done]. by apply (inj pretty).
Qed.

Lemma row_key_ne_row i j f g : i ≠ j → row_key i f ≠ row_key j g.
Proof. intros Hne E. by apply row_key_inj in E as [? _]. Qed.

Lemma row_key_ne_field i f g : f ≠ g → row_key i f ≠ row_key i g.
Proof. intros Hne E. by apply row_key_inj in E as [_ ?]. Qed.

End WizardFacts.

(** ** The wizards: the step-2 gates *)
Section Step2Facts.
Import Js Eff Wizard.


Lemma missing_blank o : missing o = blank (default "" o).
Proof. unfold missing. rewrite trim_truthy. by rewrite negb_involutive. Qed.

Lemma check_required_filled loc i e : filled loc → check_required loc i e = e.
Proof.
  intros (Hn & Hc & Hy). unfold check_required.
  rewrite trim_truthy, negb_involutive, !missing_blank, Hn, Hc, Hy. done.
Qed.

Lemma check_location_ok loc i e :
  filled loc → in_range loc → Setup.check_location loc i e = e.
Proof.
  intros Hf [Hlat Hlng]. unfold Setup.check_location.
  rewrite check_required_filled, Hlat, Hlng by done. done.
Qed.

Lemma forEach_id {A E} (f : A → nat → E → E) (P : A → Prop) l :
  (∀ x i e, P x → f x i e = e) → Forall P l → ∀ i e, forEach f i l e = e.
Proof.
  intros Hf. induction 1 as [|x l Hx _ IH]; intros i e; simpl; [done|].
  by rewrite Hf, IH.
Qed.

Lemma check_required_other_row loc j e i f :
  i ≠ j → check_required loc j e !! row_key i f = e !! row_key i f.
Proof.
  intros Hne. unfold check_required.
  rewrite !flag_lookup_ne by (by apply row_key_ne_row). done.
Qed.

Lemma check_location_other_row loc j e i f :
  i ≠ j → Setup.check_location loc j e !! row_key i f = e !! row_key i f.
Proof.
  intros Hne. unfold Setup.check_location.
  rewrite !flag_lookup_ne by (by apply row_key_ne_row).
  by apply check_required_other_row.
Qed.

Lemma forEach_later_rows (check : LocationPayload → nat → _ → _) l :
  (∀ loc j e i f, i ≠ j → check loc j e !! row_key i f = e !! row_key i f) →
  ∀ start (e : gmap string (option string)) i f, i < start →
    forEach check start l e !! row_key i f = e !! row_key i f.
Proof.
  intros Hc. induction l as [|loc l IH]; intros start e i f Hi; simpl; [done|].
  rewrite IH by lia. apply Hc. lia.
Qed.

Lemma forEach_row (check : LocationPayload → nat → _ → _) l k loc f v :
  (∀ loc j e i f, i ≠ j → check loc j e !! row_key i f = e !! row_key i f) →
  l !! k = Some loc →
  (∀ i e, check loc i e !! row_key i f = Some v) →
  ∀ start (e : gmap string (option string)),
    forEach check start l e !! row_key (start + k) f = Some v.
Proof.
  intros Hc Hk Hv. revert k Hk. induction l as [|x l IH]; intros k Hk start e; [done|].
  destruct k as [|k]; simpl in *.
  - injection Hk as ->. rewrite forEach_later_rows by (done || lia).
    rewrite Nat.add_0_r. apply Hv.
  - replace (start + S k) with (S start + k) by lia. by apply IH.
Qed.

Lemma check_location_latitude loc i e :
  out_of_range (-90)%float 90%float (latitude loc) = true →
  Setup.check_location loc i e !! row_key i "latitude"
  = Some (Some "Latitude must be between -90 and 90").
Proof.
  intros Hl. unfold Setup.check_location.
  rewrite flag_lookup_ne by (by apply row_key_ne_field).
  rewrite Hl. apply flag_lookup_set.
Qed.

Lemma check_location_longitude loc i e :
  out_of_range (-180)%float 180%float (longitude loc) = true →
  Setup.check_location loc i e !! row_key i "longitude"
  = Some (Some "Longitude must be between -180 and 180").
Proof. intros Hl. unfold Setup.check_location. rewrite Hl. apply flag_lookup_set. Qed.

Lemma step2_verdict_rejects rows e :
  has_keys e = true →
  ∃ g, step2_verdict rows e = (false, {| global := Some g; fields := e |}).
Proof.
  intros He. unfold step2_verdict. rewrite He. simpl.
  destruct (Nat.eqb rows 0); simpl; eauto.
Qed.

Lemma step2_verdict_accepts rows :
  rows ≠ 0 → step2_verdict rows ∅ = (true, initialErrorState).
Proof.
  intros Hr. unfold step2_verdict.
  destruct (Nat.eqb_spec rows 0) as [|_]; done.
Qed.

Context `{Runtime}.


Lemma Setup_step2_row_error c k loc f msg :
  Setup.locations c !! k = Some loc →
  (∀ i e, Setup.check_location loc i e !! row_key i f = Some (Some msg)) →
  ∀ s, (Setup.validateStep2 c s).1 = false ∧
       fields (Setup.step2Errors (Setup.validateStep2 c s).2) !! row_key k f
       = Some (Some msg).
Proof.
  intros Hk Hv s. unfold Setup.validateStep2.
  pose proof (forEach_row Setup.check_location _ k loc f (Some msg)
                check_location_other_row Hk Hv 0 ∅) as Hrow. simpl in Hrow.
  destruct (step2_verdict_rejects (length (Setup.locations c))
              (forEach Setup.check_location 0 (Setup.locations c) ∅)) as [g Hg].
  { eapply has_keys_lookup. rewrite Hrow. eauto. }
  rewrite Hg. simpl. destruct s; simpl. done.
Qed.

Lemma Setup_validateStep2_accepts c s :
  Setup.locations c ≠ [] →
  Forall (λ loc, filled loc ∧ in_range loc) (Setup.locations c) →
  Setup.validateStep2 c s = (true, Setup.setStep2Errors (λ _, initialErrorState) s).
Proof.
  intros Hne Hall. unfold Setup.validateStep2.
  rewrite (forEach_id _ (λ loc, filled loc ∧ in_range loc)); [|..|done].
  - rewrite step2_verdict_accepts; [done|]. by destruct (Setup.locations c).
  - intros x i e [? ?]. by apply check_location_ok.
Qed.

End Step2Facts.

(** ** The wizards: the submission loops *)
Section SubmitLoops.
Import Js Eff Wizard.
Context {Net : Type} `{Backend Net} `{Runtime}.


Lemma for_of_cons {St A} (x : A) l (f : A → M (Page St Net) unit) p :
  for_of (x :: l) f p =
    match f x p with
    | (Return _, p') => for_of l f p'
    | (Throw e, p') => (Throw e, p')
    end.
Proof. done. Qed.

Lemma loop_outcome_step {St} c0 all (p q : Page St Net) rp :
  ui q = ui p → pushed q = pushed p → calls q = calls p ++ [c0] →
  loop_outcome all q rp → loop_outcome (c0 :: all) p rp.
Proof.
  intros Hu Hp Hc (Hu' & Hp' & Hr). split; [congruence|]. split; [congruence|].
  destruct rp.1.
  - rewrite Hr, Hc. by rewrite <- app_assoc.
  - destruct Hr as (k & Hk & Hr). exists (S k). split; [simpl; lia|].
    rewrite Hr, Hc. by rewrite <- app_assoc.
Qed.

Lemma loop_outcome_rejected {St} c0 all (p q : Page St Net) e :
  ui q = ui p → pushed q = pushed p → calls q = calls p ++ [c0] →
  loop_outcome (c0 :: all) p (Throw e, q).
Proof.
  intros Hu Hp Hc. split; [done|]. split; [done|]. exists 0.
  split; [simpl; lia|]. done.
Qed.

Lemma Setup_loop c l (p : Page Setup.State Net) :
  loop_outcome (expected (Setup.clientId c) l) p
    (for_of l (Setup.submit_location c) p).
Proof.
  revert p. induction l as [|loc l IH]; intros p.
  { split; [done|]. split; [done|]. simpl. by rewrite app_nil_r. }
  rewrite for_of_cons. unfold Setup.submit_location, expected.
  destruct (truthy_opt (id loc)) eqn:E.
  - rewrite filter_cons_False by (unfold unidentified; congruence).
    unfold ret. apply IH.
  - rewrite filter_cons_True by done. simpl.
    unfold bind, call, ret.
    destruct (createLocationApi _ _) as [[v|e] n]; simpl.
    + eapply loop_outcome_step; [..|apply IH]; done.
    + by apply loop_outcome_rejected.
Qed.

Lemma SetupPlain_loop c l (p : Page SetupPlain.State Net) :
  loop_outcome (map (λ loc, CreateLocation (with_client_id (SetupPlain.clientId c) loc)) l) p
    (for_of l (SetupPlain.submit_location c) p).
Proof.
  revert p. induction l as [|loc l IH]; intros p.
  { split; [done|]. split; [done|]. simpl. by rewrite app_nil_r. }
  rewrite for_of_cons. unfold SetupPlain.submit_location. simpl.
  unfold bind, call, ret.
  destruct (createLocationApi _ _) as [[v|e] n]; simpl.
  + eapply loop_outcome_step; [..|apply IH]; done.
  + by apply loop_outcome_rejected.
Qed.

(** Every run of the backend over a list of calls settles them all, or
    rejects a first one after settling those before it. *)
Lemma accepted_or_rejected (l : list Call) (n : Net) :
  (∃ n', accepted l n = Some n') ∨
  (∃ done x rest m e m',
     l = done ++ x :: rest ∧ accepted done n = Some m ∧
     answer x m = (Throw e, m')).
Proof.
  revert n. induction l as [|c l IH]; intros n; simpl.
  { left. by eexists. }
  destruct (answer c n) as [[v|e] n1] eqn:E.
  - destruct (IH n1) as [[n' Hn]|(done & x & rest & m & e & m' & -> & Hd & Hx)].
    + left. by eexists.
    + right. exists (c :: done), x, rest, m, e, m'. simpl. by rewrite E.
  - right. by exists [], c, l, n, e, n1.
Qed.

(** A loop each turn of which makes the call [step] names, or none: it
    completes when the backend settles every call, and is left at the
    first call the backend rejects. *)
Lemma call_loop_accepted {St A} (f : A → M (Page St Net) unit)
    (step : A → option Call) l :
  (∀ x p, f x p = match step x with
                  | None => (Return tt, p)
                  | Some c => (call c (answer c) ;; ret tt)%eff p
                  end) →
  ∀ p n, accepted (omap step l) (server p) = Some n →
  for_of l f p
  = (Return tt, {| ui := ui p; server := n;
                   calls := calls p ++ omap step l; pushed := pushed p |}).
Proof.
  intros Hf. induction l as [|x l IH]; intros p n Ha.
  { simpl in *. injection Ha as <-. unfold ret. rewrite app_nil_r. by destruct p. }
  rewrite for_of_cons, Hf.
  change (omap step (x :: l))
    with (match step x with Some y => y :: omap step l | None => omap step l end)
    in *.
  destruct (step x) as [c|].
  - unfold bind, call, ret. simpl in Ha.
    destruct (answer c (server p)) as [[v|e] n1]; [|done].
    match goal with |- context [for_of l f ?q] => rewrite (IH q n Ha) end.
    simpl. by rewrite <- app_assoc.
  - by apply IH.
Qed.

Lemma call_loop_rejected {St A} (f : A → M (Page St Net) unit)
    (step : A → option Call) l :
  (∀ x p, f x p = match step x with
                  | None => (Return tt, p)
                  | Some c => (call c (answer c) ;; ret tt)%eff p
                  end) →
  ∀ p done x rest n e n',
    omap step l = done ++ x :: rest →
    accepted done (server p) = Some n →
    answer x n = (Throw e, n') →
    for_of l f p
    = (Throw e, {| ui := ui p; server := n';
                   calls := calls p ++ done ++ [x]; pushed := pushed p |}).
Proof.
  intros Hf. induction l as [|y l IH]; intros p done x rest n e n' Hl Ha Hx.
  { by destruct done. }
  rewrite for_of_cons, Hf.
  change (omap step (y :: l))
    with (match step y with Some c => c :: omap step l | None => omap step l end)
    in Hl.
  destruct (step y) as [c|].
  - destruct done as [|d done]; simpl in *.
    + injection Hl as -> _. injection Ha as <-.
      unfold bind, call, ret. by rewrite Hx.
    + injection Hl as -> Hl. unfold bind, call, ret.
      destruct (answer d (server p)) as [[v|e0] n1]; [|done].
      match goal with |- context [for_of l f ?q] =>
        rewrite (IH q done x rest n e n' Hl Ha Hx) end.
      simpl. by rewrite <- app_assoc.
  - by eapply IH.
Qed.

(** The call a turn of the loop of the edit-capable page makes. *)
Lemma Setup_submit_location_step c loc (p : Page Setup.State Net) :
  Setup.submit_location c loc p
  = match (if truthy_opt (id loc) then None
           else Some (CreateLocation (with_client_id (Setup.clientId c) loc))) with
    | None => (Return tt, p)
    | Some call_made => (call call_made (answer call_made) ;; ret tt)%eff p
    end.
Proof. unfold Setup.submit_location. by destruct (truthy_opt (id loc)). Qed.

Lemma omap_unidentified cid l :
  omap (λ loc, if truthy_opt (id loc) then None
               else Some (CreateLocation (with_client_id cid loc))) l
  = expected cid l.
Proof.
  unfold expected, payloads. induction l as [|loc l IH]; [done|].
  change (omap ?f (loc :: l))
    with (match f loc with Some y => y :: omap f l | None => omap f l end).
  rewrite IH. destruct (truthy_opt (id loc)) eqn:E.
  - by rewrite filter_cons_False by (unfold unidentified; congruence).
  - by rewrite filter_cons_True by done.
Qed.



End SubmitLoops.

(** ** The wizards: the step submissions of the edit-capable page *)
Section SubmitSetup.
Import Js Eff Wizard.
Context {Net : Type} `{Backend Net} `{Runtime}.


Lemma Setup_handleSubmitStep2_blocked c (p : Page Setup.State Net) :
  truthy (Setup.clientId c) = false →
  let p' := (Setup.handleSubmitStep2 c p).2 in
  calls p' = calls p ∧ pushed p' = pushed p ∧
  global (Setup.step2Errors (ui p'))
  = Some "Business has not been created yet. Please complete Step 1 first." ∧
  Setup.currentStep (ui p') = Setup.Step1.
Proof.
  intros Hc. unfold Setup.handleSubmitStep2. rewrite Hc. simpl.
  destruct p as [[] ? ? ?]. done.
Qed.

Lemma Setup_handleSubmitStep2_calls c (p : Page Setup.State Net) :
  truthy (Setup.clientId c) = true →
  let p' := (Setup.handleSubmitStep2 c p).2 in
  ∃ k, calls p' = calls p ++ take k (expected (Setup.clientId c) (Setup.locations c)).
Proof.
  intros Hc. unfold Setup.handleSubmitStep2. rewrite Hc. simpl.
  unfold bind, run_ui.
  destruct (Setup.validateStep2 c (ui p)) as [[|] s1]; simpl.
  2:{ exists 0. by rewrite take_0, app_nil_r. }
  unfold bind, set_state, modify, try_finally, try_catch, router_push. simpl.
  match goal with |- context [for_of _ _ ?q] =>
    pose proof (Setup_loop c (Setup.locations c) q) as (Hu & Hp & Hl);
    destruct (for_of _ _ q) as [[[]|e] q']
  end; simpl in *.
  - exists (length (expected (Setup.clientId c) (Setup.locations c))).
    by rewrite firstn_all.
  - destruct Hl as (k & _ & Hl). by exists (S k).
Qed.

Lemma Setup_loop_accepted c l (p : Page Setup.State Net) n :
  accepted (expected (Setup.clientId c) l) (server p) = Some n →
  for_of l (Setup.submit_location c) p
  = (Return tt, {| ui := ui p; server := n;
                   calls := calls p ++ expected (Setup.clientId c) l;
                   pushed := pushed p |}).
Proof.
  rewrite <- omap_unidentified. apply call_loop_accepted.
  apply Setup_submit_location_step.
Qed.

Lemma Setup_loop_rejected c l (p : Page Setup.State Net) done x rest n e n' :
  expected (Setup.clientId c) l = done ++ x :: rest →
  accepted done (server p) = Some n →
  answer x n = (Throw e, n') →
  for_of l (Setup.submit_location c) p
  = (Throw e, {| ui := ui p; server := n';
                 calls := calls p ++ done ++ [x]; pushed := pushed p |}).
Proof.
  rewrite <- omap_unidentified. apply call_loop_rejected.
  apply Setup_submit_location_step.
Qed.

(** A step-2 submission during which the backend settles every call. *)
Lemma Setup_handleSubmitStep2_accepted c (p : Page Setup.State Net) n :
  truthy (Setup.clientId c) = true →
  (Setup.validateStep2 c (ui p)).1 = true →
  accepted (expected (Setup.clientId c) (Setup.locations c)) (server p) = Some n →
  let p' := (Setup.handleSubmitStep2 c p).2 in
  calls p' = calls p ++ expected (Setup.clientId c) (Setup.locations c) ∧
  server p' = n ∧
  pushed p' = pushed p ++ ["/dashboard"].
Proof.
  intros Hc Hv Ha. unfold Setup.handleSubmitStep2. rewrite Hc. simpl.
  unfold bind, run_ui.
  destruct (Setup.validateStep2 c (ui p)) as [valid s1]; simpl in *. subst valid.
  unfold bind, set_state, modify, try_finally, try_catch, router_push. simpl.
  match goal with |- context [for_of _ _ ?q] =>
    rewrite (Setup_loop_accepted c (Setup.locations c) q n Ha)
  end.
  done.
Qed.

(** A step-2 submission during which the backend rejects a call, after
    settling those before it. *)
Lemma Setup_handleSubmitStep2_rejected c (p : Page Setup.State Net)
    done x rest n e n' :
  truthy (Setup.clientId c) = true →
  (Setup.validateStep2 c (ui p)).1 = true →
  expected (Setup.clientId c) (Setup.locations c) = done ++ x :: rest →
  accepted done (server p) = Some n →
  answer x n = (Throw e, n') →
  let p' := (Setup.handleSubmitStep2 c p).2 in
  calls p' = calls p ++ done ++ [x] ∧
  server p' = n' ∧
  pushed p' = pushed p ∧
  global (Setup.step2Errors (ui p'))
  = Some (or_string (message e) "Failed to save locations").
Proof.
  intros Hc Hv Hl Ha Hx. unfold Setup.handleSubmitStep2. rewrite Hc. simpl.
  unfold bind, run_ui.
  destruct (Setup.validateStep2 c (ui p)) as [valid s1]; simpl in *. subst valid.
  unfold bind, set_state, modify, try_finally, try_catch, router_push. simpl.
  match goal with |- context [for_of _ _ ?q] =>
    rewrite (Setup_loop_rejected c (Setup.locations c) q done x rest n e n' Hl Ha Hx)
  end.
  simpl. by destruct s1.
Qed.

Lemma Setup_handleSubmitStep1_created q c (p : Page Setup.State Net) result n :
  (Setup.validateStep1 c (ui p)).1 = true →
  Setup.isEditing c && truthy_opt q = false →
  createClientWithUserApi (Setup.create_payload (Setup.businessForm c)) (server p)
  = (Return result, n) →
  truthy (Setup.created_id result) = true →
  let p' := (Setup.handleSubmitStep1 q c p).2 in
  Setup.clientId (ui p') = Setup.created_id result ∧
  Setup.currentStep (ui p') = Setup.Step2.
Proof.
  intros Hv He Hr Ht. unfold Setup.handleSubmitStep1.
  unfold bind, run_ui.
  destruct (Setup.validateStep1 c (ui p)) as [valid s1]; simpl in *. subst valid.
  rewrite He.
  unfold bind, set_state, modify, try_finally, try_catch, call. simpl.
  rewrite Hr. simpl. rewrite Ht. simpl. by destruct s1.
Qed.

Lemma Setup_handleSubmitStep1_updated q c (p : Page Setup.State Net) result n :
  (Setup.validateStep1 c (ui p)).1 = true →
  Setup.isEditing c = true → truthy_string q = true →
  updateClientApi q (Setup.update_payload (Setup.businessForm c)) (server p)
  = (Return result, n) →
  let p' := (Setup.handleSubmitStep1 (Some q) c p).2 in
  Setup.clientId (ui p') = VStr q ∧
  Setup.currentStep (ui p') = Setup.Step2.
Proof.
  intros Hv He Hq Hr. unfold Setup.handleSubmitStep1.
  unfold bind, run_ui.
  destruct (Setup.validateStep1 c (ui p)) as [valid s1]; simpl in *. subst valid.
  rewrite He, Hq. simpl.
  unfold bind, set_state, modify, try_finally, try_catch, call. simpl.
  rewrite Hr. simpl. by destruct s1.
Qed.

End SubmitSetup.

(** ** The wizards: the step submissions of the other two pages *)
Section SubmitOthers.
Import Js Eff Wizard.
Context {Net : Type} `{Backend Net} `{Runtime}.


Lemma with_client_id_spec cid loc :
  client_id (with_client_id cid loc) = cid ∧ id (with_client_id cid loc) = id loc.
Proof. by destruct loc. Qed.

Lemma stamped_payloads cid l : stamped cid (payloads cid l).
Proof.
  unfold stamped, payloads. apply Forall_forall. intros call Hc.
  apply list_elem_of_fmap in Hc as (loc & -> & _).
  eexists. split; [done|]. apply with_client_id_spec.
Qed.

Lemma stamped_take cid k l : stamped cid l → stamped cid (take k l).
Proof. unfold stamped. intros Hl. by apply Forall_take. Qed.

Lemma SetupPlain_handleSubmitStep2_blocked c (p : Page SetupPlain.State Net) :
  truthy (SetupPlain.clientId c) = false →
  let p' := (SetupPlain.handleSubmitStep2 c p).2 in
  calls p' = calls p ∧ pushed p' = pushed p ∧
  global (SetupPlain.step2Errors (ui p'))
  = Some "Business has not been created yet. Please complete Step 1 first." ∧
  SetupPlain.currentStep (ui p') = SetupPlain.Step1.
Proof.
  intros Hc. unfold SetupPlain.handleSubmitStep2. rewrite Hc. simpl.
  destruct p as [[] ? ? ?]. done.
Qed.

Lemma SetupPlain_handleSubmitStep2_calls c (p : Page SetupPlain.State Net) :
  truthy (SetupPlain.clientId c) = true →
  let p' := (SetupPlain.handleSubmitStep2 c p).2 in
  ∃ k, calls p' = calls p ++ take k (payloads (SetupPlain.clientId c) (SetupPlain.locations c)).
Proof.
  intros Hc. unfold SetupPlain.handleSubmitStep2. rewrite Hc. simpl.
  unfold bind, run_ui.
  destruct (SetupPlain.validateStep2 c (ui p)) as [[|] s1]; simpl.
  2:{ exists 0. by rewrite take_0, app_nil_r. }
  unfold bind, set_state, modify, try_finally, try_catch, router_push. simpl.
  match goal with |- context [for_of _ _ ?q] =>
    pose proof (SetupPlain_loop c (SetupPlain.locations c) q) as (Hu & Hp & Hl);
    destruct (for_of _ _ q) as [[[]|e] q']
  end; simpl in *.
  - exists (length (payloads (SetupPlain.clientId c) (SetupPlain.locations c))).
    by rewrite firstn_all.
  - destruct Hl as (k & _ & Hl). by exists (S k).
Qed.

Lemma SetupPlain_handleSubmitStep1_created c (p : Page SetupPlain.State Net) result n :
  (SetupPlain.validateStep1 c (ui p)).1 = true →
  createClientWithUserApi (SetupPlain.create_payload (SetupPlain.businessForm c)) (server p)
  = (Return result, n) →
  truthy (SetupPlain.created_id result) = true →
  let p' := (SetupPlain.handleSubmitStep1 c p).2 in
  SetupPlain.clientId (ui p') = SetupPlain.created_id result ∧
  SetupPlain.currentStep (ui p') = SetupPlain.Step2.
Proof.
  intros Hv Hr Ht. unfold SetupPlain.handleSubmitStep1.
  unfold bind, run_ui.
  destruct (SetupPlain.validateStep1 c (ui p)) as [valid s1]; simpl in *. subst valid.
  unfold bind, set_state, modify, try_finally, try_catch, call. simpl.
  rewrite Hr. simpl. rewrite Ht. simpl. by destruct s1.
Qed.

Lemma Onboarding_loop c l acc (p : Page Onboarding.State Net) :
  let rp := Onboarding.create_locations c l acc p in
  ui rp.2 = ui p ∧ pushed rp.2 = pushed p ∧
  ∃ k, calls rp.2 = calls p ++ take k (payloads (Onboarding.clientId c) l).
Proof.
  revert acc p. induction l as [|loc l IH]; intros acc p; simpl.
  { split; [done|]. split; [done|]. exists 0. by rewrite app_nil_r. }
  unfold bind, call.
  destruct (createLocationApi _ _) as [[v|e] n]; simpl.
  2:{ split; [done|]. split; [done|]. by exists 1. }
  destruct (get v "id"), (get v "name"); simpl;
    try (split; [done|]; split; [done|]; by exists 1).
  match goal with |- context [Onboarding.create_locations c l ?a ?q] =>
    destruct (IH a q) as (Hu & Hp & k & Hk) end.
  simpl in *. split; [done|]. split; [done|]. exists (S k).
  rewrite Hk. by rewrite <- app_assoc.
Qed.

Lemma Onboarding_handleSubmitStep2_blocked c (p : Page Onboarding.State Net) :
  truthy (Onboarding.clientId c) = false →
  let p' := (Onboarding.handleSubmitStep2 c p).2 in
  calls p' = calls p ∧ pushed p' = pushed p ∧
  global (Onboarding.step2Errors (ui p'))
  = Some "Client has not been created yet. Please complete Step 1 first." ∧
  Onboarding.currentStep (ui p') = Onboarding.Step1.
Proof.
  intros Hc. unfold Onboarding.handleSubmitStep2. rewrite Hc. simpl.
  destruct p as [[] ? ? ?]. done.
Qed.

Lemma Onboarding_handleSubmitStep2_calls c (p : Page Onboarding.State Net) :
  truthy (Onboarding.clientId c) = true →
  let p' := (Onboarding.handleSubmitStep2 c p).2 in
  ∃ k, calls p' = calls p ++ take k (payloads (Onboarding.clientId c) (Onboarding.locations c)).
Proof.
  intros Hc. unfold Onboarding.handleSubmitStep2. rewrite Hc. simpl.
  unfold bind, run_ui.
  destruct (Onboarding.validateStep2 c (ui p)) as [[|] s1]; simpl.
  2:{ exists 0. by rewrite take_0, app_nil_r. }
  unfold bind, set_state, modify, try_finally, try_catch. simpl.
  match goal with |- context [Onboarding.create_locations c ?l ?a ?q] =>
    destruct (Onboarding_loop c l a q) as (Hu & Hp & k & Hk);
    destruct (Onboarding.create_locations c l a q) as [[created|e] q']
  end; simpl in *.
  - exists k. by destruct created.
  - by exists k.
Qed.

Lemma Onboarding_handleSubmitStep1_created c (p : Page Onboarding.State Net) result n :
  (Onboarding.validateStep1 c (ui p)).1 = true →
  createClientWithUserApi (Onboarding.create_payload (Onboarding.businessForm c)) (server p)
  = (Return result, n) →
  truthy (Onboarding.created_id result) = true →
  let p' := (Onboarding.handleSubmitStep1 c p).2 in
  Onboarding.clientId (ui p') = Onboarding.created_id result ∧
  Onboarding.currentStep (ui p') = Onboarding.Step2.
Proof.
  intros Hv Hr Ht. unfold Onboarding.handleSubmitStep1.
  unfold bind, run_ui.
  destruct (Onboarding.validateStep1 c (ui p)) as [valid s1]; simpl in *. subst valid.
  unfold bind, set_state, modify, try_finally, try_catch, call. simpl.
  rewrite Hr. simpl. rewrite Ht. simpl. by destruct s1.
Qed.

End SubmitOthers.

(** ** The wizards: the step-1 gates *)
Section Step1Facts.
Import Js Eff Wizard.
Context `{Runtime}.

Ltac other_keys :=
  repeat first
    [ rewrite flag_lookup_ne by done
    | rewrite lookup_insert_ne by done ].

Lemma short_password pw :
  String.length pw < 6 → Nat.ltb (String.length (trim pw)) 6 = true.
Proof. intros Hl. apply Nat.ltb_lt. pose proof (trim_length pw). lia. Qed.

Lemma not_shape_fails s : ¬ Regex.email_shape s → Regex.test Regex.EMAIL s = false.
Proof.
  intros Hs. destruct (Regex.test Regex.EMAIL s) eqn:E; [|done].
  by apply test_EMAIL in E.
Qed.

(** The edit-capable page. *)
Lemma Setup_step1_rejects c s k :
  is_Some (Setup.step1_fields c !! k) →
  Setup.validateStep1 c s =
    (false, Setup.setStep1Errors
              (λ _, {| global := Some "Please fill in all required fields.";
                       fields := Setup.step1_fields c |}) s).
Proof. intros Hk. unfold Setup.validateStep1. by rewrite (has_keys_lookup _ k). Qed.

Lemma Setup_step1_company c :
  blank (Setup.businessForm c Setup.companyName) = true →
  Setup.step1_fields c !! "companyName" = Some (Some "Company name is required").
Proof.
  intros Hb. unfold Setup.step1_fields.
  repeat (other_keys; try case_match).
  all: rewrite trim_truthy, Hb; apply flag_lookup_set.
Qed.

Lemma Setup_step1_email c :
  ¬ Regex.email_shape (Setup.businessForm c Setup.email) →
  Setup.step1_fields c !! "email" =
    Some (Some (if blank (Setup.businessForm c Setup.email)
                then "Email is required"
                else "Please enter a valid email address")).
Proof.
  intros Hs. unfold Setup.step1_fields. rewrite (not_shape_fails _ Hs).
  rewrite !trim_truthy, !negb_involutive.
  destruct (blank (Setup.businessForm c Setup.email));
    repeat (other_keys; try case_match);
    first [apply lookup_insert_eq | apply flag_lookup_set].
Qed.

Lemma Setup_step1_password c :
  Setup.isEditing c = false →
  String.length (Setup.businessForm c Setup.adminPassword) < 6 →
  Setup.step1_fields c !! "adminPassword" =
    Some (Some (if blank (Setup.businessForm c Setup.adminPassword)
                then "Admin password is required"
                else "Password must be at least 6 characters")).
Proof.
  intros He Hl. unfold Setup.step1_fields. rewrite He. simpl.
  rewrite (short_password _ Hl), trim_truthy, negb_involutive.
  destruct (blank _); [apply lookup_insert_eq | apply flag_lookup_set].
Qed.

(** The plain page and the three-step page. *)
Lemma SetupPlain_step1_rejects c s k :
  is_Some (SetupPlain.step1_fields c !! k) →
  SetupPlain.validateStep1 c s =
    (false, SetupPlain.setStep1Errors
              (λ _, {| global := Some "Please fill in all required fields.";
                       fields := SetupPlain.step1_fields c |}) s).
Proof. intros Hk. unfold SetupPlain.validateStep1. by rewrite (has_keys_lookup _ k). Qed.

Lemma SetupPlain_step1_company c :
  blank (SetupPlain.businessForm c SetupPlain.companyName) = true →
  SetupPlain.step1_fields c !! "companyName" = Some (Some "Company name is required").
Proof.
  intros Hb. unfold SetupPlain.step1_fields.
  repeat (other_keys; try case_match).
  all: rewrite trim_truthy, Hb; apply flag_lookup_set.
Qed.

Lemma SetupPlain_step1_email c :
  ¬ Regex.email_shape (SetupPlain.businessForm c SetupPlain.email) →
  SetupPlain.step1_fields c !! "email" =
    Some (Some (if blank (SetupPlain.businessForm c SetupPlain.email)
                then "Email is required"
                else "Please enter a valid email address")).
Proof.
  intros Hs. unfold SetupPlain.step1_fields. rewrite (not_shape_fails _ Hs).
  rewrite !trim_truthy, !negb_involutive.
  destruct (blank (SetupPlain.businessForm c SetupPlain.email));
    repeat (other_keys; try case_match);
    first [apply lookup_insert_eq | apply flag_lookup_set].
Qed.

Lemma Onboarding_step1_rejects c s k :
  is_Some (Onboarding.step1_fields c !! k) →
  Onboarding.validateStep1 c s =
    (false, Onboarding.setStep1Errors
              (λ _, {| global := Some "Please fill in all required fields.";
                       fields := Onboarding.step1_fields c |}) s).
Proof. intros Hk. unfold Onboarding.validateStep1. by rewrite (has_keys_lookup _ k). Qed.

Lemma Onboarding_step1_company c :
  blank (Onboarding.businessForm c Onboarding.companyName) = true →
  Onboarding.step1_fields c !! "companyName" = Some (Some "Company name is required").
Proof.
  intros Hb. unfold Onboarding.step1_fields.
  repeat (other_keys; try case_match).
  all: rewrite trim_truthy, Hb; apply flag_lookup_set.
Qed.

Lemma Onboarding_step1_password c :
  String.length (Onboarding.businessForm c Onboarding.adminPassword) < 6 →
  Onboarding.step1_fields c !! "adminPassword" =
    Some (Some (if blank (Onboarding.businessForm c Onboarding.adminPassword)
                then "Admin password is required"
                else "Password must be at least 6 characters")).
Proof.
  intros Hl. unfold Onboarding.step1_fields.
  rewrite (short_password _ Hl), trim_truthy, negb_involutive.
  destruct (blank _); [apply lookup_insert_eq | apply flag_lookup_set].
Qed.

(** The example of the specification passes the gates that know its
    members. *)
Lemma Setup_step1_example rows cid s :
  Setup.validateStep1 (Script.setup (Script.setup_form "jo@acme.com" "secret1") rows cid) s
  = (true, Setup.setStep1Errors (λ _, initialErrorState) s).
Proof. done. Qed.

Lemma SetupPlain_step1_example rows cid s :
  SetupPlain.validateStep1 (Script.plain (Script.plain_form "jo@acme.com") rows cid) s
  = (true, SetupPlain.setStep1Errors (λ _, initialErrorState) s).
Proof. done. Qed.

Lemma Onboarding_step1_example rows cid s :
  Onboarding.validateStep1
    (Script.onboarding (Script.onboarding_form "jo@acme.com" "secret1") rows cid) s
  = (true, Onboarding.setStep1Errors (λ _, initialErrorState) s).
Proof. done. Qed.

(** The gates of the plain and three-step pages check the required texts
    only. *)
Lemma SetupPlain_validateStep2_accepts c s :
  SetupPlain.locations c ≠ [] →
  Forall filled (SetupPlain.locations c) →
  SetupPlain.validateStep2 c s
  = (true, SetupPlain.setStep2Errors (λ _, initialErrorState) s).
Proof.
  intros Hne Hall. unfold SetupPlain.validateStep2.
  rewrite (forEach_id _ filled); [|apply check_required_filled|done].
  rewrite step2_verdict_accepts; [done|]. by destruct (SetupPlain.locations c).
Qed.

Lemma Onboarding_validateStep2_accepts c s :
  Onboarding.locations c ≠ [] →
  Forall filled (Onboarding.locations c) →
  Onboarding.validateStep2 c s
  = (true, Onboarding.setStep2Errors (λ _, initialErrorState) s).
Proof.
  intros Hne Hall. unfold Onboarding.validateStep2.
  rewrite (forEach_id _ filled); [|apply check_required_filled|done].
  rewrite step2_verdict_accepts; [done|]. by destruct (Onboarding.locations c).
Qed.

End Step1Facts.

(** ** The wizards: rows and field changes *)
Section RowFacts.
Import Js Eff Wizard.
Context `{Runtime}.

Lemma delete_keeps_one {A} (l : list A) i : 1 < length l → 1 ≤ length (delete i l).
Proof.
  destruct l as [|x [|y l]]; simpl; [lia..|]. intros _.
  destruct i as [|[|i]]; simpl; lia.
Qed.

(** On the edit-capable page a coordinate typed into a row is stored only if
    it is a number in range: rows out of range reach the step-2 gate only
    as loaded rows. *)
Lemma Setup_typed_coordinate v x :
  (Setup.coordinate_of f_latitude v = Some x →
   out_of_range (-90)%float 90%float (Some x) = false) ∧
  (Setup.coordinate_of f_longitude v = Some x →
   out_of_range (-180)%float 180%float (Some x) = false).
Proof.
  unfold Setup.coordinate_of, out_of_range.
  split; intros Hx; repeat case_match; simplify_eq; done.
Qed.

Lemma cleared_clears key prev : clears_field key prev (cleared key prev).
Proof.
  unfold clears_field, cleared; simpl. split; [apply lookup_insert_eq|].
  split; [|done]. intros k Hk. by apply lookup_insert_ne.
Qed.

(** The edit-capable page. *)
Lemma Setup_removeLocation_single c i s :
  length (Setup.locations c) = 1 → Setup.removeLocation c i s = s.
Proof. intros Hl. unfold Setup.removeLocation. by rewrite Hl. Qed.

Lemma Setup_click_remove_single c i s :
  length (Setup.locations c) = 1 → Setup.click_remove c i s = s.
Proof. intros Hl. unfold Setup.click_remove, Setup.remove_rendered. by rewrite Hl. Qed.

Lemma Setup_rows_kept s i f v :
  1 ≤ length (Setup.locations s) →
  1 ≤ length (Setup.locations (Setup.addLocation s)) ∧
  1 ≤ length (Setup.locations (Setup.removeLocation s i s)) ∧
  1 ≤ length (Setup.locations (Setup.handleLocationChange i f v s)).
Proof.
  intros Hl. destruct s as [? ? ? ? ? ? rows ?]; simpl in *. split; [|split].
  - rewrite length_app. lia.
  - unfold Setup.removeLocation; simpl.
    destruct (Nat.ltb_spec 1 (length rows)); simpl; [by apply delete_keeps_one | done].
  - by rewrite length_alter.
Qed.

Lemma Setup_business_change f v s :
  Setup.step1Errors (Setup.handleBusinessChange f v s)
  = cleared (Setup.business_key f) (Setup.step1Errors s) ∧
  Setup.step2Errors (Setup.handleBusinessChange f v s) = Setup.step2Errors s.
Proof. by destruct s. Qed.

Lemma Setup_location_change i f v s :
  Setup.step2Errors (Setup.handleLocationChange i f v s)
  = cleared (row_key i (location_key f)) (Setup.step2Errors s) ∧
  Setup.step1Errors (Setup.handleLocationChange i f v s) = Setup.step1Errors s.
Proof. by destruct s. Qed.

(** The plain page. *)
Lemma SetupPlain_removeLocation_single c i s :
  length (SetupPlain.locations c) = 1 → SetupPlain.removeLocation c i s = s.
Proof. intros Hl. unfold SetupPlain.removeLocation. by rewrite Hl. Qed.

Lemma SetupPlain_click_remove_single c i s :
  length (SetupPlain.locations c) = 1 → SetupPlain.click_remove c i s = s.
Proof.
  intros Hl. unfold SetupPlain.click_remove, SetupPlain.remove_rendered.
  by rewrite Hl.
Qed.

Lemma SetupPlain_rows_kept s i f v :
  1 ≤ length (SetupPlain.locations s) →
  1 ≤ length (SetupPlain.locations (SetupPlain.addLocation s)) ∧
  1 ≤ length (SetupPlain.locations (SetupPlain.removeLocation s i s)) ∧
  1 ≤ length (SetupPlain.locations (SetupPlain.handleLocationChange i f v s)).
Proof.
  intros Hl. destruct s as [? ? ? ? ? rows ?]; simpl in *. split; [|split].
  - rewrite length_app. lia.
  - unfold SetupPlain.removeLocation; simpl.
    destruct (Nat.ltb_spec 1 (length rows)); simpl; [by apply delete_keeps_one | done].
  - by rewrite length_alter.
Qed.

Lemma SetupPlain_business_change f v s :
  SetupPlain.step1Errors (SetupPlain.handleBusinessChange f v s)
  = cleared (SetupPlain.business_key f) (SetupPlain.step1Errors s) ∧
  SetupPlain.step2Errors (SetupPlain.handleBusinessChange f v s)
  = SetupPlain.step2Errors s.
Proof. by destruct s. Qed.

Lemma SetupPlain_location_change i f v s :
  SetupPlain.step2Errors (SetupPlain.handleLocationChange i f v s)
  = cleared (row_key i (location_key f)) (SetupPlain.step2Errors s) ∧
  SetupPlain.step1Errors (SetupPlain.handleLocationChange i f v s)
  = SetupPlain.step1Errors s.
Proof. by destruct s. Qed.

(** The three-step page: the rows are guarded by the remove control. *)
Lemma Onboarding_click_remove_single c i s :
  length (Onboarding.locations c) = 1 → Onboarding.click_remove c i s = s.
Proof.
  intros Hl. unfold Onboarding.click_remove, Onboarding.remove_rendered.
  by rewrite Hl.
Qed.

Lemma Onboarding_rows_kept s i f v :
  1 ≤ length (Onboarding.locations s) →
  1 ≤ length (Onboarding.locations (Onboarding.addLocation s)) ∧
  1 ≤ length (Onboarding.locations (Onboarding.click_remove s i s)) ∧
  1 ≤ length (Onboarding.locations (Onboarding.handleLocationChange i f v s)).
Proof.
  intros Hl. destruct s as [? ? ? ? ? ? rows ? ? ?]; simpl in *. split; [|split].
  - rewrite length_app. lia.
  - unfold Onboarding.click_remove, Onboarding.remove_rendered; simpl.
    destruct (Nat.ltb_spec 1 (length rows)); simpl; [by apply delete_keeps_one | done].
  - by rewrite length_alter.
Qed.

Lemma Onboarding_business_change f v s :
  Onboarding.step1Errors (Onboarding.handleBusinessChange f v s)
  = cleared (Onboarding.business_key f) (Onboarding.step1Errors s) ∧
  Onboarding.step2Errors (Onboarding.handleBusinessChange f v s)
  = Onboarding.step2Errors s ∧
  Onboarding.step3Errors (Onboarding.handleBusinessChange f v s)
  = Onboarding.step3Errors s.
Proof. by destruct s. Qed.

Lemma Onboarding_location_change i f v s :
  Onboarding.step2Errors (Onboarding.handleLocationChange i f v s)
  = cleared (row_key i (location_key f)) (Onboarding.step2Errors s) ∧
  Onboarding.step1Errors (Onboarding.handleLocationChange i f v s)
  = Onboarding.step1Errors s ∧
  Onboarding.step3Errors (Onboarding.handleLocationChange i f v s)
  = Onboarding.step3Errors s.
Proof. by destruct s. Qed.

Lemma Onboarding_facility_change i f v s :
  Onboarding.step3Errors (Onboarding.handleFacilityChange i f v s)
  = cleared (row_key i (Onboarding.facility_key f)) (Onboarding.step3Errors s) ∧
  Onboarding.step1Errors (Onboarding.handleFacilityChange i f v s)
  = Onboarding.step1Errors s ∧
  Onboarding.step2Errors (Onboarding.handleFacilityChange i f v s)
  = Onboarding.step2Errors s.
Proof. by destruct s. Qed.

End RowFacts.

(* ===================================================================== *)
(** * The claims *)
(* ===================================================================== *)

(** ** The API client *)
Section ApiClaims.
Import Js Eff Http Api.
Import (hints) Script.

(** C1, at the input where the code departs from it: the first response is
    a 401, the refresh succeeds with the new access token ["new"], and the
    retried request, which does carry [Bearer new], is rejected by the
    network. The rejection is caught by the handler of the refresh block:
    both tokens are cleared and the caller is thrown the error of the first
    401 response, not the outcome of the final request. *)
Theorem retry_rejection_surfaces_first_401 :
  let w := Script.world Script.tokens
             [Return Script.unauthorized; Return (Script.refreshed "new");
              Throw (Exn "TypeError" "Failed to fetch")] in
  let rw := apiFetch "/users" Script.bare w in
  rw.1 = Throw (Error "Unauthorized") ∧
  localStorage rw.2 = Some ∅ ∧
  map (λ e, req_headers e.2 !! "Authorization") (issued rw.2)
  = [Some "Bearer old"; None; Some "Bearer new"].
Proof. vm_compute. done. Qed.

(** C8, at the input where the code departs from it: the client of
    [src/lib/api.ts] is called with an [Authorization] header among the
    options while the storage holds no token; the request it issues still
    carries that header. *)
Theorem caller_header_survives_without_token :
  let options := {| method := None; body := NoBody;
                    headers := Some {["Authorization" := "Bearer stale"]} |} in
  let rw := ApiV0.apiFetch "/users" options
              (Script.world ∅ [Return (Script.success (VStr "hello"))]) in
  rw.1 = Return (VStr "hello") ∧
  map (λ e, (e.1 ≫= λ ls, ls !! "token", req_headers e.2 !! "Authorization"))
      (issued rw.2)
  = [(None, Some "Bearer stale")].
Proof. vm_compute. done. Qed.

(** Header entries are matched by their exact key: what [attachAuthHeader]
    deletes is the entry [Authorization], and an entry the caller wrote in
    lower case stays in the object handed to [fetch]. *)
Lemma lowercase_header_is_kept :
  let options := {| method := None; body := NoBody;
                    headers := Some {["authorization" := "Bearer stale"]} |} in
  let rw := apiFetch "/users" options
              (Script.world ∅ [Return (Script.success (VStr "hello"))]) in
  map (λ e, (req_headers e.2 !! "Authorization", req_headers e.2 !! "authorization"))
      (issued rw.2)
  = [(None, Some "Bearer stale")].
Proof. vm_compute. done. Qed.

Context {Net : Type} `{Host Net} `{Runtime}.

(** C2: when a call is eligible for refresh (a refresh token is stored and
    the first response is a 401 on a path other than the login and refresh
    endpoints) and the refresh call fails, by a response that is not ok or
    by a rejection, then both tokens are removed from storage, no further
    request is issued, and the caller is thrown the error made from the
    first response. *)
Theorem refresh_failure_clears_tokens
    path options (w : World Net) ls rt res n1 r n2 :
  let first := request_of path options
                 (with_auth (ls !! ACCESS_TOKEN_KEY) (initial_headers options)) in
  localStorage w = Some ls →
  ls !! REFRESH_TOKEN_KEY = Some rt →
  rt ≠ "" →
  fetch_step (net w) first = (Return res, n1) →
  wants_refresh path res = true →
  fetch_step n1 (refresh_request rt) = (r, n2) →
  refresh_failed r →
  ∃ ls',
    apiFetch path options w =
      (Throw (Error (ToString (failure_message res))),
       {| localStorage := Some ls'; net := n2;
          issued := issued w ++ [(Some ls, first); (Some ls, refresh_request rt)] |})
    ∧ ls' !! ACCESS_TOKEN_KEY = None
    ∧ ls' !! REFRESH_TOKEN_KEY = None.
Proof.
  intros first Hls Hrt Hne H1 Hw H2 Hr. exists (clear_tokens ls).
  split; [by eapply apiFetch_refresh_failed | apply clear_tokens_lookup].
Qed.

(** C10: when a call is eligible for refresh and the refresh call answers
    ok with a JSON body that has no [access_token], the storage is left as
    it was, no further request is issued, and the caller is thrown the error
    made from the first response. *)
Theorem refresh_without_access_token_changes_nothing
    path options (w : World Net) ls rt res n1 refreshRes data n2 :
  let first := request_of path options
                 (with_auth (ls !! ACCESS_TOKEN_KEY) (initial_headers options)) in
  localStorage w = Some ls →
  ls !! REFRESH_TOKEN_KEY = Some rt →
  rt ≠ "" →
  fetch_step (net w) first = (Return res, n1) →
  wants_refresh path res = true →
  fetch_step n1 (refresh_request rt) = (Return refreshRes, n2) →
  ok refreshRes = true →
  json refreshRes = Return data →
  get_opt data "access_token" = VUndef →
  apiFetch path options w =
    (Throw (Error (ToString (failure_message res))),
     {| localStorage := Some ls; net := n2;
        issued := issued w ++ [(Some ls, first); (Some ls, refresh_request rt)] |}).
Proof.
  intros first Hls Hrt Hne H1 Hw H2 Hok Hj Ht.
  eapply apiFetch_refresh_no_token; eauto. by rewrite Ht.
Qed.

End ApiClaims.

Section ApiWitnesses.
Import Js Eff Http Api.
Import (hints) Script.

Lemma refresh_failure_witness :
  let w := Script.world Script.tokens
             [Return Script.unauthorized; Return Script.unauthorized] in
  let first := request_of "/users" Script.bare
                 (with_auth (Script.tokens !! ACCESS_TOKEN_KEY)
                    (initial_headers Script.bare)) in
  ∃ ls',
    apiFetch "/users" Script.bare w =
      (Throw (Error (ToString (failure_message Script.unauthorized))),
       {| localStorage := Some ls'; net := [];
          issued := issued w ++ [(Some Script.tokens, first);
                                 (Some Script.tokens, refresh_request "r1")] |})
    ∧ ls' !! ACCESS_TOKEN_KEY = None
    ∧ ls' !! REFRESH_TOKEN_KEY = None.
Proof.
  apply (refresh_failure_clears_tokens "/users" Script.bare
           (Script.world Script.tokens
              [Return Script.unauthorized; Return Script.unauthorized])
           Script.tokens "r1" Script.unauthorized [Return Script.unauthorized]
           (Return Script.unauthorized) []);
    done.
Defined.

Lemma refresh_without_access_token_witness :
  let w := Script.world Script.tokens
             [Return Script.unauthorized; Return (Script.success (VObj []))] in
  let first := request_of "/users" Script.bare
                 (with_auth (Script.tokens !! ACCESS_TOKEN_KEY)
                    (initial_headers Script.bare)) in
  apiFetch "/users" Script.bare w =
    (Throw (Error (ToString (failure_message Script.unauthorized))),
     {| localStorage := Some Script.tokens; net := [];
        issued := issued w ++ [(Some Script.tokens, first);
                               (Some Script.tokens, refresh_request "r1")] |}).
Proof.
  apply (refresh_without_access_token_changes_nothing "/users" Script.bare
           (Script.world Script.tokens
              [Return Script.unauthorized; Return (Script.success (VObj []))])
           Script.tokens "r1" Script.unauthorized
           [Return (Script.success (VObj []))]
           (Script.success (VObj [])) (VObj []) []);
    done.
Defined.

End ApiWitnesses.

(** ** The wizards *)
Section WizardClaims.
Import Js Eff Wizard.
Import (hints) Script.

(** C4, at the input where the code departs from it: the three-step page is
    given the example form with the email ["not-an-email"], which the email
    pattern of the two setup pages does not match; its step-1 gate has no
    such test, returns true and records no error, while the gate of the
    edit-capable page rejects the same form with an email error. *)
Theorem onboarding_gate_accepts_malformed_email :
  let c := Script.onboarding (Script.onboarding_form "not-an-email" "secret1")
             [emptyLocation] VNull in
  let c' := Script.setup (Script.setup_form "not-an-email" "secret1")
              [emptyLocation] VNull in
  Regex.test Regex.EMAIL "not-an-email" = false ∧
  Onboarding.validateStep1 c c
  = (true, Onboarding.setStep1Errors (λ _, initialErrorState) c) ∧
  (Setup.validateStep1 c' c').1 = false ∧
  fields (Setup.step1Errors (Setup.validateStep1 c' c').2) !! "email"
  = Some (Some "Please enter a valid email address").
Proof. vm_compute. done. Qed.

(** C6 fails as stated: on the three-step page [removeLocation] has no
    length test, and invoked at index 0 with a single row it leaves no row. *)
Lemma onboarding_removeLocation_empties :
  let s := Script.onboarding Onboarding.emptyForm [emptyLocation] VNull in
  length (Onboarding.locations s) = 1 ∧
  Onboarding.locations (Onboarding.removeLocation 0 s) = [].
Proof. done. Qed.

(** C9 fails as stated: after a rejected step 1 the step-global message is
    set, and a field change resets it to [null]. *)
Lemma field_change_resets_global :
  let s := (Setup.validateStep1 Setup.initialState Setup.initialState).2 in
  let s' := Setup.handleBusinessChange Setup.companyName "Acme" s in
  global (Setup.step1Errors s) = Some "Please fill in all required fields." ∧
  global (Setup.step1Errors s') = None.
Proof. done. Qed.

(** C5 fails as stated: a row whose name is a single space has non-empty
    name, city and country and the coordinates 45.5 and -122.6, and every
    step-2 gate rejects it, since the required texts are trimmed first. *)
Lemma blank_name_is_rejected :
  let loc := Script.row " " (Some 45.5%float) (Some (-122.6)%float) in
  name loc ≠ "" ∧ city loc ≠ Some "" ∧ country loc ≠ Some "" ∧
  (Setup.validateStep2 (Script.setup Setup.emptyForm [loc] VNull)
     Setup.initialState).1 = false ∧
  (SetupPlain.validateStep2 (Script.plain SetupPlain.emptyForm [loc] VNull)
     SetupPlain.initialState).1 = false ∧
  (Onboarding.validateStep2 (Script.onboarding Onboarding.emptyForm [loc] VNull)
     Onboarding.initialState).1 = false.
Proof. vm_compute. done. Qed.

(** The gates of the plain and three-step pages have no coordinate test: a
    row with latitude 95 passes them. *)
Lemma other_gates_accept_latitude_95 :
  let loc := Script.row "HQ" (Some 95%float) None in
  (SetupPlain.validateStep2 (Script.plain SetupPlain.emptyForm [loc] VNull)
     SetupPlain.initialState).1 = true ∧
  (Onboarding.validateStep2 (Script.onboarding Onboarding.emptyForm [loc] VNull)
     Onboarding.initialState).1 = true.
Proof. vm_compute. done. Qed.

(** C7 fails as stated: with two rows without identifier and a backend that
    rejects the first call, the loop ends there and the second row gets no
    create-location call. *)
Lemma rejected_call_stops_the_loop :
  let a := Script.row "A" None None in
  let b := Script.row "B" None None in
  let p := Script.page (Script.setup Setup.emptyForm [a; b] (VStr "c1"))
             [Throw (Error "boom")] in
  let p' := (fire Setup.handleSubmitStep2 p).2 in
  calls p' = [CreateLocation (with_client_id (VStr "c1") a)] ∧
  global (Setup.step2Errors (ui p')) = Some "boom".
Proof. vm_compute. done. Qed.

Lemma expected_unidentified cid l payload :
  CreateLocation payload ∈ expected cid l → truthy_opt (id payload) = false.
Proof.
  unfold expected, payloads. intros Hin.
  apply list_elem_of_fmap in Hin as (loc & [= ->] & Hloc).
  apply list_elem_of_filter in Hloc as [Hu _].
  by destruct (with_client_id_spec cid loc) as [_ ->].
Qed.

Lemma stamped_expected cid l : stamped cid (expected cid l).
Proof. apply stamped_payloads. Qed.

Context {Net : Type} `{Backend Net} `{Runtime}.

(** C3: on each of the three pages, a step-1 submission that passes the
    gate and whose backend call succeeds (with an identifier in the result,
    where a client is created) sets the client identifier and moves to
    step 2; a step-2 submission with an identifier set stamps it, as
    [client_id], on every location payload it sends; and a step-2
    submission with no identifier set issues no call, sets the step-global
    message and goes back to step 1. *)
Theorem client_id_flows_from_step1_to_step2 :
  (∀ q (p : Page Setup.State Net) result n,
     let c := ui p in
     let p' := (fire (Setup.handleSubmitStep1 q) p).2 in
     (Setup.validateStep1 c c).1 = true →
     Setup.isEditing c && truthy_opt q = false →
     createClientWithUserApi (Setup.create_payload (Setup.businessForm c)) (server p)
     = (Return result, n) →
     truthy (Setup.created_id result) = true →
     Setup.clientId (ui p') = Setup.created_id result ∧
     Setup.currentStep (ui p') = Setup.Step2) ∧
  (∀ q (p : Page Setup.State Net) result n,
     let c := ui p in
     let p' := (fire (Setup.handleSubmitStep1 (Some q)) p).2 in
     (Setup.validateStep1 c c).1 = true →
     Setup.isEditing c = true →
     truthy_string q = true →
     updateClientApi q (Setup.update_payload (Setup.businessForm c)) (server p)
     = (Return result, n) →
     Setup.clientId (ui p') = VStr q ∧
     Setup.currentStep (ui p') = Setup.Step2) ∧
  (∀ p : Page Setup.State Net,
     let p' := (fire Setup.handleSubmitStep2 p).2 in
     truthy (Setup.clientId (ui p)) = true →
     ∃ new, calls p' = calls p ++ new ∧ stamped (Setup.clientId (ui p)) new) ∧
  (∀ p : Page Setup.State Net,
     let p' := (fire Setup.handleSubmitStep2 p).2 in
     truthy (Setup.clientId (ui p)) = false →
     calls p' = calls p ∧ pushed p' = pushed p ∧
     global (Setup.step2Errors (ui p'))
     = Some "Business has not been created yet. Please complete Step 1 first." ∧
     Setup.currentStep (ui p') = Setup.Step1) ∧
  (∀ (p : Page SetupPlain.State Net) result n,
     let c := ui p in
     let p' := (fire SetupPlain.handleSubmitStep1 p).2 in
     (SetupPlain.validateStep1 c c).1 = true →
     createClientWithUserApi (SetupPlain.create_payload (SetupPlain.businessForm c))
       (server p) = (Return result, n) →
     truthy (SetupPlain.created_id result) = true →
     SetupPlain.clientId (ui p') = SetupPlain.created_id result ∧
     SetupPlain.currentStep (ui p') = SetupPlain.Step2) ∧
  (∀ p : Page SetupPlain.State Net,
     let p' := (fire SetupPlain.handleSubmitStep2 p).2 in
     truthy (SetupPlain.clientId (ui p)) = true →
     ∃ new, calls p' = calls p ++ new ∧ stamped (SetupPlain.clientId (ui p)) new) ∧
  (∀ p : Page SetupPlain.State Net,
     let p' := (fire SetupPlain.handleSubmitStep2 p).2 in
     truthy (SetupPlain.clientId (ui p)) = false →
     calls p' = calls p ∧ pushed p' = pushed p ∧
     global (SetupPlain.step2Errors (ui p'))
     = Some "Business has not been created yet. Please complete Step 1 first." ∧
     SetupPlain.currentStep (ui p') = SetupPlain.Step1) ∧
  (∀ (p : Page Onboarding.State Net) result n,
     let c := ui p in
     let p' := (fire Onboarding.handleSubmitStep1 p).2 in
     (Onboarding.validateStep1 c c).1 = true →
     createClientWithUserApi (Onboarding.create_payload (Onboarding.businessForm c))
       (server p) = (Return result, n) →
     truthy (Onboarding.created_id result) = true →
     Onboarding.clientId (ui p') = Onboarding.created_id result ∧
     Onboarding.currentStep (ui p') = Onboarding.Step2) ∧
  (∀ p : Page Onboarding.State Net,
     let p' := (fire Onboarding.handleSubmitStep2 p).2 in
     truthy (Onboarding.clientId (ui p)) = true →
     ∃ new, calls p' = calls p ++ new ∧ stamped (Onboarding.clientId (ui p)) new) ∧
  (∀ p : Page Onboarding.State Net,
     let p' := (fire Onboarding.handleSubmitStep2 p).2 in
     truthy (Onboarding.clientId (ui p)) = false →
     calls p' = calls p ∧ pushed p' = pushed p ∧
     global (Onboarding.step2Errors (ui p'))
     = Some "Client has not been created yet. Please complete Step 1 first." ∧
     Onboarding.currentStep (ui p') = Onboarding.Step1).
Proof.
  unfold fire. split_and!.
  - intros. by eapply Setup_handleSubmitStep1_created.
  - intros. by eapply Setup_handleSubmitStep1_updated.
  - intros p Hc.
    destruct (Setup_handleSubmitStep2_calls (ui p) p Hc) as [k Hk].
    eexists. split; [exact Hk|]. apply stamped_take, stamped_expected.
  - intros. by apply Setup_handleSubmitStep2_blocked.
  - intros. by eapply SetupPlain_handleSubmitStep1_created.
  - intros p Hc.
    destruct (SetupPlain_handleSubmitStep2_calls (ui p) p Hc) as [k Hk].
    eexists. split; [exact Hk|]. apply stamped_take, stamped_payloads.
  - intros. by apply SetupPlain_handleSubmitStep2_blocked.
  - intros. by eapply Onboarding_handleSubmitStep1_created.
  - intros p Hc.
    destruct (Onboarding_handleSubmitStep2_calls (ui p) p Hc) as [k Hk].
    eexists. split; [exact Hk|]. apply stamped_take, stamped_payloads.
  - intros. by apply Onboarding_handleSubmitStep2_blocked.
Qed.

(** C7, amended: in the submission loop of the edit-capable page a row
    with a (non-empty) identifier gets no create-location call: the calls
    of the loop are those for the rows without one, in list order, one
    each, stamped with the client identifier. With the client identifier
    set and the gate passed, the loop makes these calls up to and including
    the first one the backend rejects: there the loop ends, the later rows
    get no call, no route is pushed and the step-global error holds the
    rejection's message. When no call is rejected, every row without
    identifier gets exactly one call and the page moves on to the
    dashboard. Every run is one of the two. *)
Theorem edit_mode_loop_skips_identified_rows (p : Page Setup.State Net) :
  let c := ui p in
  let all := expected (Setup.clientId c) (Setup.locations c) in
  let p' := (fire Setup.handleSubmitStep2 p).2 in
  truthy (Setup.clientId c) = true →
  (Setup.validateStep2 c c).1 = true →
  all = map (λ loc, CreateLocation (with_client_id (Setup.clientId c) loc))
          (filter (λ loc, truthy_opt (id loc) = false) (Setup.locations c)) ∧
  (∀ payload, CreateLocation payload ∈ all → truthy_opt (id payload) = false) ∧
  (∀ n, accepted all (server p) = Some n →
        calls p' = calls p ++ all ∧ server p' = n ∧
        pushed p' = pushed p ++ ["/dashboard"]) ∧
  (∀ done x rest n e n',
     all = done ++ x :: rest →
     accepted done (server p) = Some n →
     answer x n = (Throw e, n') →
     calls p' = calls p ++ done ++ [x] ∧ server p' = n' ∧
     pushed p' = pushed p ∧
     global (Setup.step2Errors (ui p'))
     = Some (or_string (message e) "Failed to save locations")) ∧
  ((∃ n, accepted all (server p) = Some n) ∨
   (∃ done x rest n e n',
      all = done ++ x :: rest ∧ accepted done (server p) = Some n ∧
      answer x n = (Throw e, n'))).
Proof.
  intros c all p' Hc Hv. split_and!.
  - done.
  - intros payload. apply expected_unidentified.
  - intros n Ha. by apply Setup_handleSubmitStep2_accepted.
  - intros done x rest n e n' Hl Ha Hx.
    by apply (Setup_handleSubmitStep2_rejected c p done x rest n e n').
  - apply accepted_or_rejected.
Qed.

(** C5, amended: the step-2 gate of the edit-capable page rejects, with a
    field error under the row's key, any row whose latitude is set and
    outside [-90, 90] or whose longitude is set and outside [-180, 180], a
    row with latitude 95 among them; and on each of the three pages the gate
    accepts a single row with latitude 45.5 and longitude -122.6 whose name,
    city and country are not blank. *)
Theorem step2_gate_checks_coordinates :
  (∀ c s k loc,
     Setup.locations c !! k = Some loc →
     out_of_range (-90)%float 90%float (latitude loc) = true →
     (Setup.validateStep2 c s).1 = false ∧
     fields (Setup.step2Errors (Setup.validateStep2 c s).2) !! row_key k "latitude"
     = Some (Some "Latitude must be between -90 and 90")) ∧
  (∀ c s k loc,
     Setup.locations c !! k = Some loc →
     out_of_range (-180)%float 180%float (longitude loc) = true →
     (Setup.validateStep2 c s).1 = false ∧
     fields (Setup.step2Errors (Setup.validateStep2 c s).2) !! row_key k "longitude"
     = Some (Some "Longitude must be between -180 and 180")) ∧
  (∀ c s k loc,
     Setup.locations c !! k = Some loc →
     latitude loc = Some 95%float →
     (Setup.validateStep2 c s).1 = false) ∧
  (∀ loc,
     filled loc →
     latitude loc = Some 45.5%float →
     longitude loc = Some (-122.6)%float →
     (∀ c s, Setup.locations c = [loc] → (Setup.validateStep2 c s).1 = true) ∧
     (∀ c s, SetupPlain.locations c = [loc] →
             (SetupPlain.validateStep2 c s).1 = true) ∧
     (∀ c s, Onboarding.locations c = [loc] →
             (Onboarding.validateStep2 c s).1 = true)).
Proof.
  split_and!.
  - intros c s k loc Hk Hl.
    apply (Setup_step2_row_error c k loc "latitude" _ Hk).
    intros i e. by apply check_location_latitude.
  - intros c s k loc Hk Hl.
    apply (Setup_step2_row_error c k loc "longitude" _ Hk).
    intros i e. by apply check_location_longitude.
  - intros c s k loc Hk Hl.
    apply (Setup_step2_row_error c k loc "latitude"
             "Latitude must be between -90 and 90" Hk).
    intros i e. apply check_location_latitude. by rewrite Hl.
  - intros loc Hf Hlat Hlng. split_and!; intros c s Hrows.
    + rewrite Setup_validateStep2_accepts; [done|by rewrite Hrows|].
      rewrite Hrows. constructor; [|done]. split; [done|].
      unfold in_range. by rewrite Hlat, Hlng.
    + rewrite SetupPlain_validateStep2_accepts; [done|by rewrite Hrows|].
      rewrite Hrows. by constructor.
    + rewrite Onboarding_validateStep2_accepts; [done|by rewrite Hrows|].
      rewrite Hrows. by constructor.
Qed.

(** C6, amended: on the two setup pages [removeLocation] leaves the rows as
    they are when there is exactly one; on the three-step page, whose
    [removeLocation] has no such test, the remove control is rendered only
    for more than one row, so that a click on it does. On each page the
    operations on the rows (adding, removing through the page's guard, and
    changing a field of a row) keep at least one row. *)
Theorem single_row_is_kept :
  (∀ c i s, length (Setup.locations c) = 1 → Setup.removeLocation c i s = s) ∧
  (∀ c i s, length (SetupPlain.locations c) = 1 →
            SetupPlain.removeLocation c i s = s) ∧
  (∀ c i s, length (Setup.locations c) = 1 → Setup.click_remove c i s = s) ∧
  (∀ c i s, length (SetupPlain.locations c) = 1 →
            SetupPlain.click_remove c i s = s) ∧
  (∀ c i s, length (Onboarding.locations c) = 1 →
            Onboarding.click_remove c i s = s) ∧
  (∀ s i f v,
     1 ≤ length (Setup.locations s) →
     1 ≤ length (Setup.locations (Setup.addLocation s)) ∧
     1 ≤ length (Setup.locations (Setup.removeLocation s i s)) ∧
     1 ≤ length (Setup.locations (Setup.handleLocationChange i f v s))) ∧
  (∀ s i f v,
     1 ≤ length (SetupPlain.locations s) →
     1 ≤ length (SetupPlain.locations (SetupPlain.addLocation s)) ∧
     1 ≤ length (SetupPlain.locations (SetupPlain.removeLocation s i s)) ∧
     1 ≤ length (SetupPlain.locations (SetupPlain.handleLocationChange i f v s))) ∧
  (∀ s i f v,
     1 ≤ length (Onboarding.locations s) →
     1 ≤ length (Onboarding.locations (Onboarding.addLocation s)) ∧
     1 ≤ length (Onboarding.locations (Onboarding.click_remove s i s)) ∧
     1 ≤ length (Onboarding.locations (Onboarding.handleLocationChange i f v s))).
Proof.
  split_and!.
  - apply Setup_removeLocation_single.
  - apply SetupPlain_removeLocation_single.
  - apply Setup_click_remove_single.
  - apply SetupPlain_click_remove_single.
  - apply Onboarding_click_remove_single.
  - apply Setup_rows_kept.
  - apply SetupPlain_rows_kept.
  - apply Onboarding_rows_kept.
Qed.

(** C9, amended: on each page, every field-change handler sets the entry of
    the changed field in its step's error record to [null], leaves the other
    field entries of that record as they were, resets the step-global
    message of that record to [null], and leaves the error records of the
    other steps untouched. *)
Theorem field_change_clears_field_and_global :
  (∀ f v s,
     let s' := Setup.handleBusinessChange f v s in
     clears_field (Setup.business_key f) (Setup.step1Errors s) (Setup.step1Errors s') ∧
     Setup.step2Errors s' = Setup.step2Errors s) ∧
  (∀ i f v s,
     let s' := Setup.handleLocationChange i f v s in
     clears_field (row_key i (location_key f))
       (Setup.step2Errors s) (Setup.step2Errors s') ∧
     Setup.step1Errors s' = Setup.step1Errors s) ∧
  (∀ f v s,
     let s' := SetupPlain.handleBusinessChange f v s in
     clears_field (SetupPlain.business_key f)
       (SetupPlain.step1Errors s) (SetupPlain.step1Errors s') ∧
     SetupPlain.step2Errors s' = SetupPlain.step2Errors s) ∧
  (∀ i f v s,
     let s' := SetupPlain.handleLocationChange i f v s in
     clears_field (row_key i (location_key f))
       (SetupPlain.step2Errors s) (SetupPlain.step2Errors s') ∧
     SetupPlain.step1Errors s' = SetupPlain.step1Errors s) ∧
  (∀ f v s,
     let s' := Onboarding.handleBusinessChange f v s in
     clears_field (Onboarding.business_key f)
       (Onboarding.step1Errors s) (Onboarding.step1Errors s') ∧
     Onboarding.step2Errors s' = Onboarding.step2Errors s ∧
     Onboarding.step3Errors s' = Onboarding.step3Errors s) ∧
  (∀ i f v s,
     let s' := Onboarding.handleLocationChange i f v s in
     clears_field (row_key i (location_key f))
       (Onboarding.step2Errors s) (Onboarding.step2Errors s') ∧
     Onboarding.step1Errors s' = Onboarding.step1Errors s ∧
     Onboarding.step3Errors s' = Onboarding.step3Errors s) ∧
  (∀ i f v s,
     let s' := Onboarding.handleFacilityChange i f v s in
     clears_field (row_key i (Onboarding.facility_key f))
       (Onboarding.step3Errors s) (Onboarding.step3Errors s') ∧
     Onboarding.step1Errors s' = Onboarding.step1Errors s ∧
     Onboarding.step2Errors s' = Onboarding.step2Errors s).
Proof.
  split_and!; cbv zeta; intros.
  - destruct (Setup_business_change f v s) as [-> ?].
    split; [apply cleared_clears | done].
  - destruct (Setup_location_change i f v s) as [-> ?].
    split; [apply cleared_clears | done].
  - destruct (SetupPlain_business_change f v s) as [-> ?].
    split; [apply cleared_clears | done].
  - destruct (SetupPlain_location_change i f v s) as [-> ?].
    split; [apply cleared_clears | done].
  - destruct (Onboarding_business_change f v s) as (-> & ? & ?).
    split; [apply cleared_clears | done].
  - destruct (Onboarding_location_change i f v s) as (-> & ? & ?).
    split; [apply cleared_clears | done].
  - destruct (Onboarding_facility_change i f v s) as (-> & ? & ?).
    split; [apply cleared_clears | done].
Qed.

End WizardClaims.

Section WizardWitnesses.
Import Js Eff Wizard.
Import (hints) Script.

Lemma client_id_flow_witness :
  let result := VObj [("user", VObj [("id", VStr "u1")])] in
  let p := Script.page
             (Script.setup (Script.setup_form "jo@acme.com" "secret1")
                [Script.row "HQ" None None] VNull)
             [Return result] in
  let q := Script.page
             (Script.setup (Script.setup_form "jo@acme.com" "secret1")
                [Script.row "HQ" None None] (VStr "u1"))
             [Return VNull] in
  (Setup.clientId (ui (fire (Setup.handleSubmitStep1 None) p).2)
   = Setup.created_id result ∧
   Setup.currentStep (ui (fire (Setup.handleSubmitStep1 None) p).2) = Setup.Step2) ∧
  (∃ new, calls (fire Setup.handleSubmitStep2 q).2 = calls q ++ new ∧
          stamped (VStr "u1") new).
Proof.
  pose proof (client_id_flows_from_step1_to_step2 (Net:=list (result value)))
    as (Ha & _ & Hb & _).
  split.
  - apply (Ha None _ (VObj [("user", VObj [("id", VStr "u1")])]) []); done.
  - by apply Hb.
Defined.

Lemma edit_mode_loop_witness :
  let a := Script.row "A" None None in
  let b := Script.row "B" None None in
  let d := Script.row "D" None None in
  let rows := [Script.loaded "loc-1" "Old"; a; b; d] in
  let sent loc := CreateLocation (with_client_id (VStr "c1") loc) in
  let p := Script.page (Script.setup Setup.emptyForm rows (VStr "c1"))
             [Return VNull; Throw (Error "boom"); Return VNull] in
  let q := Script.page (Script.setup Setup.emptyForm rows (VStr "c1"))
             [Return VNull; Return VNull; Return VNull] in
  let p' := (fire Setup.handleSubmitStep2 p).2 in
  let q' := (fire Setup.handleSubmitStep2 q).2 in
  (calls p' = [sent a; sent b] ∧ pushed p' = [] ∧
   global (Setup.step2Errors (ui p')) = Some "boom") ∧
  (calls q' = [sent a; sent b; sent d] ∧ pushed q' = ["/dashboard"]).
Proof.
  split.
  - destruct (edit_mode_loop_skips_identified_rows
                (Script.page
                   (Script.setup Setup.emptyForm
                      [Script.loaded "loc-1" "Old"; Script.row "A" None None;
                       Script.row "B" None None; Script.row "D" None None]
                      (VStr "c1"))
                   [Return VNull; Throw (Error "boom"); Return VNull]))
      as (_ & _ & _ & Hr & _); [done | done |].
    destruct (Hr [CreateLocation (with_client_id (VStr "c1") (Script.row "A" None None))]
                (CreateLocation (with_client_id (VStr "c1") (Script.row "B" None None)))
                [CreateLocation (with_client_id (VStr "c1") (Script.row "D" None None))]
                [Throw (Error "boom"); Return VNull] (Error "boom") [Return VNull])
      as (Hcalls & _ & Hpushed & Herr); [done | done | done |].
    split_and!; [exact Hcalls | exact Hpushed | exact Herr].
  - destruct (edit_mode_loop_skips_identified_rows
                (Script.page
                   (Script.setup Setup.emptyForm
                      [Script.loaded "loc-1" "Old"; Script.row "A" None None;
                       Script.row "B" None None; Script.row "D" None None]
                      (VStr "c1"))
                   [Return VNull; Return VNull; Return VNull]))
      as (_ & _ & Ha & _); [done | done |].
    destruct (Ha []) as (Hcalls & _ & Hpushed); [done|].
    split; [exact Hcalls | exact Hpushed].
Defined.

Lemma step2_gate_witness :
  let bad := Script.setup Setup.emptyForm [Script.row "HQ" (Some 95%float) None] VNull in
  let good := Script.row "HQ" (Some 45.5%float) (Some (-122.6)%float) in
  (Setup.validateStep2 bad bad).1 = false ∧
  (Setup.validateStep2 (Script.setup Setup.emptyForm [good] VNull)
     Setup.initialState).1 = true.
Proof.
  pose proof step2_gate_checks_coordinates as (_ & _ & Hbad & Hgood).
  split.
  - by apply (Hbad _ _ 0 (Script.row "HQ" (Some 95%float) None)).
  - apply (Hgood (Script.row "HQ" (Some 45.5%float) (Some (-122.6)%float)));
      done.
Defined.

Lemma single_row_witness :
  Setup.removeLocation Setup.initialState 0 Setup.initialState = Setup.initialState ∧
  Onboarding.click_remove Onboarding.initialState 0 Onboarding.initialState
  = Onboarding.initialState.
Proof.
  pose proof single_row_is_kept as (Ha & _ & _ & _ & Hc & _).
  split; [by apply Ha | by apply Hc].
Defined.

End WizardWitnesses.

(* ===================================================================== *)
(** * Further properties of the code *)
(* ===================================================================== *)

(** ** The refreshing client: more of its behaviour *)
Section ClientFacts.
Import Js Eff Http Api Frames.
Context {Net : Type} `{Host Net} `{Runtime}.

(** The refresh answers [ok] but its body cannot be read as JSON: the
    rejection is caught, the tokens are cleared, nothing is retried. *)
Lemma apiFetch_refresh_unreadable path options (w : World Net) ls rt res n1
    refreshRes e n2 :
  let h1 := with_auth (ls !! ACCESS_TOKEN_KEY) (initial_headers options) in
  let first := request_of path options h1 in
  localStorage w = Some ls →
  ls !! REFRESH_TOKEN_KEY = Some rt →
  rt ≠ "" →
  fetch_step (net w) first = (Return res, n1) →
  wants_refresh path res = true →
  fetch_step n1 (refresh_request rt) = (Return refreshRes, n2) →
  ok refreshRes = true →
  json refreshRes = Throw e →
  apiFetch path options w =
    (Throw (Error (ToString (failure_message res))),
     {| localStorage := Some (clear_tokens ls); net := n2;
        issued := issued w ++ [(Some ls, first); (Some ls, refresh_request rt)] |}).
Proof.
  intros h1 first Hls Hrt Hne H1 Hw H2 Hok Hj.
  rewrite (apiFetch_enters_refresh path options w ls rt res n1 Hls Hrt Hne H1 Hw).
  unfold refresh_and_retry, try_catch, bind, fetch. simpl. rewrite H2. simpl.
  rewrite Hok. unfold await. rewrite Hj. simpl.
  unfold outcome. rewrite (wants_refresh_not_ok _ _ Hw). simpl.
  by rewrite <- app_assoc.
Qed.

(** A call that does not reach the refresh block. *)
Lemma apiFetch_once path options (w : World Net) r n :
  let first := request_of path options
                 (with_auth (localStorage w ≫= λ m, m !! ACCESS_TOKEN_KEY)
                    (initial_headers options)) in
  fetch_step (net w) first = (r, n) →
  (∀ res, r = Return res →
     wants_refresh path res = false ∨
     truthy_opt (localStorage w ≫= λ m, m !! REFRESH_TOKEN_KEY) = false) →
  apiFetch path options w =
    (match r with Return res => outcome res | Throw e => Throw e end,
     {| localStorage := localStorage w; net := n;
        issued := issued w ++ [(localStorage w, first)] |}).
Proof.
  intros first H1 Hno. unfold apiFetch, bind. rewrite doRequest_run. simpl.
  fold first. rewrite H1. simpl. destruct r as [res|e]; [|done].
  destruct (Hno res eq_refl) as [Hw|Ht].
  - rewrite Hw. unfold ret. simpl. apply finish_outcome.
  - destruct (wants_refresh path res).
    + unfold getRefreshToken, getItem, gets. simpl. rewrite Ht.
      unfold ret. apply finish_outcome.
    + unfold ret. apply finish_outcome.
Qed.

Lemma wants_refresh_path path res :
  wants_refresh path res = true →
  status res = 401%Z ∧ path ≠ "/auth/login" ∧ path ≠ "/auth/refresh".
Proof.
  unfold wants_refresh. intros Hw.
  apply andb_true_iff in Hw as [Hw Hb]. apply andb_true_iff in Hw as [Hs Ha].
  apply Z.eqb_eq in Hs. apply negb_true_iff in Ha, Hb.
  apply String.eqb_neq in Ha, Hb. done.
Qed.

Lemma wants_refresh_false path res :
  status res ≠ 401%Z ∨ path = "/auth/login" ∨ path = "/auth/refresh" →
  wants_refresh path res = false.
Proof.
  unfold wants_refresh. intros [Hs|[->| ->]].
  - apply Z.eqb_neq in Hs. by rewrite Hs.
  - by rewrite andb_false_r.
  - by rewrite andb_false_r.
Qed.

Lemma truthy_opt_Some o : truthy_opt o = true → ∃ s, o = Some s ∧ s ≠ "".
Proof. destruct o as [[|c s]|]; try done. intros _. by eexists. Qed.

(** The shapes of what one call adds to the log. *)
Lemma apiFetch_issued path options (w : World Net) :
  let first := request_of path options
                 (with_auth (localStorage w ≫= λ m, m !! ACCESS_TOKEN_KEY)
                    (initial_headers options)) in
  ∃ rest,
    issued (apiFetch path options w).2 = issued w ++ (localStorage w, first) :: rest ∧
    (rest = [] ∨
     ∃ rt, (localStorage w ≫= λ m, m !! REFRESH_TOKEN_KEY) = Some rt ∧ rt ≠ "" ∧
           path ≠ "/auth/login" ∧ path ≠ "/auth/refresh" ∧
           (rest = [(localStorage w, refresh_request rt)] ∨
            ∃ s tok,
              tok = s ≫= (λ m, m !! ACCESS_TOKEN_KEY) ∧
              rest = [(localStorage w, refresh_request rt);
                      (s, request_of path options (with_auth tok (req_headers first)))])).
Proof.
  intros first.
  destruct (fetch_step (net w) first) as [r n1] eqn:H1.
  assert (Hone : (∀ res, r = Return res →
             wants_refresh path res = false ∨
             truthy_opt (localStorage w ≫= λ m, m !! REFRESH_TOKEN_KEY) = false) →
          ∃ rest,
            issued (apiFetch path options w).2
            = issued w ++ (localStorage w, first) :: rest ∧
            (rest = [] ∨
             ∃ rt, (localStorage w ≫= λ m, m !! REFRESH_TOKEN_KEY) = Some rt ∧
               rt ≠ "" ∧ path ≠ "/auth/login" ∧ path ≠ "/auth/refresh" ∧
               (rest = [(localStorage w, refresh_request rt)] ∨
                ∃ s tok, tok = s ≫= (λ m, m !! ACCESS_TOKEN_KEY) ∧
                  rest = [(localStorage w, refresh_request rt);
                          (s, request_of path options
                                (with_auth tok (req_headers first)))]))).
  { intros Hno. rewrite (apiFetch_once _ _ _ _ _ H1 Hno). simpl.
    exists []. by split; [|left]. }
  destruct r as [res|e]; [|apply Hone; by intros].
  destruct (wants_refresh path res) eqn:Hw;
    [|apply Hone; intros ? [= <-]; by left].
  destruct (truthy_opt (localStorage w ≫= λ m, m !! REFRESH_TOKEN_KEY)) eqn:Ht;
    [|apply Hone; intros ? [= <-]; by right].
  clear Hone.
  apply truthy_opt_Some in Ht as (rt & Hrt & Hne).
  destruct (localStorage w) as [ls|] eqn:Hls; [|done]. simpl in Hrt.
  destruct (wants_refresh_path _ _ Hw) as (_ & Hp1 & Hp2).
  simpl in first.
  destruct (fetch_step n1 (refresh_request rt)) as [r2 n2] eqn:H2.
  assert (Hfail : ∀ s n, apiFetch path options w =
            (Throw (Error (ToString (failure_message res))),
             {| localStorage := s; net := n;
                issued := issued w ++ [(Some ls, first); (Some ls, refresh_request rt)] |}) →
          ∃ rest,
            issued (apiFetch path options w).2 = issued w ++ (Some ls, first) :: rest ∧
            (rest = [] ∨
             ∃ rt0, Some ls ≫= (λ m, m !! REFRESH_TOKEN_KEY) = Some rt0 ∧ rt0 ≠ "" ∧
               path ≠ "/auth/login" ∧ path ≠ "/auth/refresh" ∧
               (rest = [(Some ls, refresh_request rt0)] ∨
                ∃ s tok, tok = s ≫= (λ m, m !! ACCESS_TOKEN_KEY) ∧
                  rest = [(Some ls, refresh_request rt0);
                          (s, request_of path options
                                (with_auth tok (req_headers first)))]))).
  { intros s n E. rewrite E. simpl. eexists. split; [done|].
    right. exists rt. split_and!; try done. by left. }
  destruct r2 as [refreshRes|e2].
  2:{ eapply Hfail.
      by eapply (apiFetch_refresh_failed path options w ls rt res n1 Hls Hrt Hne H1 Hw). }
  destruct (ok refreshRes) eqn:Hok.
  2:{ eapply Hfail.
      by eapply (apiFetch_refresh_failed path options w ls rt res n1 Hls Hrt Hne H1 Hw). }
  destruct (json refreshRes) as [data|e3] eqn:Hj.
  2:{ eapply Hfail. by eapply apiFetch_refresh_unreadable. }
  destruct (truthy (get_opt data "access_token")) eqn:Htok.
  2:{ eapply Hfail.
      by eapply (apiFetch_refresh_no_token path options w ls rt res n1 Hls Hrt Hne H1 Hw). }
  destruct (fetch_step n2 (request_of path options
              (with_auth (Some (ToString (get_opt data "access_token")))
                 (with_auth (ls !! ACCESS_TOKEN_KEY) (initial_headers options)))))
    as [r3 n3] eqn:H3.
  pose proof (apiFetch_retries path options w ls rt res n1 Hls Hrt Hne H1 Hw
                refreshRes data n2 H2 Hok Hj Htok r3 n3 H3) as E.
  assert (issued (apiFetch path options w).2 =
          issued w ++ [(Some ls, first); (Some ls, refresh_request rt);
             (Some (store_tokens (get_opt data "access_token")
                      (get_opt data "refresh_token") ls),
              request_of path options
                (with_auth (Some (ToString (get_opt data "access_token")))
                   (with_auth (ls !! ACCESS_TOKEN_KEY) (initial_headers options))))])
    as E'.
  { rewrite E. by destruct r3. }
  rewrite E'. eexists. split; [done|]. right. exists rt. split_and!; try done.
  right.
  exists (Some (store_tokens (get_opt data "access_token")
                  (get_opt data "refresh_token") ls)),
         (Some (ToString (get_opt data "access_token"))).
  split; [|done]. symmetry. apply store_tokens_access.
Qed.

(** *** Calls that leave the rest of the storage alone *)

Lemma same_elsewhere_preorder : PreOrder (same_elsewhere (Net:=Net)).
Proof.
  split.
  - by intros w.
  - intros w1 w2 w3 [Ha Hb] [Hc Hd]. split; [by rewrite Ha|].
    intros k Hk1 Hk2. by rewrite Hd, Hb.
Qed.

Section Respects.
Context (R : World Net → World Net → Prop) `{!PreOrder R}.

Lemma respects_ret {A} (a : A) : respects R (ret a).
Proof. by intros w. Qed.

Lemma respects_throw {A} e : respects R (throw (A:=A) e).
Proof. by intros w. Qed.

Lemma respects_await {A} (r : result A) : respects R (await r).
Proof. by intros w. Qed.

Lemma respects_gets {A} (f : World Net → A) : respects R (gets f).
Proof. by intros w. Qed.

Lemma respects_bind {A B} (m : M (World Net) A) (k : A → M (World Net) B) :
  respects R m → (∀ a, respects R (k a)) → respects R (bind m k).
Proof.
  intros Hm Hk w. unfold bind. specialize (Hm w).
  destruct (m w) as [[a|e] w1]; simpl in *; [|done].
  etrans; [done | apply Hk].
Qed.

Lemma respects_try_catch {A} (m : M (World Net) A) h :
  respects R m → (∀ e, respects R (h e)) → respects R (try_catch m h).
Proof.
  intros Hm Hh w. unfold try_catch. specialize (Hm w).
  destruct (m w) as [[a|e] w1]; simpl in *; [done|].
  etrans; [done | apply Hh].
Qed.

Lemma respects_if {A} (b : bool) (m1 m2 : M (World Net) A) :
  respects R m1 → respects R m2 → respects R (if b then m1 else m2).
Proof. by destruct b. Qed.

End Respects.

Lemma elsewhere_fetch req : respects same_elsewhere (fetch req).
Proof. intros w. unfold fetch. by destruct (fetch_step _ _). Qed.

Lemma elsewhere_setItem key val :
  key = ACCESS_TOKEN_KEY ∨ key = REFRESH_TOKEN_KEY →
  respects (Net:=Net) same_elsewhere (setItem key val).
Proof.
  intros Hk w. unfold setItem, modify. simpl. split; simpl.
  - by destruct (localStorage w).
  - intros k Hk1 Hk2. destruct (localStorage w) as [ls|]; [|done]. simpl.
    apply lookup_insert_ne. by destruct Hk as [-> | ->].
Qed.

Lemma elsewhere_removeItem key :
  key = ACCESS_TOKEN_KEY ∨ key = REFRESH_TOKEN_KEY →
  respects (Net:=Net) same_elsewhere (removeItem key).
Proof.
  intros Hk w. unfold removeItem, modify. simpl. split; simpl.
  - by destruct (localStorage w).
  - intros k Hk1 Hk2. destruct (localStorage w) as [ls|]; [|done]. simpl.
    apply lookup_delete_ne. by destruct Hk as [-> | ->].
Qed.

Lemma elsewhere_finish res : respects (Net:=Net) same_elsewhere (finish res).
Proof. intros w. by rewrite finish_outcome. Qed.

Lemma elsewhere_apiFetch path options :
  respects same_elsewhere (apiFetch path options).
Proof.
  unfold apiFetch, refresh_and_retry, doRequest, attachAuthHeader, setAuthTokens,
    clearAuthTokens, getRefreshToken, getAccessToken, getItem.
  repeat first
    [ apply elsewhere_fetch | apply elsewhere_finish
    | apply elsewhere_setItem; by auto
    | apply elsewhere_removeItem; by auto
    | apply respects_bind; [apply same_elsewhere_preorder| |intros ?]
    | apply respects_try_catch; [apply same_elsewhere_preorder| |intros ?]
    | apply respects_if
    | apply respects_ret; apply same_elsewhere_preorder
    | apply respects_throw; apply same_elsewhere_preorder
    | apply respects_await; apply same_elsewhere_preorder
    | apply respects_gets; apply same_elsewhere_preorder
    | match goal with |- respects _ (let '(_, _) := ?p in _) => destruct p end ].

Qed.

(** Between the first request and the retried one only [Authorization]
    can differ. *)
Lemma with_auth_elsewhere tok h k :
  k ≠ "Authorization" → with_auth tok h !! k = h !! k.
Proof.
  intros Hk. unfold with_auth. destruct (truthy_opt tok).
  - by apply lookup_insert_ne.
  - by apply lookup_delete_ne.
Qed.

End ClientFacts.

(** ** Properties of the refreshing client *)
Section ClientProperties.
Import Js Eff Http Api Frames.
Context {Net : Type} `{Host Net} `{Runtime}.


(** X2: a call settles on its first request, leaving the storage as it
    was, whenever the refresh block is not reached: the network rejects the
    request, or the response is not a 401, or the path is the login or the
    refresh endpoint, or no refresh token is stored. The caller gets the
    rejection, or the outcome of that one response. *)
Theorem first_response_settles_the_call path options (w : World Net) r n :
  let first := request_of path options
                 (with_auth (localStorage w ≫= λ m, m !! ACCESS_TOKEN_KEY)
                    (initial_headers options)) in
  fetch_step (net w) first = (r, n) →
  (∀ res, r = Return res →
     status res ≠ 401%Z ∨ path = "/auth/login" ∨ path = "/auth/refresh" ∨
     truthy_opt (localStorage w ≫= λ m, m !! REFRESH_TOKEN_KEY) = false) →
  apiFetch path options w =
    (match r with Return res => outcome res | Throw e => Throw e end,
     {| localStorage := localStorage w; net := n;
        issued := issued w ++ [(localStorage w, first)] |}).
Proof.
  intros first H1 Hno. apply apiFetch_once; [done|].
  intros res Hr. destruct (Hno res Hr) as [Hs|[Hp|[Hp|Ht]]]; [left..|by right];
    apply wants_refresh_false; auto.
Qed.

(** X3: when the refresh succeeds and the retried request is answered, the
    caller gets the outcome of the retry's response. The storage then holds
    the new access token; it holds the new refresh token if the refresh
    response carried one and the old refresh token if not; every other key
    is as before. Three requests were issued, the last with the headers
    recomputed from the new access token. *)
Theorem refresh_rotates_tokens
    path options (w : World Net) ls rt res n1 refreshRes data n2 retryRes n3 :
  let h1 := with_auth (ls !! ACCESS_TOKEN_KEY) (initial_headers options) in
  let new_access := get_opt data "access_token" in
  let new_refresh := get_opt data "refresh_token" in
  let retry := request_of path options
                 (with_auth (Some (ToString new_access)) h1) in
  localStorage w = Some ls →
  ls !! REFRESH_TOKEN_KEY = Some rt →
  rt ≠ "" →
  fetch_step (net w) (request_of path options h1) = (Return res, n1) →
  wants_refresh path res = true →
  fetch_step n1 (refresh_request rt) = (Return refreshRes, n2) →
  ok refreshRes = true →
  json refreshRes = Return data →
  truthy new_access = true →
  fetch_step n2 retry = (Return retryRes, n3) →
  ∃ ls',
    apiFetch path options w =
      (outcome retryRes,
       {| localStorage := Some ls'; net := n3;
          issued := issued w ++ [(Some ls, request_of path options h1);
                                 (Some ls, refresh_request rt);
                                 (Some ls', retry)] |}) ∧
    ls' !! ACCESS_TOKEN_KEY = Some (ToString new_access) ∧
    ls' !! REFRESH_TOKEN_KEY
      = Some (if truthy new_refresh then ToString new_refresh else rt) ∧
    ∀ k, k ≠ ACCESS_TOKEN_KEY → k ≠ REFRESH_TOKEN_KEY → ls' !! k = ls !! k.
Proof.
  intros h1 new_access new_refresh retry Hls Hrt Hne H1 Hw H2 Hok Hj Ht H3.
  exists (store_tokens new_access new_refresh ls). split_and!.
  - exact (apiFetch_retries path options w ls rt res n1 Hls Hrt Hne H1 Hw
             refreshRes data n2 H2 Hok Hj Ht (Return retryRes) n3 H3).
  - apply store_tokens_access.
  - unfold store_tokens. destruct (truthy new_refresh).
    + apply lookup_insert_eq.
    + by rewrite lookup_insert_ne.
  - intros k Hk1 Hk2. unfold store_tokens. destruct (truthy new_refresh).
    + by rewrite !lookup_insert_ne.
    + by rewrite lookup_insert_ne.
Qed.

(** X4: whatever happens during a call, [apiFetch] writes the storage only
    under the keys [token] and [refresh_token]: every other key holds
    afterwards what it held before, and where there is no storage (no
    [window]) there is none afterwards. *)
Theorem apiFetch_touches_only_the_token_keys path options (w : World Net) :
  let w' := (apiFetch path options w).2 in
  (localStorage w = None ↔ localStorage w' = None) ∧
  ∀ k, k ≠ "token" → k ≠ "refresh_token" →
       (localStorage w' ≫= λ m, m !! k) = (localStorage w ≫= λ m, m !! k).
Proof. apply elsewhere_apiFetch. Qed.

(** X5: the refreshing client sends no [Authorization] header without a
    token. Of the requests a call issues, each one handed to [fetch] while
    the storage held no (non-empty) access token has no entry under
    [Authorization], whatever headers the caller passed in the options. *)
Theorem no_access_token_no_authorization path options (w : World Net) :
  ∃ new,
    issued (apiFetch path options w).2 = issued w ++ new ∧
    ∀ storage req,
      (storage, req) ∈ new →
      truthy_opt (storage ≫= λ m, m !! "token") = false →
      req_headers req !! "Authorization" = None.
Proof.
  destruct (guarded_apiFetch path options w) as (new & E & Hnew).
  exists new. split; [done|]. intros storage req Hin Ht.
  rewrite Forall_forall in Hnew. by apply (Hnew _ Hin).
Qed.

(** Every request a call sends to its own path is the first request again
    but for [Authorization]. *)
Lemma apiFetch_requests_to_the_path
    path options (w : World Net) :
  ∃ new,
    issued (apiFetch path options w).2 = issued w ++ new ∧
    ∀ storage req,
      (storage, req) ∈ new →
      url req = API_BASE_URL +:+ path →
      req_method req = method options ∧
      req_body req = body options ∧
      credentials req = "include" ∧
      (∀ k, k ≠ "Authorization" →
            req_headers req !! k = initial_headers options !! k) ∧
      req_headers req !! "Content-Type" =
        match body options with
        | FormData => default ∅ (headers options) !! "Content-Type"
        | _ => Some (or_string
                       (default "" (default ∅ (headers options) !! "Content-Type"))
                       "application/json")
        end.
Proof.
  destruct (apiFetch_issued path options w) as (rest & E & Hrest).
  eexists. split; [exact E|]. intros storage req Hin Hurl.
  assert (Hct : initial_headers options !! "Content-Type" =
                match body options with
                | FormData => default ∅ (headers options) !! "Content-Type"
                | _ => Some (or_string
                       (default "" (default ∅ (headers options) !! "Content-Type"))
                       "application/json")
                end).
  { unfold initial_headers. destruct (body options); [..|done];
      apply lookup_insert_eq. }
  assert (Hshape : ∃ tok, req = request_of path options
                     (with_auth tok (initial_headers options))).
  { destruct Hrest as [->|(rt & _ & _ & _ & Hp & [->|(s & tok & _ & ->)])].
    - apply list_elem_of_singleton in Hin as [= _ ->]. by eexists.
    - apply elem_of_cons in Hin as [[= _ ->]|Hin]; [by eexists|].
      apply list_elem_of_singleton in Hin as [= _ ->].
      simpl in Hurl. by apply String.app_inj in Hurl.
    - apply elem_of_cons in Hin as [[= _ ->]|Hin]; [by eexists|].
      apply elem_of_cons in Hin as [[= _ ->]|Hin].
      { simpl in Hurl. by apply String.app_inj in Hurl. }
      apply list_elem_of_singleton in Hin as [= _ ->]. simpl.
      exists tok. f_equal.
      apply map_eq. intros k. unfold with_auth at 1 3.
      destruct (truthy_opt tok).
      + destruct (decide (k = "Authorization")) as [->|Hk].
        * by rewrite !lookup_insert_eq.
        * rewrite !lookup_insert_ne by done. by apply with_auth_elsewhere.
      + destruct (decide (k = "Authorization")) as [->|Hk].
        * by rewrite !lookup_delete_eq.
        * rewrite !lookup_delete_ne by done. by apply with_auth_elsewhere. }
  destruct Hshape as (tok & ->). simpl. split_and!; try done.
  - intros k Hk. by apply with_auth_elsewhere.
  - by rewrite with_auth_elsewhere.
Qed.

(** X6: the retried request is the first request again but for
    [Authorization]. Every request a call sends to its own path has the
    method, body and credentials mode of the first, and the same header
    under every key other than [Authorization]; so [Content-Type] is the
    caller's value, or [application/json] when the caller gave none or an
    empty one, and is left to the caller alone when the body is form
    data. In particular every request [uploadImageApi] sends to
    [/auth/upload], the retry included, carries the form data and no
    [Content-Type] of the client's. *)
Theorem requests_to_the_path_differ_only_in_authorization
    path options (w : World Net) :
  (∃ new,
     issued (apiFetch path options w).2 = issued w ++ new ∧
     ∀ storage req,
       (storage, req) ∈ new →
       url req = API_BASE_URL +:+ path →
       req_method req = method options ∧
       req_body req = body options ∧
       credentials req = "include" ∧
       (∀ k, k ≠ "Authorization" →
             req_headers req !! k = initial_headers options !! k) ∧
       req_headers req !! "Content-Type" =
         match body options with
         | FormData => default ∅ (headers options) !! "Content-Type"
         | _ => Some (or_string
                        (default "" (default ∅ (headers options) !! "Content-Type"))
                        "application/json")
         end) ∧
  (∃ new,
     issued (Endpoints.uploadImageApi w).2 = issued w ++ new ∧
     ∀ storage req,
       (storage, req) ∈ new →
       url req = API_BASE_URL +:+ "/auth/upload" →
       req_method req = Some "POST" ∧
       req_body req = FormData ∧
       req_headers req !! "Content-Type" = None).
Proof.
  split; [apply apiFetch_requests_to_the_path|].
  destruct (apiFetch_requests_to_the_path "/auth/upload"
              {| method := Some "POST"; body := FormData; headers := None |} w)
    as (new & E & Hnew).
  exists new. split; [exact E|]. intros storage req Hin Hurl.
  destruct (Hnew storage req Hin Hurl) as (Hm & Hb & _ & _ & Hct).
  by rewrite Hm, Hb, Hct.
Qed.

End ClientProperties.

(** ** The endpoint wrappers *)
Section EndpointFacts.
Import Js Eff Http Api Endpoints.

Lemma delimiter_free_app a b :
  delimiter_free (a +:+ b) = delimiter_free a && delimiter_free b.
Proof.
  induction a as [|c a IH]; [done|].
  change (String c a +:+ b) with (String c (a +:+ b)). simpl.
  by rewrite IH, andb_assoc.
Qed.

Lemma kept_is_no_delimiter c :
  is_alnum c || one_of "-_.!~*'()" c = true → delimiter c = false.
Proof. destruct c as [[] [] [] [] [] [] [] []]; by vm_compute. Qed.

Lemma form_kept_is_no_delimiter c :
  is_alnum c || one_of "*-._" c = true → delimiter c = false.
Proof. destruct c as [[] [] [] [] [] [] [] []]; by vm_compute. Qed.

Lemma utf8_delimiter_free c : delimiter_free (utf8 c) = true.
Proof. destruct c as [[] [] [] [] [] [] [] []]; by vm_compute. Qed.

Lemma encodeURIComponent_delimiter_free s :
  delimiter_free (encodeURIComponent s) = true.
Proof.
  induction s as [|c s IH]; [done|]. simpl.
  rewrite delimiter_free_app, IH, andb_true_r.
  destruct (is_alnum c || one_of "-_.!~*'()" c) eqn:E.
  - simpl. by rewrite (kept_is_no_delimiter _ E).
  - apply utf8_delimiter_free.
Qed.

Lemma form_encode_delimiter_free s : delimiter_free (form_encode s) = true.
Proof.
  induction s as [|c s IH]; [done|]. simpl.
  rewrite delimiter_free_app, IH, andb_true_r.
  destruct (is_alnum c || one_of "*-._" c) eqn:E.
  - simpl. by rewrite (form_kept_is_no_delimiter _ E).
  - destruct (Ascii.eqb c " "); [done | apply utf8_delimiter_free].
Qed.

Lemma utf8_truthy c : truthy_string (utf8 c) = true.
Proof.
  unfold utf8. destruct (Nat.ltb _ _); [done|].
  by change (percent ?a +:+ ?b) with (String "%"%char
    (String (hex_digit (a / 16)) (String (hex_digit (a mod 16)) b))).
Qed.

Lemma encodeURIComponent_truthy s :
  truthy_string s = true → truthy_string (encodeURIComponent s) = true.
Proof.
  destruct s as [|c s]; [done|]. intros _. simpl.
  destruct (is_alnum c || one_of "-_.!~*'()" c); [done|].
  pose proof (utf8_truthy c) as Hu. by destruct (utf8 c).
Qed.

Lemma form_encode_truthy s :
  truthy_string s = true → truthy_string (form_encode s) = true.
Proof.
  destruct s as [|c s]; [done|]. intros _. simpl.
  destruct (is_alnum c || one_of "*-._" c); [done|].
  destruct (Ascii.eqb c " "); [done|].
  pose proof (utf8_truthy c) as Hu. by destruct (utf8 c).
Qed.

End EndpointFacts.

Section EndpointProperties.
Import Js Eff Http Api Endpoints.
Context {Net : Type} `{Host Net} `{Runtime}.

(** X7: [logoutApi] settles on the token to revoke with [??]: an argument
    that is a string wins over the stored refresh token even when it is the
    empty string, and the stored token is used only when the argument is
    [null] or [undefined]. The first request is a POST to [/auth/logout]
    whose body is [{ refresh_token }] for a non-empty token; with an empty
    or absent token the request has no body at all. *)
Theorem logoutApi_sends_the_settled_token refreshToken (w : World Net) :
  let stored := localStorage w ≫= λ m, m !! "refresh_token" in
  let token := match refreshToken with Some t => Some t | None => stored end in
  ∃ req rest,
    issued (logoutApi refreshToken w).2 = issued w ++ (localStorage w, req) :: rest ∧
    url req = API_BASE_URL +:+ "/auth/logout" ∧
    req_method req = Some "POST" ∧
    req_body req =
      match token with
      | Some (String c t) =>
          TextBody (JSON_stringify (VObj [("refresh_token", VStr (String c t))]))
      | _ => NoBody
      end.
Proof.
  intros stored token. unfold logoutApi, bind.
  assert (E : (match refreshToken with
               | Some t => ret (Some t)
               | None => getRefreshToken
               end) w = (Return token, w)).
  { unfold token, stored. by destruct refreshToken. }
  rewrite E.
  destruct (apiFetch_issued "/auth/logout"
              {| method := Some "POST"; body := logout_body token; headers := None |} w)
    as (rest & Hi & _).
  eexists _, rest. split; [exact Hi|]. simpl. split_and!; try done.
  unfold logout_body. by destruct token as [[|c t]|].
Qed.

(** X8: the client filter of [getLocationsApi] and [getGamingCentersApi]
    cannot break out of its query parameter. With an absent or empty client
    identifier the path is the bare [/locations] or [/gaming]; otherwise it
    is followed by [?clientId=] and a non-empty encoded identifier in which
    none of the characters [& = ? # /] and no space occurs, whatever the
    identifier contains. *)
Theorem client_filter_is_one_parameter clientId (w : World Net) :
  ∃ q r1 rest1 r2 rest2,
    issued (getLocationsApi clientId w).2 = issued w ++ (localStorage w, r1) :: rest1 ∧
    url r1 = API_BASE_URL +:+ "/locations" +:+ q ∧
    issued (getGamingCentersApi clientId w).2 = issued w ++ (localStorage w, r2) :: rest2 ∧
    url r2 = API_BASE_URL +:+ "/gaming" +:+ q ∧
    match clientId with
    | Some (String c s) =>
        ∃ e, q = "?clientId=" +:+ e ∧ e ≠ "" ∧ delimiter_free e = true
    | _ => q = ""
    end.
Proof.
  destruct (apiFetch_issued ("/locations" +:+ client_query clientId) defaults w)
    as (rest1 & E1 & _).
  destruct (apiFetch_issued ("/gaming" +:+ client_query clientId) defaults w)
    as (rest2 & E2 & _).
  exists (client_query clientId). eexists _, rest1, _, rest2.
  split; [exact E1|]. split; [done|]. split; [exact E2|]. split; [done|].
  destruct clientId as [[|c s]|]; [done| |done].
  exists (encodeURIComponent (String c s)). split; [done|]. split.
  - pose proof (encodeURIComponent_truthy (String c s) eq_refl) as Ht.
    intros E. by rewrite E in Ht.
  - apply encodeURIComponent_delimiter_free.
Qed.

End EndpointProperties.

Section QueryProperties.
Import Js Eff Http Api Endpoints.
Context {Net : Type} `{Host Net} `{Runtime}.

Lemma join_truthy sep s l : truthy_string s = true → truthy_string (join sep (s :: l)) = true.
Proof. destruct s; [done|]. intros _. by destruct l. Qed.

(** X9: [getFacilitiesApi] lists exactly the filters it was given. A filter
    that is absent or the empty string is left out of the query; the others
    appear as [name=value] in the order search, type, location_id, joined
    by [&], each value encoded so that it holds none of [& = ? # /] and no
    space; with no filter the path is the bare [/facilities], without a
    question mark. *)
Theorem facilities_path_lists_the_filters_given (params : GetFacilitiesParams) :
  let given name value :=
    match value with
    | Some (String c s) => [(name, form_encode (String c s))]
    | _ => []
    end in
  let pairs := given "search" (search params) ++ given "type" (type params)
               ++ given "location_id" (location_id params) in
  facilities_path params =
    match pairs with
    | [] => "/facilities"
    | _ => "/facilities?" +:+ join "&" (map (λ p, p.1 +:+ "=" +:+ p.2) pairs)
    end ∧
  Forall (λ p, p.2 ≠ "" ∧ delimiter_free p.2 = true) pairs ∧
  ∀ w : World Net, ∃ req rest,
    issued (getFacilitiesApi params w).2 = issued w ++ (localStorage w, req) :: rest ∧
    url req = API_BASE_URL +:+ facilities_path params.
Proof.
  intros given pairs. split; [|split].
  3:{ intros w. destruct (apiFetch_issued (facilities_path params) defaults w)
        as (rest & E & _). by eexists _, rest. }
  - unfold facilities_path, pairs, given.
    destruct params as [[[|c1 s1]|] [[|c2 s2]|] [[|c3 s3]|]]; simpl; try done.
    all: unfold URLSearchParams_toString; simpl map.
    all: change (form_encode "search") with "search";
         change (form_encode "type") with "type";
         change (form_encode "location_id") with "location_id".
    all: by rewrite join_truthy.
  - unfold pairs, given. rewrite !Forall_app.
    split_and!; match goal with |- context [match ?o with _ => _ end] =>
                  destruct o as [[|c s]|]; constructor; [|done] end.
    all: split; [|apply form_encode_delimiter_free].
    all: intros E; pose proof (form_encode_truthy (String c s) eq_refl) as Ht;
         simpl in E, Ht; by rewrite E in Ht.
Qed.

End QueryProperties.

Section OlderClientProperties.
Import Js Eff Http.
Context {Net : Type} `{Host Net} `{Runtime}.

(** X10: the client of [src/lib/api.ts] never refreshes and never writes the
    storage. Every call issues exactly one request, whatever the response:
    a 401 with a refresh token in the storage is thrown to the caller like
    any other failed response, and both tokens stay where they were. *)
Theorem older_client_issues_one_request path options (w : World Net) :
  ∃ req,
    let rn := fetch_step (net w) req in
    ApiV0.apiFetch path options w =
      (match rn.1 with Return res => outcome res | Throw e => Throw e end,
       {| localStorage := localStorage w; net := rn.2;
          issued := issued w ++ [(localStorage w, req)] |}) ∧
    url req = API_BASE_URL +:+ path ∧
    req_method req = method options ∧
    req_body req = body options.
Proof.
  exists (request_of path options
            (if truthy_opt (localStorage w ≫= λ m, m !! "token")
             then <["Authorization" :=
                     "Bearer " +:+ default "" (localStorage w ≫= λ m, m !! "token")]>
                    (initial_headers options)
             else initial_headers options)).
  split; [|done].
  unfold ApiV0.apiFetch, ApiV0.getToken, getItem, gets, bind, fetch. simpl.
  destruct (fetch_step _ _) as [[res|e] n]; simpl; [|done].
  apply finish_outcome.
Qed.

End OlderClientProperties.

Section ClientPropertyWitnesses.
Import Js Eff Http Api.
Import (hints) Script.

(** A login with a wrong password, answered 401 while tokens of an earlier
    session are still stored: no refresh is tried. *)
Lemma first_response_witness :
  let w := Script.world Script.tokens [Return Script.unauthorized] in
  let options := Endpoints.post
                   (JSON_stringify (VObj [("email", VStr "jo@acme.io");
                                          ("password", VStr "wrong")])) in
  let first := request_of "/auth/login" options
                 (with_auth (localStorage w ≫= λ m, m !! ACCESS_TOKEN_KEY)
                    (initial_headers options)) in
  Endpoints.loginApi "jo@acme.io" "wrong" w =
    (outcome Script.unauthorized,
     {| localStorage := localStorage w; net := [];
        issued := issued w ++ [(localStorage w, first)] |}).
Proof.
  apply (first_response_settles_the_call "/auth/login"
           (Endpoints.post
              (JSON_stringify (VObj [("email", VStr "jo@acme.io");
                                     ("password", VStr "wrong")])))
           (Script.world Script.tokens [Return Script.unauthorized])
           (Return Script.unauthorized) []); [done|].
  intros res _. right. by left.
Defined.

Lemma refresh_rotation_witness :
  let w := Script.world Script.tokens
             [Return Script.unauthorized; Return (Script.refreshed "new");
              Return (Script.success (VStr "hello"))] in
  let h1 := with_auth (Script.tokens !! ACCESS_TOKEN_KEY)
              (initial_headers Script.bare) in
  let retry := request_of "/users" Script.bare (with_auth (Some "new") h1) in
  ∃ ls',
    apiFetch "/users" Script.bare w =
      (outcome (Script.success (VStr "hello")),
       {| localStorage := Some ls'; net := [];
          issued := issued w ++ [(Some Script.tokens, request_of "/users" Script.bare h1);
                                 (Some Script.tokens, refresh_request "r1");
                                 (Some ls', retry)] |}) ∧
    ls' !! ACCESS_TOKEN_KEY = Some "new" ∧
    ls' !! REFRESH_TOKEN_KEY = Some "r1" ∧
    ∀ k, k ≠ ACCESS_TOKEN_KEY → k ≠ REFRESH_TOKEN_KEY → ls' !! k = Script.tokens !! k.
Proof.
  apply (refresh_rotates_tokens "/users" Script.bare
           (Script.world Script.tokens
              [Return Script.unauthorized; Return (Script.refreshed "new");
               Return (Script.success (VStr "hello"))])
           Script.tokens "r1" Script.unauthorized
           [Return (Script.refreshed "new"); Return (Script.success (VStr "hello"))]
           (Script.refreshed "new") (VObj [("access_token", VStr "new")])
           [Return (Script.success (VStr "hello"))]
           (Script.success (VStr "hello")) []);
    done.
Defined.

End ClientPropertyWitnesses.

#[local] Set Warnings "-clear-no-such-hyp".

(** ** The wizards: what the gates accept *)
Section GateFacts.
Import Js Eff Wizard.

Lemma has_keys_false (e : gmap string (option string)) : has_keys e = false ↔ e = ∅.
Proof.
  unfold has_keys. rewrite Nat.ltb_ge, <- map_size_empty_iff. lia.
Qed.

Lemma flag_empty (b : bool) k m (e : gmap string (option string)) :
  flag b k m e = ∅ ↔ b = false ∧ e = ∅.
Proof.
  unfold flag. destruct b.
  - split; [intros E; by apply insert_non_empty in E | by intros [? _]].
  - naive_solver.
Qed.

Lemma required_empty (b1 b2 : bool) k m1 m2 (e : gmap string (option string)) :
  (if b1 then <[k := Some m1]> e else flag b2 k m2 e) = ∅
  ↔ b1 = false ∧ b2 = false ∧ e = ∅.
Proof.
  destruct b1.
  - split; [intros E; by apply insert_non_empty in E | by intros [? _]].
  - rewrite flag_empty. naive_solver.
Qed.

Lemma optional_empty (b1 b2 : bool) k m (e : gmap string (option string)) :
  (if b1 then flag b2 k m e else e) = ∅ ↔ b1 && b2 = false ∧ e = ∅.
Proof. destruct b1; [apply flag_empty | naive_solver]. Qed.

Lemma not_trimmed_blank s : negb (truthy_string (trim s)) = blank s.
Proof. by rewrite trim_truthy, negb_involutive. Qed.

Lemma check_required_empty loc i e :
  check_required loc i e = ∅ ↔ filled loc ∧ e = ∅.
Proof.
  unfold check_required, filled.
  rewrite !flag_empty, not_trimmed_blank, !missing_blank. naive_solver.
Qed.

Lemma check_location_empty loc i e :
  Setup.check_location loc i e = ∅ ↔ (filled loc ∧ in_range loc) ∧ e = ∅.
Proof.
  unfold Setup.check_location, in_range.
  rewrite !flag_empty, check_required_empty. naive_solver.
Qed.

Lemma forEach_empty (check : LocationPayload → nat → _ → _) (P : LocationPayload → Prop) l :
  (∀ loc i (e : gmap string (option string)), check loc i e = ∅ ↔ P loc ∧ e = ∅) →
  ∀ i e, forEach check i l e = ∅ ↔ Forall P l ∧ e = ∅.
Proof.
  intros Hc. induction l as [|loc l IH]; intros i e; simpl.
  - split; [by intros -> | by intros [_ ?]].
  - rewrite IH, Hc, Forall_cons. naive_solver.
Qed.

Lemma step2_verdict_true rows e :
  (step2_verdict rows e).1 = true ↔ e = ∅ ∧ rows ≠ 0.
Proof.
  unfold step2_verdict. rewrite <- has_keys_false.
  destruct (has_keys e), (Nat.eqb_spec rows 0); simpl; naive_solver.
Qed.

Lemma Setup_validateStep2_fst c s :
  (Setup.validateStep2 c s).1
  = (step2_verdict (length (Setup.locations c))
       (forEach Setup.check_location 0 (Setup.locations c) ∅)).1.
Proof. unfold Setup.validateStep2. by destruct (step2_verdict _ _). Qed.

Lemma SetupPlain_validateStep2_fst c s :
  (SetupPlain.validateStep2 c s).1
  = (step2_verdict (length (SetupPlain.locations c))
       (forEach check_required 0 (SetupPlain.locations c) ∅)).1.
Proof. unfold SetupPlain.validateStep2. by destruct (step2_verdict _ _). Qed.

Lemma Onboarding_validateStep2_fst c s :
  (Onboarding.validateStep2 c s).1
  = (step2_verdict (length (Onboarding.locations c))
       (forEach check_required 0 (Onboarding.locations c) ∅)).1.
Proof. unfold Onboarding.validateStep2. by destruct (step2_verdict _ _). Qed.

Lemma length_ne_0 {A} (l : list A) : length l ≠ 0 ↔ l ≠ [].
Proof. by destruct l. Qed.

(** A string of the [local@domain.tld] shape is not blank. *)
Lemma email_shape_not_blank s : Regex.email_shape s → blank s = false.
Proof.
  intros (l & d & t & E & Hl & _ & _ & Fl & _).
  destruct l as [|a l]; [done|]. apply Forall_cons in Fl as [Ha _].
  destruct s as [|b s]; [done|]. simpl in E. injection E as -> _.
  simpl. unfold Regex.not_space_or_at in Ha.
  apply negb_true_iff, orb_false_iff in Ha as [-> _]. done.
Qed.

End GateFacts.

Section GateProperties.
Import Js Eff Wizard.
Context `{Runtime}.

(** X11: the step-2 gates accept exactly the lists they are meant to. On
    each page [validateStep2] returns true if and only if there is at
    least one row and every row has a name, a city and a country that are
    not blank; on the edit-capable page every row must also have its
    coordinates, where set, inside [-90, 90] and [-180, 180]. Nothing else
    about a row (address, phone, state, identifier) matters to the gate. *)
Theorem step2_gates_accept_exactly :
  (∀ c s, (Setup.validateStep2 c s).1 = true ↔
          Setup.locations c ≠ [] ∧
          Forall (λ loc, filled loc ∧ in_range loc) (Setup.locations c)) ∧
  (∀ c s, (SetupPlain.validateStep2 c s).1 = true ↔
          SetupPlain.locations c ≠ [] ∧ Forall filled (SetupPlain.locations c)) ∧
  (∀ c s, (Onboarding.validateStep2 c s).1 = true ↔
          Onboarding.locations c ≠ [] ∧ Forall filled (Onboarding.locations c)).
Proof.
  split_and!; intros c s.
  - rewrite Setup_validateStep2_fst, step2_verdict_true, length_ne_0.
    rewrite (forEach_empty _ _ _ check_location_empty). naive_solver.
  - rewrite SetupPlain_validateStep2_fst, step2_verdict_true, length_ne_0.
    rewrite (forEach_empty _ _ _ check_required_empty). naive_solver.
  - rewrite Onboarding_validateStep2_fst, step2_verdict_true, length_ne_0.
    rewrite (forEach_empty _ _ _ check_required_empty). naive_solver.
Qed.

(** The conditions the step-1 gates put on a coordinate typed into the
    business form. *)
Lemma coordinate_text_ok (s : string) b :
  truthy_string s && truthy_string (trim s) && b = false ↔
  blank s = true ∨ b = false.
Proof.
  rewrite trim_truthy. destruct s as [|a s]; [naive_solver|].
  simpl truthy_string. destruct (blank (String a s)), b; naive_solver.
Qed.

Lemma Setup_step1_fields_empty c :
  Setup.step1_fields c = ∅ ↔
  let form := Setup.businessForm c in
  blank (form Setup.companyName) = false ∧
  blank (form Setup.contactName) = false ∧
  Regex.email_shape (form Setup.email) ∧
  blank (form Setup.phone) = false ∧
  blank (form Setup.city) = false ∧
  blank (form Setup.country) = false ∧
  (blank (form Setup.latitude) = true ∨
   let lat := StringToNumber (form Setup.latitude) in
   is_nan lat || PrimFloat.ltb lat (-90)%float || PrimFloat.ltb 90%float lat = false) ∧
  (blank (form Setup.longitude) = true ∨
   let lng := StringToNumber (form Setup.longitude) in
   is_nan lng || PrimFloat.ltb lng (-180)%float || PrimFloat.ltb 180%float lng = false) ∧
  (Setup.isEditing c = true ∨
   6 ≤ String.length (trim (form Setup.adminPassword))).
Proof.
  unfold Setup.step1_fields. cbv zeta.
  assert (Hpw : ∀ e : gmap string (option string),
    (if negb (Setup.isEditing c) then
       if negb (truthy_string (trim (Setup.businessForm c Setup.adminPassword)))
       then <["adminPassword" := Some "Admin password is required"]> e
       else flag (Nat.ltb (String.length (trim (Setup.businessForm c Setup.adminPassword))) 6)
              "adminPassword" "Password must be at least 6 characters" e
     else e) = ∅ ↔
    (Setup.isEditing c = true ∨
     6 ≤ String.length (trim (Setup.businessForm c Setup.adminPassword))) ∧ e = ∅).
  { intros e. destruct (Setup.isEditing c); simpl; [naive_solver|].
    rewrite required_empty, Nat.ltb_ge.
    destruct (trim _) as [|a t]; simpl; [|naive_solver lia].
    split; [by intros [? _] | intros [[?|?] _]; [done | lia]]. }
  rewrite Hpw.
  rewrite !optional_empty, !flag_empty, required_empty, !flag_empty.
  rewrite !not_trimmed_blank, !coordinate_text_ok.
  rewrite negb_false_iff, test_EMAIL.
  split.
  - intros (Hp & Hlng & Hlat & Hco & Hci & Hph & Hem & Hsh & Hcn & Hcm & _).
    done.
  - intros (Hcm & Hcn & Hsh & Hph & Hci & Hco & Hlat & Hlng & Hp).
    split_and!; try done. by apply email_shape_not_blank.
Qed.

Lemma SetupPlain_step1_fields_empty c :
  SetupPlain.step1_fields c = ∅ ↔
  let form := SetupPlain.businessForm c in
  blank (form SetupPlain.companyName) = false ∧
  blank (form SetupPlain.contactName) = false ∧
  Regex.email_shape (form SetupPlain.email) ∧
  blank (form SetupPlain.phone) = false ∧
  blank (form SetupPlain.city) = false ∧
  blank (form SetupPlain.country) = false.
Proof.
  unfold SetupPlain.step1_fields. cbv zeta.
  rewrite !flag_empty, required_empty, !flag_empty.
  rewrite !not_trimmed_blank, negb_false_iff, test_EMAIL.
  split.
  - intros (Hco & Hci & Hph & Hem & Hsh & Hcn & Hcm & _). done.
  - intros (Hcm & Hcn & Hsh & Hph & Hci & Hco).
    split_and!; try done. by apply email_shape_not_blank.
Qed.

Lemma Onboarding_step1_fields_empty c :
  Onboarding.step1_fields c = ∅ ↔
  let form := Onboarding.businessForm c in
  blank (form Onboarding.companyName) = false ∧
  blank (form Onboarding.contactName) = false ∧
  blank (form Onboarding.email) = false ∧
  blank (form Onboarding.phone) = false ∧
  blank (form Onboarding.city) = false ∧
  blank (form Onboarding.country) = false ∧
  6 ≤ String.length (trim (form Onboarding.adminPassword)).
Proof.
  unfold Onboarding.step1_fields. cbv zeta.
  rewrite required_empty, !flag_empty, !not_trimmed_blank, Nat.ltb_ge.
  destruct (trim (Onboarding.businessForm c Onboarding.adminPassword)) as [|a t] eqn:E.
  - rewrite <- (negb_involutive (blank _)), <- trim_truthy, E. simpl.
    split; [by intros [? _] | intros (_ & _ & _ & _ & _ & _ & ?); lia].
  - assert (blank (Onboarding.businessForm c Onboarding.adminPassword) = false) as ->.
    { rewrite <- (negb_involutive (blank _)), <- trim_truthy, E. done. }
    naive_solver.
Qed.

(** X12: the step-1 gates accept exactly the forms they are meant to. On
    the edit-capable page [validateStep1] returns true if and only if
    company, contact, phone, city and country are not blank, the email has
    the shape [local@domain.tld], a latitude or longitude that is not blank
    converts to a number inside its range, and, unless the page is editing
    an existing business, the trimmed admin password has at least six
    characters. The plain page asks the same without coordinates and
    password; the three-step page asks for a non-blank email only, and
    always for the password. *)
Theorem step1_gates_accept_exactly :
  (∀ c s, (Setup.validateStep1 c s).1 = true ↔
     let form := Setup.businessForm c in
     blank (form Setup.companyName) = false ∧
     blank (form Setup.contactName) = false ∧
     Regex.email_shape (form Setup.email) ∧
     blank (form Setup.phone) = false ∧
     blank (form Setup.city) = false ∧
     blank (form Setup.country) = false ∧
     (blank (form Setup.latitude) = true ∨
      let lat := StringToNumber (form Setup.latitude) in
      is_nan lat || PrimFloat.ltb lat (-90)%float || PrimFloat.ltb 90%float lat
      = false) ∧
     (blank (form Setup.longitude) = true ∨
      let lng := StringToNumber (form Setup.longitude) in
      is_nan lng || PrimFloat.ltb lng (-180)%float || PrimFloat.ltb 180%float lng
      = false) ∧
     (Setup.isEditing c = true ∨
      6 ≤ String.length (trim (form Setup.adminPassword)))) ∧
  (∀ c s, (SetupPlain.validateStep1 c s).1 = true ↔
     let form := SetupPlain.businessForm c in
     blank (form SetupPlain.companyName) = false ∧
     blank (form SetupPlain.contactName) = false ∧
     Regex.email_shape (form SetupPlain.email) ∧
     blank (form SetupPlain.phone) = false ∧
     blank (form SetupPlain.city) = false ∧
     blank (form SetupPlain.country) = false) ∧
  (∀ c s, (Onboarding.validateStep1 c s).1 = true ↔
     let form := Onboarding.businessForm c in
     blank (form Onboarding.companyName) = false ∧
     blank (form Onboarding.contactName) = false ∧
     blank (form Onboarding.email) = false ∧
     blank (form Onboarding.phone) = false ∧
     blank (form Onboarding.city) = false ∧
     blank (form Onboarding.country) = false ∧
     6 ≤ String.length (trim (form Onboarding.adminPassword))).
Proof.
  split_and!; intros c s.
  - rewrite <- Setup_step1_fields_empty, <- has_keys_false.
    unfold Setup.validateStep1. by destruct (has_keys _).
  - rewrite <- SetupPlain_step1_fields_empty, <- has_keys_false.
    unfold SetupPlain.validateStep1. by destruct (has_keys _).
  - rewrite <- Onboarding_step1_fields_empty, <- has_keys_false.
    unfold Onboarding.validateStep1. by destruct (has_keys _).
Qed.

End GateProperties.

(** ** The wizards: what a submission leaves behind *)
Section SubmitFacts.
Import Js Eff Wizard.
Context {Net : Type} `{Backend Net} `{Runtime}.

(** What the page state keeps through a step-2 submission, whatever the
    backend answers. *)
Lemma Setup_handleSubmitStep2_ui c (p : Page Setup.State Net) :
  let p' := (Setup.handleSubmitStep2 c p).2 in
  Setup.locations (ui p') = Setup.locations (ui p) ∧
  Setup.clientId (ui p') = Setup.clientId (ui p) ∧
  Setup.businessForm (ui p') = Setup.businessForm (ui p) ∧
  (Setup.isSubmitting (ui p) = false → Setup.isSubmitting (ui p') = false).
Proof.
  unfold Setup.handleSubmitStep2.
  destruct (truthy (Setup.clientId c)); simpl.
  2:{ destruct p as [[] ? ? ?]. done. }
  unfold bind, run_ui, Setup.validateStep2.
  destruct (step2_verdict _ _) as [[|] errors]; simpl.
  2:{ destruct p as [[] ? ? ?]. done. }
  unfold bind, set_state, modify, try_finally, try_catch, router_push. simpl.
  match goal with |- context [for_of _ _ ?q] =>
    pose proof (Setup_loop c (Setup.locations c) q) as (Hu & _);
    destruct (for_of _ _ q) as [[[]|e] q']
  end; simpl in *; rewrite Hu; by destruct p as [[] ? ? ?].
Qed.

Lemma SetupPlain_handleSubmitStep2_ui c (p : Page SetupPlain.State Net) :
  let p' := (SetupPlain.handleSubmitStep2 c p).2 in
  SetupPlain.locations (ui p') = SetupPlain.locations (ui p) ∧
  SetupPlain.clientId (ui p') = SetupPlain.clientId (ui p) ∧
  SetupPlain.businessForm (ui p') = SetupPlain.businessForm (ui p) ∧
  (SetupPlain.isSubmitting (ui p) = false → SetupPlain.isSubmitting (ui p') = false).
Proof.
  unfold SetupPlain.handleSubmitStep2.
  destruct (truthy (SetupPlain.clientId c)); simpl.
  2:{ destruct p as [[] ? ? ?]. done. }
  unfold bind, run_ui, SetupPlain.validateStep2.
  destruct (step2_verdict _ _) as [[|] errors]; simpl.
  2:{ destruct p as [[] ? ? ?]. done. }
  unfold bind, set_state, modify, try_finally, try_catch, router_push. simpl.
  match goal with |- context [for_of _ _ ?q] =>
    pose proof (SetupPlain_loop c (SetupPlain.locations c) q) as (Hu & _);
    destruct (for_of _ _ q) as [[[]|e] q']
  end; simpl in *; rewrite Hu; by destruct p as [[] ? ? ?].
Qed.

Lemma Onboarding_handleSubmitStep2_ui c (p : Page Onboarding.State Net) :
  let p' := (Onboarding.handleSubmitStep2 c p).2 in
  Onboarding.locations (ui p') = Onboarding.locations (ui p) ∧
  Onboarding.clientId (ui p') = Onboarding.clientId (ui p) ∧
  Onboarding.businessForm (ui p') = Onboarding.businessForm (ui p) ∧
  (Onboarding.isSubmitting (ui p) = false → Onboarding.isSubmitting (ui p') = false).
Proof.
  unfold Onboarding.handleSubmitStep2.
  destruct (truthy (Onboarding.clientId c)); simpl.
  2:{ destruct p as [[] ? ? ?]. done. }
  unfold bind, run_ui, Onboarding.validateStep2.
  destruct (step2_verdict _ _) as [[|] errors]; simpl.
  2:{ destruct p as [[] ? ? ?]. done. }
  unfold bind, set_state, modify, try_finally, try_catch. simpl.
  match goal with |- context [Onboarding.create_locations c ?l ?a ?q] =>
    destruct (Onboarding_loop c l a q) as (Hu & _);
    destruct (Onboarding.create_locations c l a q) as [[created|e] q']
  end; simpl in *; [destruct created; simpl|]; rewrite Hu;
    by destruct p as [[] ? ? ?].
Qed.

(** A form the gate rejects: the handler does what the gate did and
    nothing more. *)
Lemma Setup_handleSubmitStep1_gate q c (p : Page Setup.State Net) :
  (Setup.validateStep1 c (ui p)).1 = false →
  Setup.handleSubmitStep1 q c p
  = (Return tt, on_ui (λ s, (Setup.validateStep1 c s).2) p).
Proof.
  intros Hv. unfold Setup.handleSubmitStep1, bind, run_ui, on_ui.
  destruct (Setup.validateStep1 c (ui p)) as [valid s1]; simpl in *. by subst.
Qed.

Lemma SetupPlain_handleSubmitStep1_gate c (p : Page SetupPlain.State Net) :
  (SetupPlain.validateStep1 c (ui p)).1 = false →
  SetupPlain.handleSubmitStep1 c p
  = (Return tt, on_ui (λ s, (SetupPlain.validateStep1 c s).2) p).
Proof.
  intros Hv. unfold SetupPlain.handleSubmitStep1, bind, run_ui, on_ui.
  destruct (SetupPlain.validateStep1 c (ui p)) as [valid s1]; simpl in *. by subst.
Qed.

Lemma Onboarding_handleSubmitStep1_gate c (p : Page Onboarding.State Net) :
  (Onboarding.validateStep1 c (ui p)).1 = false →
  Onboarding.handleSubmitStep1 c p
  = (Return tt, on_ui (λ s, (Onboarding.validateStep1 c s).2) p).
Proof.
  intros Hv. unfold Onboarding.handleSubmitStep1, bind, run_ui, on_ui.
  destruct (Onboarding.validateStep1 c (ui p)) as [valid s1]; simpl in *. by subst.
Qed.

Lemma Setup_handleSubmitStep2_gate c (p : Page Setup.State Net) :
  truthy (Setup.clientId c) = true →
  (Setup.validateStep2 c (ui p)).1 = false →
  Setup.handleSubmitStep2 c p
  = (Return tt, on_ui (λ s, (Setup.validateStep2 c s).2) p).
Proof.
  intros Hc Hv. unfold Setup.handleSubmitStep2, bind, run_ui, on_ui.
  rewrite Hc. simpl.
  destruct (Setup.validateStep2 c (ui p)) as [valid s1]; simpl in *. by subst.
Qed.

Lemma SetupPlain_handleSubmitStep2_gate c (p : Page SetupPlain.State Net) :
  truthy (SetupPlain.clientId c) = true →
  (SetupPlain.validateStep2 c (ui p)).1 = false →
  SetupPlain.handleSubmitStep2 c p
  = (Return tt, on_ui (λ s, (SetupPlain.validateStep2 c s).2) p).
Proof.
  intros Hc Hv. unfold SetupPlain.handleSubmitStep2, bind, run_ui, on_ui.
  rewrite Hc. simpl.
  destruct (SetupPlain.validateStep2 c (ui p)) as [valid s1]; simpl in *. by subst.
Qed.

Lemma Onboarding_handleSubmitStep2_gate c (p : Page Onboarding.State Net) :
  truthy (Onboarding.clientId c) = true →
  (Onboarding.validateStep2 c (ui p)).1 = false →
  Onboarding.handleSubmitStep2 c p
  = (Return tt, on_ui (λ s, (Onboarding.validateStep2 c s).2) p).
Proof.
  intros Hc Hv. unfold Onboarding.handleSubmitStep2, bind, run_ui, on_ui.
  rewrite Hc. simpl.
  destruct (Onboarding.validateStep2 c (ui p)) as [valid s1]; simpl in *. by subst.
Qed.

(** Step 1 with a form the gate accepts, in create mode: one call, and
    what follows from its result. *)
Lemma Setup_handleSubmitStep1_run q c (p : Page Setup.State Net) r n :
  (Setup.validateStep1 c (ui p)).1 = true →
  Setup.isEditing c && truthy_opt q = false →
  createClientWithUserApi (Setup.create_payload (Setup.businessForm c)) (server p)
  = (r, n) →
  let cleared := Setup.setStep1Errors (λ _, initialErrorState) (ui p) in
  let failed msg :=
    Setup.setIsSubmitting false
      (Setup.setStep1Errors (λ _, {| global := Some msg; fields := ∅ |}) cleared) in
  Setup.handleSubmitStep1 q c p =
    (Return tt,
     {| ui := match r with
              | Throw e =>
                  failed (or_string (message e)
                            (if Setup.isEditing c then "Failed to update business"
                             else "Failed to create business"))
              | Return result =>
                  if truthy (Setup.created_id result)
                  then Setup.setIsSubmitting false
                         (Setup.setCurrentStep Setup.Step2
                            (Setup.setClientId (Setup.created_id result) cleared))
                  else failed "Client ID missing from response"
              end;
        server := n;
        calls := calls p
                 ++ [CreateClientWithUser (Setup.create_payload (Setup.businessForm c))];
        pushed := pushed p |}).
Proof.
  intros Hv He Hr. unfold Setup.handleSubmitStep1, bind, run_ui.
  unfold Setup.validateStep1 in *.
  destruct (has_keys (Setup.step1_fields c)); simpl in *; [done|].
  rewrite He.
  unfold bind, set_state, modify, try_finally, try_catch, call, throw. simpl.
  rewrite Hr. simpl. destruct r as [result|e]; simpl.
  - destruct (truthy (Setup.created_id result)); simpl; by destruct (ui p).
  - by destruct (ui p).
Qed.

Lemma SetupPlain_handleSubmitStep1_run c (p : Page SetupPlain.State Net) r n :
  (SetupPlain.validateStep1 c (ui p)).1 = true →
  createClientWithUserApi (SetupPlain.create_payload (SetupPlain.businessForm c))
    (server p) = (r, n) →
  let cleared := SetupPlain.setStep1Errors (λ _, initialErrorState) (ui p) in
  let failed msg :=
    SetupPlain.setIsSubmitting false
      (SetupPlain.setStep1Errors (λ _, {| global := Some msg; fields := ∅ |}) cleared) in
  SetupPlain.handleSubmitStep1 c p =
    (Return tt,
     {| ui := match r with
              | Throw e => failed (or_string (message e) "Failed to create business")
              | Return result =>
                  if truthy (SetupPlain.created_id result)
                  then SetupPlain.setIsSubmitting false
                         (SetupPlain.setCurrentStep SetupPlain.Step2
                            (SetupPlain.setClientId (SetupPlain.created_id result)
                               cleared))
                  else failed "Client ID missing from response"
              end;
        server := n;
        calls := calls p ++ [CreateClientWithUser
                               (SetupPlain.create_payload (SetupPlain.businessForm c))];
        pushed := pushed p |}).
Proof.
  intros Hv Hr. unfold SetupPlain.handleSubmitStep1, bind, run_ui.
  unfold SetupPlain.validateStep1 in *.
  destruct (has_keys (SetupPlain.step1_fields c)); simpl in *; [done|].
  unfold bind, set_state, modify, try_finally, try_catch, call, throw. simpl.
  rewrite Hr. simpl. destruct r as [result|e]; simpl.
  - destruct (truthy (SetupPlain.created_id result)); simpl; by destruct (ui p).
  - by destruct (ui p).
Qed.

Lemma Onboarding_handleSubmitStep1_run c (p : Page Onboarding.State Net) r n :
  (Onboarding.validateStep1 c (ui p)).1 = true →
  createClientWithUserApi (Onboarding.create_payload (Onboarding.businessForm c))
    (server p) = (r, n) →
  let cleared := Onboarding.setStep1Errors (λ _, initialErrorState) (ui p) in
  let failed msg :=
    Onboarding.setIsSubmitting false
      (Onboarding.setStep1Errors (λ _, {| global := Some msg; fields := ∅ |}) cleared) in
  Onboarding.handleSubmitStep1 c p =
    (Return tt,
     {| ui := match r with
              | Throw e => failed (or_string (message e) "Failed to create client")
              | Return result =>
                  if truthy (Onboarding.created_id result)
                  then Onboarding.setIsSubmitting false
                         (Onboarding.setCurrentStep Onboarding.Step2
                            (Onboarding.setClientId (Onboarding.created_id result)
                               cleared))
                  else failed "Client ID missing from response"
              end;
        server := n;
        calls := calls p ++ [CreateClientWithUser
                               (Onboarding.create_payload (Onboarding.businessForm c))];
        pushed := pushed p |}).
Proof.
  intros Hv Hr. unfold Onboarding.handleSubmitStep1, bind, run_ui.
  unfold Onboarding.validateStep1 in *.
  destruct (has_keys (Onboarding.step1_fields c)); simpl in *; [done|].
  unfold bind, set_state, modify, try_finally, try_catch, call, throw. simpl.
  rewrite Hr. simpl. destruct r as [result|e]; simpl.
  - destruct (truthy (Onboarding.created_id result)); simpl; by destruct (ui p).
  - by destruct (ui p).
Qed.

(** Step 1 in edit mode. *)
Lemma Setup_handleSubmitStep1_edit q c (p : Page Setup.State Net) r n :
  (Setup.validateStep1 c (ui p)).1 = true →
  Setup.isEditing c = true → truthy_string q = true →
  updateClientApi q (Setup.update_payload (Setup.businessForm c)) (server p) = (r, n) →
  let cleared := Setup.setStep1Errors (λ _, initialErrorState) (ui p) in
  Setup.handleSubmitStep1 (Some q) c p =
    (Return tt,
     {| ui := match r with
              | Throw e =>
                  Setup.setIsSubmitting false
                    (Setup.setStep1Errors
                       (λ _, {| global := Some (or_string (message e)
                                                  "Failed to update business");
                                fields := ∅ |}) cleared)
              | Return _ =>
                  Setup.setIsSubmitting false
                    (Setup.setCurrentStep Setup.Step2
                       (Setup.setClientId (VStr q) cleared))
              end;
        server := n;
        calls := calls p ++ [UpdateClient q (Setup.update_payload (Setup.businessForm c))];
        pushed := pushed p |}).
Proof.
  intros Hv He Hq Hr. unfold Setup.handleSubmitStep1, bind, run_ui.
  unfold Setup.validateStep1 in *.
  destruct (has_keys (Setup.step1_fields c)); simpl in *; [done|].
  rewrite He, Hq. simpl.
  unfold bind, set_state, modify, try_finally, try_catch, call, throw. simpl.
  rewrite Hr. simpl. destruct r as [result|e]; simpl; by destruct (ui p).
Qed.

(** What the page state keeps through a step-1 submission. *)
Lemma Setup_handleSubmitStep1_ui q c (p : Page Setup.State Net) :
  let p' := (Setup.handleSubmitStep1 q c p).2 in
  Setup.locations (ui p') = Setup.locations (ui p) ∧
  Setup.businessForm (ui p') = Setup.businessForm (ui p) ∧
  (Setup.isSubmitting (ui p) = false → Setup.isSubmitting (ui p') = false).
Proof.
  unfold Setup.handleSubmitStep1, bind, run_ui, Setup.validateStep1.
  destruct (has_keys (Setup.step1_fields c)); simpl.
  { by destruct p as [[] ? ? ?]. }
  unfold bind, set_state, modify, try_finally, try_catch, call, throw.
  destruct (Setup.isEditing c && truthy_opt q); simpl.
  - destruct (updateClientApi _ _ _) as [[v|e] n]; simpl;
      by destruct p as [[] ? ? ?].
  - destruct (createClientWithUserApi _ _) as [[v|e] n]; simpl.
    + destruct (truthy (Setup.created_id v)); simpl; by destruct p as [[] ? ? ?].
    + by destruct p as [[] ? ? ?].
Qed.

Lemma SetupPlain_handleSubmitStep1_ui c (p : Page SetupPlain.State Net) :
  let p' := (SetupPlain.handleSubmitStep1 c p).2 in
  SetupPlain.locations (ui p') = SetupPlain.locations (ui p) ∧
  SetupPlain.businessForm (ui p') = SetupPlain.businessForm (ui p) ∧
  (SetupPlain.isSubmitting (ui p) = false → SetupPlain.isSubmitting (ui p') = false).
Proof.
  unfold SetupPlain.handleSubmitStep1, bind, run_ui, SetupPlain.validateStep1.
  destruct (has_keys (SetupPlain.step1_fields c)); simpl.
  { by destruct p as [[] ? ? ?]. }
  unfold bind, set_state, modify, try_finally, try_catch, call, throw. simpl.
  destruct (createClientWithUserApi _ _) as [[v|e] n]; simpl.
  - destruct (truthy (SetupPlain.created_id v)); simpl; by destruct p as [[] ? ? ?].
  - by destruct p as [[] ? ? ?].
Qed.

Lemma Onboarding_handleSubmitStep1_ui c (p : Page Onboarding.State Net) :
  let p' := (Onboarding.handleSubmitStep1 c p).2 in
  Onboarding.locations (ui p') = Onboarding.locations (ui p) ∧
  Onboarding.businessForm (ui p') = Onboarding.businessForm (ui p) ∧
  (Onboarding.isSubmitting (ui p) = false → Onboarding.isSubmitting (ui p') = false).
Proof.
  unfold Onboarding.handleSubmitStep1, bind, run_ui, Onboarding.validateStep1.
  destruct (has_keys (Onboarding.step1_fields c)); simpl.
  { by destruct p as [[] ? ? ?]. }
  unfold bind, set_state, modify, try_finally, try_catch, call, throw. simpl.
  destruct (createClientWithUserApi _ _) as [[v|e] n]; simpl.
  - destruct (truthy (Onboarding.created_id v)); simpl; by destruct p as [[] ? ? ?].
  - by destruct p as [[] ? ? ?].
Qed.









End SubmitFacts.

(** ** Properties of the step submissions *)
Section SubmitProperties.
Import Js Eff Wizard.
Context {Net : Type} `{Backend Net} `{Runtime}.

(** X13: a form or a list of rows that the gate rejects reaches no backend.
    On each page, when [validateStep1] (or, with a client identifier set,
    [validateStep2]) returns false, the submission handler makes no call,
    pushes no route and leaves the page state as the gate left it: only the
    step's error record is replaced; step, client identifier, form, rows
    and the submitting flag are as before. *)
Theorem rejected_input_reaches_no_backend :
  (∀ q c (p : Page Setup.State Net),
     (Setup.validateStep1 c (ui p)).1 = false →
     Setup.handleSubmitStep1 q c p
     = (Return tt, on_ui (λ s, (Setup.validateStep1 c s).2) p)) ∧
  (∀ c (p : Page SetupPlain.State Net),
     (SetupPlain.validateStep1 c (ui p)).1 = false →
     SetupPlain.handleSubmitStep1 c p
     = (Return tt, on_ui (λ s, (SetupPlain.validateStep1 c s).2) p)) ∧
  (∀ c (p : Page Onboarding.State Net),
     (Onboarding.validateStep1 c (ui p)).1 = false →
     Onboarding.handleSubmitStep1 c p
     = (Return tt, on_ui (λ s, (Onboarding.validateStep1 c s).2) p)) ∧
  (∀ c (p : Page Setup.State Net),
     truthy (Setup.clientId c) = true →
     (Setup.validateStep2 c (ui p)).1 = false →
     Setup.handleSubmitStep2 c p
     = (Return tt, on_ui (λ s, (Setup.validateStep2 c s).2) p)) ∧
  (∀ c (p : Page SetupPlain.State Net),
     truthy (SetupPlain.clientId c) = true →
     (SetupPlain.validateStep2 c (ui p)).1 = false →
     SetupPlain.handleSubmitStep2 c p
     = (Return tt, on_ui (λ s, (SetupPlain.validateStep2 c s).2) p)) ∧
  (∀ c (p : Page Onboarding.State Net),
     truthy (Onboarding.clientId c) = true →
     (Onboarding.validateStep2 c (ui p)).1 = false →
     Onboarding.handleSubmitStep2 c p
     = (Return tt, on_ui (λ s, (Onboarding.validateStep2 c s).2) p)) ∧
  (∀ c s, ∃ e1, (Setup.validateStep1 c s).2 = Setup.setStep1Errors (λ _, e1) s) ∧
  (∀ c s, ∃ e1, (SetupPlain.validateStep1 c s).2 = SetupPlain.setStep1Errors (λ _, e1) s) ∧
  (∀ c s, ∃ e1, (Onboarding.validateStep1 c s).2 = Onboarding.setStep1Errors (λ _, e1) s) ∧
  (∀ c s, ∃ e2, (Setup.validateStep2 c s).2 = Setup.setStep2Errors (λ _, e2) s) ∧
  (∀ c s, ∃ e2, (SetupPlain.validateStep2 c s).2 = SetupPlain.setStep2Errors (λ _, e2) s) ∧
  (∀ c s, ∃ e2, (Onboarding.validateStep2 c s).2 = Onboarding.setStep2Errors (λ _, e2) s).
Proof.
  split_and!.
  - apply Setup_handleSubmitStep1_gate.
  - apply SetupPlain_handleSubmitStep1_gate.
  - apply Onboarding_handleSubmitStep1_gate.
  - apply Setup_handleSubmitStep2_gate.
  - apply SetupPlain_handleSubmitStep2_gate.
  - apply Onboarding_handleSubmitStep2_gate.
  - intros c s. unfold Setup.validateStep1. destruct (has_keys _); by eexists.
  - intros c s. unfold SetupPlain.validateStep1. destruct (has_keys _); by eexists.
  - intros c s. unfold Onboarding.validateStep1. destruct (has_keys _); by eexists.
  - intros c s. unfold Setup.validateStep2. destruct (step2_verdict _ _). by eexists.
  - intros c s. unfold SetupPlain.validateStep2. destruct (step2_verdict _ _). by eexists.
  - intros c s. unfold Onboarding.validateStep2. destruct (step2_verdict _ _). by eexists.
Qed.

(** X14: a step-1 submission that fails keeps the page on step 1. When the
    gate accepts the form and the create call is rejected, or answers with
    a result in which no identifier is found, then exactly that one call
    was made, no route was pushed, the step and the client identifier are
    as before, the submitting flag is off, the field errors are empty and
    the step-global error is a non-empty message: the rejection's message
    when it has one, and [Client ID missing from response] for a result
    without identifier. *)
Theorem failed_step1_stays_on_step1 :
  (∀ q c (p : Page Setup.State Net) r n,
     (Setup.validateStep1 c (ui p)).1 = true →
     Setup.isEditing c && truthy_opt q = false →
     createClientWithUserApi (Setup.create_payload (Setup.businessForm c)) (server p)
     = (r, n) →
     (∀ result, r = Return result → truthy (Setup.created_id result) = false) →
     let p' := (Setup.handleSubmitStep1 q c p).2 in
     calls p' = calls p
                ++ [CreateClientWithUser (Setup.create_payload (Setup.businessForm c))] ∧
     pushed p' = pushed p ∧
     Setup.currentStep (ui p') = Setup.currentStep (ui p) ∧
     Setup.clientId (ui p') = Setup.clientId (ui p) ∧
     Setup.isSubmitting (ui p') = false ∧
     fields (Setup.step1Errors (ui p')) = ∅ ∧
     ∃ msg, global (Setup.step1Errors (ui p')) = Some msg ∧ msg ≠ "" ∧
            match r with
            | Return _ => msg = "Client ID missing from response"
            | Throw e => message e ≠ "" → msg = message e
            end) ∧
  (∀ c (p : Page SetupPlain.State Net) r n,
     (SetupPlain.validateStep1 c (ui p)).1 = true →
     createClientWithUserApi (SetupPlain.create_payload (SetupPlain.businessForm c))
       (server p) = (r, n) →
     (∀ result, r = Return result → truthy (SetupPlain.created_id result) = false) →
     let p' := (SetupPlain.handleSubmitStep1 c p).2 in
     calls p' = calls p ++ [CreateClientWithUser
                              (SetupPlain.create_payload (SetupPlain.businessForm c))] ∧
     pushed p' = pushed p ∧
     SetupPlain.currentStep (ui p') = SetupPlain.currentStep (ui p) ∧
     SetupPlain.clientId (ui p') = SetupPlain.clientId (ui p) ∧
     SetupPlain.isSubmitting (ui p') = false ∧
     fields (SetupPlain.step1Errors (ui p')) = ∅ ∧
     ∃ msg, global (SetupPlain.step1Errors (ui p')) = Some msg ∧ msg ≠ "" ∧
            match r with
            | Return _ => msg = "Client ID missing from response"
            | Throw e => message e ≠ "" → msg = message e
            end) ∧
  (∀ c (p : Page Onboarding.State Net) r n,
     (Onboarding.validateStep1 c (ui p)).1 = true →
     createClientWithUserApi (Onboarding.create_payload (Onboarding.businessForm c))
       (server p) = (r, n) →
     (∀ result, r = Return result → truthy (Onboarding.created_id result) = false) →
     let p' := (Onboarding.handleSubmitStep1 c p).2 in
     calls p' = calls p ++ [CreateClientWithUser
                              (Onboarding.create_payload (Onboarding.businessForm c))] ∧
     pushed p' = pushed p ∧
     Onboarding.currentStep (ui p') = Onboarding.currentStep (ui p) ∧
     Onboarding.clientId (ui p') = Onboarding.clientId (ui p) ∧
     Onboarding.isSubmitting (ui p') = false ∧
     fields (Onboarding.step1Errors (ui p')) = ∅ ∧
     ∃ msg, global (Onboarding.step1Errors (ui p')) = Some msg ∧ msg ≠ "" ∧
            match r with
            | Return _ => msg = "Client ID missing from response"
            | Throw e => message e ≠ "" → msg = message e
            end).
Proof.
  split_and!.
  - intros q c p r n Hv He Hr Hid. cbv zeta.
    rewrite (Setup_handleSubmitStep1_run q c p r n Hv He Hr). simpl.
    destruct r as [result|e].
    + rewrite (Hid result eq_refl). destruct (ui p); simpl.
      split_and!; try done. by eexists.
    + destruct (ui p); simpl. split_and!; try done. eexists. split; [done|].
      destruct (message e); [by destruct (Setup.isEditing c)|]. done.
  - intros c p r n Hv Hr Hid. cbv zeta.
    rewrite (SetupPlain_handleSubmitStep1_run c p r n Hv Hr). simpl.
    destruct r as [result|e].
    + rewrite (Hid result eq_refl). destruct (ui p); simpl.
      split_and!; try done. by eexists.
    + destruct (ui p); simpl. split_and!; try done. eexists. split; [done|].
      by destruct (message e).
  - intros c p r n Hv Hr Hid. cbv zeta.
    rewrite (Onboarding_handleSubmitStep1_run c p r n Hv Hr). simpl.
    destruct r as [result|e].
    + rewrite (Hid result eq_refl). destruct (ui p); simpl.
      split_and!; try done. by eexists.
    + destruct (ui p); simpl. split_and!; try done. eexists. split; [done|].
      by destruct (message e).
Qed.

(** X15: no submission of step 1 or step 2 touches what the user typed or
    leaves the page stuck. Whatever the gate decides and the backend
    answers, after each of the six handlers the business form and the list
    of rows are as before, and the submitting flag is off unless it was
    already on before the handler ran and the handler stopped at its
    gate. *)
Theorem submission_keeps_form_and_rows :
  (∀ q c (p : Page Setup.State Net),
     let p' := (Setup.handleSubmitStep1 q c p).2 in
     Setup.businessForm (ui p') = Setup.businessForm (ui p) ∧
     Setup.locations (ui p') = Setup.locations (ui p) ∧
     (Setup.isSubmitting (ui p') = false ∨
      Setup.isSubmitting (ui p') = Setup.isSubmitting (ui p))) ∧
  (∀ c (p : Page Setup.State Net),
     let p' := (Setup.handleSubmitStep2 c p).2 in
     Setup.businessForm (ui p') = Setup.businessForm (ui p) ∧
     Setup.locations (ui p') = Setup.locations (ui p) ∧
     (Setup.isSubmitting (ui p') = false ∨
      Setup.isSubmitting (ui p') = Setup.isSubmitting (ui p))) ∧
  (∀ c (p : Page SetupPlain.State Net),
     let p' := (SetupPlain.handleSubmitStep1 c p).2 in
     SetupPlain.businessForm (ui p') = SetupPlain.businessForm (ui p) ∧
     SetupPlain.locations (ui p') = SetupPlain.locations (ui p) ∧
     (SetupPlain.isSubmitting (ui p') = false ∨
      SetupPlain.isSubmitting (ui p') = SetupPlain.isSubmitting (ui p))) ∧
  (∀ c (p : Page SetupPlain.State Net),
     let p' := (SetupPlain.handleSubmitStep2 c p).2 in
     SetupPlain.businessForm (ui p') = SetupPlain.businessForm (ui p) ∧
     SetupPlain.locations (ui p') = SetupPlain.locations (ui p) ∧
     (SetupPlain.isSubmitting (ui p') = false ∨
      SetupPlain.isSubmitting (ui p') = SetupPlain.isSubmitting (ui p))) ∧
  (∀ c (p : Page Onboarding.State Net),
     let p' := (Onboarding.handleSubmitStep1 c p).2 in
     Onboarding.businessForm (ui p') = Onboarding.businessForm (ui p) ∧
     Onboarding.locations (ui p') = Onboarding.locations (ui p) ∧
     (Onboarding.isSubmitting (ui p') = false ∨
      Onboarding.isSubmitting (ui p') = Onboarding.isSubmitting (ui p))) ∧
  (∀ c (p : Page Onboarding.State Net),
     let p' := (Onboarding.handleSubmitStep2 c p).2 in
     Onboarding.businessForm (ui p') = Onboarding.businessForm (ui p) ∧
     Onboarding.locations (ui p') = Onboarding.locations (ui p) ∧
     (Onboarding.isSubmitting (ui p') = false ∨
      Onboarding.isSubmitting (ui p') = Onboarding.isSubmitting (ui p))).
Proof.
  split_and!; intros; cbv zeta.
  - destruct (Setup_handleSubmitStep1_ui q c p) as (Hl & Hf & Hs).
    split_and!; try done.
    destruct (Setup.isSubmitting (ui p)); [|by left; apply Hs].
    destruct (Setup.isSubmitting _); [by right | by left].
  - destruct (Setup_handleSubmitStep2_ui c p) as (Hl & _ & Hf & Hs).
    split_and!; try done.
    destruct (Setup.isSubmitting (ui p)); [|by left; apply Hs].
    destruct (Setup.isSubmitting _); [by right | by left].
  - destruct (SetupPlain_handleSubmitStep1_ui c p) as (Hl & Hf & Hs).
    split_and!; try done.
    destruct (SetupPlain.isSubmitting (ui p)); [|by left; apply Hs].
    destruct (SetupPlain.isSubmitting _); [by right | by left].
  - destruct (SetupPlain_handleSubmitStep2_ui c p) as (Hl & _ & Hf & Hs).
    split_and!; try done.
    destruct (SetupPlain.isSubmitting (ui p)); [|by left; apply Hs].
    destruct (SetupPlain.isSubmitting _); [by right | by left].
  - destruct (Onboarding_handleSubmitStep1_ui c p) as (Hl & Hf & Hs).
    split_and!; try done.
    destruct (Onboarding.isSubmitting (ui p)); [|by left; apply Hs].
    destruct (Onboarding.isSubmitting _); [by right | by left].
  - destruct (Onboarding_handleSubmitStep2_ui c p) as (Hl & _ & Hf & Hs).
    split_and!; try done.
    destruct (Onboarding.isSubmitting (ui p)); [|by left; apply Hs].
    destruct (Onboarding.isSubmitting _); [by right | by left].
Qed.


End SubmitProperties.

#[local] Set Warnings "-clear-no-such-hyp".

(** ** Step 3 of the three-step page *)
Section Step3Facts.
Import Js Eff Wizard Onboarding Step3.

(** A facility the gate has nothing to say about. *)
Lemma check_facility_empty fac i e :
  check_facility fac i e = Return ∅ ↔
  (blank (fac_name fac) = false ∧ blank (type fac) = false ∧
   ∃ s, location_id fac = VStr s ∧ blank s = false) ∧ e = ∅.
Proof.
  unfold check_facility, location_missing.
  destruct (location_id fac) as [| | | |s| |]; simpl.
  1,2: split; [intros [= E]; by apply insert_non_empty in E
               | intros [(_ & _ & s & ? & _) _]; done].
  3: { split.
       - intros [= E]. rewrite !flag_empty, !not_trimmed_blank in E.
         destruct E as (? & ? & ? & ?). split; [|done]. split_and!; try done.
         by exists s.
       - intros [(Hn & Ht & s' & [= <-] & Hs) ->].
         by rewrite !not_trimmed_blank, Hn, Ht, Hs. }
  all: split; [done | intros [(_ & _ & s & ? & _) _]; done].
Qed.

Lemma check_facility_grows fac i e e' :
  check_facility fac i e = Return e' → e' = ∅ → e = ∅.
Proof.
  intros E ->. by apply check_facility_empty in E as [_ ?].
Qed.

Lemma check_facilities_empty l :
  ∀ i e, check_facilities i l e = Return ∅ ↔
    Forall (λ fac, blank (fac_name fac) = false ∧ blank (type fac) = false ∧
                   ∃ s, location_id fac = VStr s ∧ blank s = false) l ∧ e = ∅.
Proof.
  induction l as [|fac l IH]; intros i e; simpl.
  - split; [by intros [= ->] | by intros [_ ->]].
  - rewrite Forall_cons. destruct (check_facility fac i e) as [e'|err] eqn:E.
    + rewrite IH. split.
      * intros [Hl ->]. apply check_facility_empty in E. naive_solver.
      * intros [[Hf Hl] ->].
        assert (check_facility fac i ∅ = Return ∅) as E'
          by (apply check_facility_empty; done).
        rewrite E in E'. injection E' as ->. done.
    + split; [done|]. intros [[Hf Hl] ->].
      assert (check_facility fac i ∅ = Return ∅) as E'
        by (apply check_facility_empty; done).
      by rewrite E in E'.
Qed.

Lemma step3_verdict_true rows e :
  (step3_verdict rows e).1 = true ↔ e = ∅ ∧ rows ≠ 0.
Proof.
  unfold step3_verdict. rewrite <- has_keys_false.
  destruct (has_keys e), (Nat.eqb_spec rows 0); simpl; naive_solver.
Qed.

Context {Net : Type} `{FacilityBackend Net}.

Lemma validateStep3_run c (p : Page Net) :
  validateStep3 c p =
    match check_facilities 0 (facilities c) ∅ with
    | Return e =>
        (Return (step3_verdict (length (facilities c)) e).1,
         {| ui := setStep3Errors
                    (λ _, (step3_verdict (length (facilities c)) e).2) (ui p);
            server := server p; submitted := submitted p; pushed := pushed p |})
    | Throw err => (Throw err, p)
    end.
Proof.
  unfold validateStep3, bind, await, set_state, modify, ret.
  destruct (check_facilities _ _ _) as [e|err]; [|done].
  by destruct (step3_verdict _ _).
Qed.

(** The loop of step 3: the state and the routes are untouched; the
    facilities submitted are all of the list if the loop completed and a
    prefix ending in the rejected one if not. *)
Lemma Step3_for_of_cons fac l (p : Page Net) :
  for_of (fac :: l) submit_facility p =
    match createFacilityApi fac (server p) with
    | (Return _, n) =>
        for_of l submit_facility
          {| ui := ui p; server := n; submitted := submitted p ++ [fac];
             pushed := pushed p |}
    | (Throw e, n) =>
        (Throw e, {| ui := ui p; server := n; submitted := submitted p ++ [fac];
                     pushed := pushed p |})
    end.
Proof.
  simpl. cbv [bind submit_facility create ret].
  by destruct (createFacilityApi _ _) as [[] ?].
Qed.

Lemma Step3_loop l (p : Page Net) :
  let rp := for_of l submit_facility p in
  ui rp.2 = ui p ∧ pushed rp.2 = pushed p ∧
  match rp.1 with
  | Return _ => submitted rp.2 = submitted p ++ l
  | Throw _ => ∃ k, k < length l ∧ submitted rp.2 = submitted p ++ take (S k) l
  end.
Proof.
  revert p. induction l as [|fac l IH]; intros p; cbv zeta.
  { simpl. by rewrite app_nil_r. }
  rewrite Step3_for_of_cons.
  destruct (createFacilityApi fac (server p)) as [[v|e] n].
  - match goal with |- context [for_of l submit_facility ?q] =>
      destruct (IH q) as (Hu & Hp & Hs);
      destruct (for_of l submit_facility q) as [[[]|e] q']
    end; simpl in *.
    + split_and!; try done. by rewrite Hs, <- app_assoc.
    + split_and!; try done. destruct Hs as (k & Hk & Hs). exists (S k).
      split; [lia|]. by rewrite Hs, <- app_assoc.
  - simpl. split_and!; try done. exists 0. split; [lia|]. done.
Qed.

(** The loop run against the backend: it completes when every creation
    is settled, and is left at the first one the backend rejects. *)
Lemma Step3_loop_accepted l (p : Page Net) n :
  Step3.accepted l (server p) = Some n →
  for_of l submit_facility p
  = (Return tt, {| ui := ui p; server := n; submitted := submitted p ++ l;
                   pushed := pushed p |}).
Proof.
  revert p. induction l as [|fac l IH]; intros p Ha.
  { simpl in *. injection Ha as <-. unfold ret. rewrite app_nil_r.
    by destruct p. }
  rewrite Step3_for_of_cons. simpl in Ha.
  destruct (createFacilityApi fac (server p)) as [[v|e] n1]; [|done].
  match goal with |- context [for_of l submit_facility ?q] =>
    rewrite (IH q Ha) end.
  simpl. by rewrite <- app_assoc.
Qed.

Lemma Step3_loop_rejected l (p : Page Net) done x rest n e n' :
  l = done ++ x :: rest →
  Step3.accepted done (server p) = Some n →
  createFacilityApi x n = (Throw e, n') →
  for_of l submit_facility p
  = (Throw e, {| ui := ui p; server := n'; submitted := submitted p ++ done ++ [x];
                 pushed := pushed p |}).
Proof.
  intros -> Ha Hx. revert p Ha. induction done as [|d done IH]; intros p Ha.
  { simpl in Ha. injection Ha as <-. change ([] ++ x :: rest) with (x :: rest).
    rewrite Step3_for_of_cons. by rewrite Hx. }
  change ((d :: done) ++ x :: rest) with (d :: (done ++ x :: rest)).
  rewrite Step3_for_of_cons. simpl in Ha.
  destruct (createFacilityApi d (server p)) as [[v|e0] n1]; [|done].
  match goal with |- context [for_of _ submit_facility ?q] =>
    rewrite (IH q Ha) end.
  simpl. by rewrite <- app_assoc.
Qed.

Lemma Step3_accepted_or_rejected (l : list FacilityPayload) (n : Net) :
  (∃ n', Step3.accepted l n = Some n') ∨
  (∃ done x rest m e m',
     l = done ++ x :: rest ∧ Step3.accepted done n = Some m ∧
     createFacilityApi x m = (Throw e, m')).
Proof.
  revert n. induction l as [|fac l IH]; intros n; simpl.
  { left. by eexists. }
  destruct (createFacilityApi fac n) as [[v|e] n1] eqn:E.
  - destruct (IH n1) as [[n' Hn]|(done & x & rest & m & e & m' & -> & Hd & Hx)].
    + left. by eexists.
    + right. exists (fac :: done), x, rest, m, e, m'. simpl. by rewrite E.
  - right. by exists [], fac, l, n, e, n1.
Qed.

Lemma handleSubmitStep3_run c (p : Page Net) :
  handleSubmitStep3 c p =
    match check_facilities 0 (facilities c) ∅ with
    | Throw err => (Throw err, p)
    | Return e =>
        let verdict := step3_verdict (length (facilities c)) e in
        let p1 := {| ui := setStep3Errors (λ _, verdict.2) (ui p);
                     server := server p; submitted := submitted p;
                     pushed := pushed p |} in
        if verdict.1 then
          match for_of (facilities c) submit_facility
                  {| ui := setIsSubmitting true (ui p1); server := server p;
                     submitted := submitted p; pushed := pushed p |} with
          | (Return _, q) =>
              (Return tt, {| ui := ui q; server := server q;
                             submitted := submitted q;
                             pushed := pushed q ++ ["/dashboard"] |})
          | (Throw err, q) =>
              (Return tt,
               {| ui := setStep3Errors
                          (λ _, {| global := Some (or_string (message err)
                                                     "Failed to create facilities");
                                   fields := ∅ |}) (ui q);
                  server := server q; submitted := submitted q;
                  pushed := pushed q |})
          end
        else (Return tt, p1)
    end.
Proof.
  unfold handleSubmitStep3. unfold bind at 1. rewrite validateStep3_run.
  destruct (check_facilities 0 (facilities c) ∅) as [e|err]; [|done].
  cbv zeta. destruct (step3_verdict _ _) as [[|] errors]; simpl; [|done].
  cbv [bind try_catch set_state router_push modify]. simpl.
  by destruct (for_of _ _ _) as [[[]|] ?].
Qed.

End Step3Facts.

Section Step3Properties.
Import Js Eff Wizard Onboarding Step3.
Context {Net : Type} `{FacilityBackend Net}.

(** X17: the step-3 gate accepts exactly the lists it is meant to:
    [validateStep3] returns true if and only if there is at least one
    facility and every facility has a name and a type that are not blank
    and a [location_id] that is a string and not blank. (A [location_id]
    that is neither a string nor nullish makes the gate throw: [trim] is
    called on it.) *)
Theorem step3_gate_accepts_exactly c (p : Page Net) :
  (validateStep3 c p).1 = Return true ↔
  facilities c ≠ [] ∧
  Forall (λ fac, blank (fac_name fac) = false ∧ blank (type fac) = false ∧
                 ∃ s, location_id fac = VStr s ∧ blank s = false) (facilities c).
Proof.
  rewrite validateStep3_run.
  destruct (check_facilities 0 (facilities c) ∅) as [e|err] eqn:E; simpl.
  - split.
    + intros [= Hv]. apply step3_verdict_true in Hv as [-> Hl].
      apply check_facilities_empty in E as [Hall _].
      split; [|done]. by destruct (facilities c).
    + intros [Hne Hall].
      assert (check_facilities 0 (facilities c) ∅ = Return ∅) as E'
        by (by apply check_facilities_empty).
      rewrite E in E'. injection E' as ->. f_equal.
      apply step3_verdict_true. split; [done|]. by destruct (facilities c).
  - split; [done|]. intros [_ Hall].
    assert (check_facilities 0 (facilities c) ∅ = Return ∅) as E'
      by (by apply check_facilities_empty).
    by rewrite E in E'.
Qed.

(** X18: step 3 submits the facilities in list order and stops at the
    first rejection. When the gate does not return true, nothing is
    submitted and no route is pushed. When it does, the facilities are
    submitted one after the other, each as it stands in the list, up to
    and including the first one the backend rejects: there the loop ends,
    the later facilities are not submitted, no route is pushed and the
    step-global error holds the rejection's message; when none is rejected,
    every facility is submitted once and [/dashboard] is pushed. Every run
    of the backend is one of the two. In each case the facilities submitted
    are a prefix of the list and no route other than [/dashboard] is
    pushed. *)
Theorem step3_submits_a_prefix c (p : Page Net) :
  let p' := (handleSubmitStep3 c p).2 in
  (∃ k, submitted p' = submitted p ++ take k (facilities c) ∧
        (pushed p' = pushed p ∨
         k = length (facilities c) ∧ pushed p' = pushed p ++ ["/dashboard"])) ∧
  ((validateStep3 c p).1 ≠ Return true →
   submitted p' = submitted p ∧ server p' = server p ∧ pushed p' = pushed p) ∧
  ((validateStep3 c p).1 = Return true →
   (∀ n, Step3.accepted (facilities c) (server p) = Some n →
         submitted p' = submitted p ++ facilities c ∧ server p' = n ∧
         pushed p' = pushed p ++ ["/dashboard"]) ∧
   (∀ done x rest n e n',
      facilities c = done ++ x :: rest →
      Step3.accepted done (server p) = Some n →
      createFacilityApi x n = (Throw e, n') →
      submitted p' = submitted p ++ done ++ [x] ∧ server p' = n' ∧
      pushed p' = pushed p ∧
      global (step3Errors (ui p'))
      = Some (or_string (message e) "Failed to create facilities")) ∧
   ((∃ n, Step3.accepted (facilities c) (server p) = Some n) ∨
    (∃ done x rest n e n',
       facilities c = done ++ x :: rest ∧
       Step3.accepted done (server p) = Some n ∧
       createFacilityApi x n = (Throw e, n')))).
Proof.
  cbv zeta. split_and!.
  - rewrite handleSubmitStep3_run.
    destruct (check_facilities 0 (facilities c) ∅) as [e|err]; simpl.
    2:{ exists 0. rewrite app_nil_r. by split; [|left]. }
    destruct (step3_verdict _ _) as [[|] errors]; simpl.
    2:{ exists 0. rewrite app_nil_r. by split; [|left]. }
    match goal with |- context [for_of ?l submit_facility ?q] =>
      destruct (Step3_loop l q) as (Hu & Hp & Hs);
      destruct (for_of l submit_facility q) as [[[]|e'] q']
    end; simpl in *.
    + exists (length (facilities c)). rewrite firstn_all, Hs, Hp.
      split; [done|]. by right.
    + destruct Hs as (k & Hk & Hs). exists (S k). rewrite Hs, Hp.
      split; [done|]. by left.
  - rewrite handleSubmitStep3_run, validateStep3_run.
    destruct (check_facilities 0 (facilities c) ∅) as [e|err]; simpl; [|done].
    destruct (step3_verdict _ _) as [[|] errors]; simpl; done.
  - intros Hv. rewrite validateStep3_run in Hv. rewrite handleSubmitStep3_run.
    destruct (check_facilities 0 (facilities c) ∅) as [e|err]; simpl in *; [|done].
    injection Hv as Hv. rewrite Hv. split_and!.
    + intros n Ha.
      match goal with |- context [for_of ?l submit_facility ?q] =>
        rewrite (Step3_loop_accepted l q n Ha) end.
      done.
    + intros done x rest n e' n' Hl Ha Hx.
      match goal with |- context [for_of ?l submit_facility ?q] =>
        rewrite (Step3_loop_rejected l q done x rest n e' n' Hl Ha Hx) end.
      simpl. split_and!; try done. by destruct (ui p).
    + apply Step3_accepted_or_rejected.
Qed.

(** X19: step 3 has no [finally]: once the gate has accepted the
    facilities, the submitting flag is on after [handleSubmitStep3] and
    stays on, whether every call succeeded or one was rejected. After a
    rejection the step-global error holds a non-empty message while the
    controls bound to [disabled={isSubmitting}], the submit button among
    them, remain disabled. *)
Theorem step3_leaves_the_page_submitting c (p : Page Net) :
  (validateStep3 c p).1 = Return true →
  let rp := handleSubmitStep3 c p in
  rp.1 = Return tt ∧
  isSubmitting (ui rp.2) = true ∧
  (pushed rp.2 = pushed p →
   ∃ msg, global (step3Errors (ui rp.2)) = Some msg ∧ msg ≠ "").
Proof.
  intros Hv. cbv zeta. rewrite handleSubmitStep3_run.
  rewrite validateStep3_run in Hv.
  destruct (check_facilities 0 (facilities c) ∅) as [e|err]; simpl in *; [|done].
  injection Hv as Hv. rewrite Hv.
  match goal with |- context [for_of ?l submit_facility ?q] =>
    destruct (Step3_loop l q) as (Hu & Hp & Hs);
    destruct (for_of l submit_facility q) as [[[]|e'] q']
  end; simpl in *.
  - rewrite Hu, Hp. destruct (ui p); simpl. split_and!; try done.
    intros E. exfalso. revert E. clear. intros E.
    apply (f_equal length) in E. rewrite length_app in E. simpl in E. lia.
  - rewrite Hu. destruct (ui p); simpl. split_and!; try done.
    intros _. eexists. split; [done|]. by destruct (message e').
Qed.

End Step3Properties.

(** ** Rows typed on the edit-capable page *)
Section SessionFacts.
Import Js Eff Wizard.
Context `{Runtime}.

Lemma forEach_key_untouched (check : LocationPayload → nat → _ → _) l k :
  Forall (λ loc, ∀ j (e : gmap string (option string)), check loc j e !! k = e !! k) l →
  ∀ i e, forEach check i l e !! k = e !! k.
Proof.
  induction 1 as [|loc l Hloc _ IH]; intros i e; simpl; [done|].
  by rewrite IH, Hloc.
Qed.

Lemma check_location_in_range loc j e i f :
  in_range loc → f = "latitude" ∨ f = "longitude" →
  Setup.check_location loc j e !! row_key i f = e !! row_key i f.
Proof.
  intros [Hlat Hlng] Hf. unfold Setup.check_location, check_required.
  rewrite Hlat, Hlng. simpl.
  rewrite !flag_lookup_ne; [done|..];
    intros E; apply row_key_inj in E as [_ E]; by destruct Hf as [-> | ->].
Qed.

Lemma with_field_in_range field text loc :
  in_range loc → in_range (with_field field text (Setup.coordinate_of field text) loc).
Proof.
  intros [Hlat Hlng].
  destruct loc; destruct field; simpl in *; split; try done.
  - destruct (Setup.coordinate_of f_latitude text) as [x|] eqn:E; [|done].
    by apply (Setup_typed_coordinate text x).
  - destruct (Setup.coordinate_of f_longitude text) as [x|] eqn:E; [|done].
    by apply (Setup_typed_coordinate text x).
Qed.

Lemma handle_in_range s e :
  Forall in_range (Setup.locations s) →
  Forall in_range (Setup.locations (Session.handle s e)).
Proof.
  intros Hs. destruct e as [f v|i f v| |i|step]; destruct s as [? ? ? ? ? ? rows ?];
    simpl in *; try done.
  - apply Forall_alter; [done|]. intros loc _ Hloc. by apply with_field_in_range.
  - apply Forall_app. split; [done|]. by repeat constructor.
  - unfold Setup.click_remove, Setup.remove_rendered, Setup.removeLocation. simpl.
    destruct (Nat.ltb 1 (length rows)); simpl; [|done].
    by apply Forall_delete.
Qed.

Lemma after_in_range events s :
  Forall in_range (Setup.locations s) →
  Forall in_range (Setup.locations (Session.after events s)).
Proof.
  revert s. induction events as [|e events IH]; intros s Hs; [done|].
  simpl. apply IH. by apply handle_in_range.
Qed.

End SessionFacts.

Section SessionProperties.
Import Js Eff Wizard.
Context `{Runtime}.

(** X20: in create mode the coordinate messages of step 2 can never show.
    On the edit-capable page a coordinate typed into a row is stored only
    when it converts to a number inside its range; anything else is stored
    as [undefined]. So, starting from the initial state, after any sequence
    of typing, adding rows, clicking remove and switching steps, every row
    has a latitude and a longitude that are unset or in range, and the
    errors [validateStep2] computes hold no entry under any row's
    [latitude] or [longitude] key: an out-of-range value the user typed is
    dropped, not reported. *)
Theorem typed_coordinates_are_never_reported (events : list Session.Event) :
  let s := Session.after events Setup.initialState in
  Forall in_range (Setup.locations s) ∧
  ∀ s' i,
    fields (Setup.step2Errors (Setup.validateStep2 s s').2) !! row_key i "latitude"
    = None ∧
    fields (Setup.step2Errors (Setup.validateStep2 s s').2) !! row_key i "longitude"
    = None.
Proof.
  intros s.
  assert (Hr : Forall in_range (Setup.locations s)).
  { apply after_in_range. simpl. by repeat constructor. }
  split; [done|]. intros s' i.
  assert (He : ∀ f, f = "latitude" ∨ f = "longitude" →
            forEach Setup.check_location 0 (Setup.locations s) ∅ !! row_key i f = None).
  { intros f Hf. rewrite forEach_key_untouched; [done|].
    eapply Forall_impl; [exact Hr|]. intros loc Hloc j e.
    by apply check_location_in_range. }
  unfold Setup.validateStep2, step2_verdict.
  destruct (has_keys _ || _); destruct s'; simpl; [|done].
  split; apply He; auto.
Qed.

End SessionProperties.

Section SubmitPropertyWitnesses.
Import Js Eff Wizard.
Import (hints) Script Fixtures.

(** A malformed email (no email at all on the three-step page) at step 1,
    a row without a name at step 2. *)
Lemma rejected_input_witness :
  let s1 := Script.setup (Script.setup_form "not-an-email" "secret1")
              [Script.row "" None None] (VStr "c1") in
  let s2 := Script.plain (Script.plain_form "not-an-email")
              [Script.row "" None None] (VStr "c1") in
  let s3 := Script.onboarding (Script.onboarding_form "" "secret1")
              [Script.row "" None None] (VStr "c1") in
  Setup.handleSubmitStep1 None s1 (Script.page s1 0)
  = (Return tt, on_ui (λ s, (Setup.validateStep1 s1 s).2) (Script.page s1 0)) ∧
  SetupPlain.handleSubmitStep1 s2 (Script.page s2 0)
  = (Return tt, on_ui (λ s, (SetupPlain.validateStep1 s2 s).2) (Script.page s2 0)) ∧
  Onboarding.handleSubmitStep1 s3 (Script.page s3 0)
  = (Return tt, on_ui (λ s, (Onboarding.validateStep1 s3 s).2) (Script.page s3 0)) ∧
  Setup.handleSubmitStep2 s1 (Script.page s1 0)
  = (Return tt, on_ui (λ s, (Setup.validateStep2 s1 s).2) (Script.page s1 0)) ∧
  SetupPlain.handleSubmitStep2 s2 (Script.page s2 0)
  = (Return tt, on_ui (λ s, (SetupPlain.validateStep2 s2 s).2) (Script.page s2 0)) ∧
  Onboarding.handleSubmitStep2 s3 (Script.page s3 0)
  = (Return tt, on_ui (λ s, (Onboarding.validateStep2 s3 s).2) (Script.page s3 0)).
Proof.
  destruct (rejected_input_reaches_no_backend (Net:=nat))
    as (A1 & B1 & C1 & A2 & B2 & C2 & _).
  split_and!; [apply A1 | apply B1 | apply C1 | apply A2 | apply B2 | apply C2];
    by vm_compute.
Defined.

(** The create call is rejected with a message. *)
Lemma failed_step1_witness :
  let script := [Fixtures.rejection "Email already registered"] in
  let s1 := Script.setup (Script.setup_form "jo@acme.io" "secret1")
              [Script.row "HQ" None None] VNull in
  let s2 := Script.plain (Script.plain_form "jo@acme.io")
              [Script.row "HQ" None None] VNull in
  let s3 := Script.onboarding (Script.onboarding_form "jo@acme.io" "secret1")
              [Script.row "HQ" None None] VNull in
  (let p' := (Setup.handleSubmitStep1 None s1 (Script.page s1 script)).2 in
   Setup.currentStep (ui p') = Setup.Step1 ∧
   Setup.isSubmitting (ui p') = false ∧
   global (Setup.step1Errors (ui p')) = Some "Email already registered") ∧
  (let p' := (SetupPlain.handleSubmitStep1 s2 (Script.page s2 script)).2 in
   SetupPlain.currentStep (ui p') = SetupPlain.Step1 ∧
   SetupPlain.isSubmitting (ui p') = false ∧
   global (SetupPlain.step1Errors (ui p')) = Some "Email already registered") ∧
  (let p' := (Onboarding.handleSubmitStep1 s3 (Script.page s3 script)).2 in
   Onboarding.currentStep (ui p') = Onboarding.Step1 ∧
   Onboarding.isSubmitting (ui p') = false ∧
   global (Onboarding.step1Errors (ui p')) = Some "Email already registered").
Proof.
  destruct (failed_step1_stays_on_step1 (Net:=list (result value))) as (A & B & C).
  split_and!.
  - destruct (A None
                (Script.setup (Script.setup_form "jo@acme.io" "secret1")
                   [Script.row "HQ" None None] VNull)
                (Script.page
                   (Script.setup (Script.setup_form "jo@acme.io" "secret1")
                      [Script.row "HQ" None None] VNull)
                   [Fixtures.rejection "Email already registered"])
                (Fixtures.rejection "Email already registered") [])
      as (_ & _ & Hs & _ & Hi & _ & msg & Hg & _ & Hm); [done..|].
    cbv zeta. rewrite Hs, Hi, Hg.
    split_and!; first [done | f_equal; by apply Hm].
  - destruct (B (Script.plain (Script.plain_form "jo@acme.io")
                   [Script.row "HQ" None None] VNull)
                (Script.page
                   (Script.plain (Script.plain_form "jo@acme.io")
                      [Script.row "HQ" None None] VNull)
                   [Fixtures.rejection "Email already registered"])
                (Fixtures.rejection "Email already registered") [])
      as (_ & _ & Hs & _ & Hi & _ & msg & Hg & _ & Hm); [done..|].
    cbv zeta. rewrite Hs, Hi, Hg.
    split_and!; first [done | f_equal; by apply Hm].
  - destruct (C (Script.onboarding (Script.onboarding_form "jo@acme.io" "secret1")
                   [Script.row "HQ" None None] VNull)
                (Script.page
                   (Script.onboarding (Script.onboarding_form "jo@acme.io" "secret1")
                      [Script.row "HQ" None None] VNull)
                   [Fixtures.rejection "Email already registered"])
                (Fixtures.rejection "Email already registered") [])
      as (_ & _ & Hs & _ & Hi & _ & msg & Hg & _ & Hm); [done..|].
    cbv zeta. rewrite Hs, Hi, Hg.
    split_and!; first [done | f_equal; by apply Hm].
Defined.


(** Three facilities, the second creation rejected. *)
Lemma step3_prefix_witness :
  let f1 := Fixtures.facility "Court 1" (VStr "loc-1") in
  let f2 := Fixtures.facility "Court 2" (VStr "loc-1") in
  let f3 := Fixtures.facility "Court 3" (VStr "loc-1") in
  let p := Fixtures.step3 [f1; f2; f3] [Return VNull; Fixtures.rejection "Conflict"] in
  let p' := (Step3.handleSubmitStep3 (Step3.ui p) p).2 in
  Step3.submitted p' = [f1; f2] ∧ Step3.pushed p' = [] ∧
  global (Onboarding.step3Errors (Step3.ui p')) = Some "Conflict".
Proof.
  pose (f1 := Fixtures.facility "Court 1" (VStr "loc-1")).
  pose (f2 := Fixtures.facility "Court 2" (VStr "loc-1")).
  pose (f3 := Fixtures.facility "Court 3" (VStr "loc-1")).
  pose (p := Fixtures.step3 [f1; f2; f3]
               [Return VNull; Fixtures.rejection "Conflict"]).
  destruct (step3_submits_a_prefix (Step3.ui p) p) as (_ & _ & H).
  destruct H as (_ & Hr & _); [by vm_compute|].
  destruct (Hr [f1] f2 [f3] [Fixtures.rejection "Conflict"] (Error "Conflict") [])
    as (Hs & _ & Hp & He); [done..|].
  split_and!; [exact Hs | exact Hp | exact He].
Defined.

(** One facility, its creation rejected. *)
Lemma step3_submitting_witness :
  let c := Step3.ui (Fixtures.step3 [Fixtures.facility "Court 1" (VStr "loc-1")] []) in
  let p := Fixtures.step3 [Fixtures.facility "Court 1" (VStr "loc-1")]
             [Fixtures.rejection "Conflict"] in
  let rp := Step3.handleSubmitStep3 c p in
  rp.1 = Return tt ∧
  Onboarding.isSubmitting (Step3.ui rp.2) = true ∧
  (Step3.pushed rp.2 = Step3.pushed p →
   ∃ msg, global (Onboarding.step3Errors (Step3.ui rp.2)) = Some msg ∧ msg ≠ "").
Proof.
  apply (step3_leaves_the_page_submitting
           (Step3.ui (Fixtures.step3 [Fixtures.facility "Court 1" (VStr "loc-1")] []))
           (Fixtures.step3 [Fixtures.facility "Court 1" (VStr "loc-1")]
              [Fixtures.rejection "Conflict"])).
  by vm_compute.
Defined.

End SubmitPropertyWitnesses.

(** ** Case and substrings *)
Section TextFacts.
Import Js Text.






Lemma lower_idem c : lower (lower c) = lower c.
Proof. destruct c as [[] [] [] [] [] [] [] []]; by vm_compute. Qed.

Lemma toLowerCase_idem s : toLowerCase (toLowerCase s) = toLowerCase s.
Proof. induction s as [|c s IH]; simpl; [done|]. by rewrite lower_idem, IH. Qed.

Lemma toLowerCase_truthy s : truthy_string (toLowerCase s) = truthy_string s.
Proof. by destruct s. Qed.


End TextFacts.

(** ** The signup page *)
Section SignupFacts.
Import Js Eff Text Paged Signup.
Context {Net : Type} `{Backend Net}.

Lemma report_run message (p : Page State Call Net) :
  ∃ msg h,
    report message p =
      (Return tt,
       {| ui := setHint h (setError (Some msg) (ui p)); server := server p;
          calls := calls p; routes := routes p |}) ∧
    msg ≠ "" ∧
    (h = hint (ui p) ∨ msg = "The server is taking too long to respond.") ∧
    (includes (toLowerCase message) "user with this email already exists" = true →
     msg = "An account with this email already exists." ∧ h = hint (ui p)).
Proof.
  unfold report.
  destruct (includes (toLowerCase message) "user with this email already exists").
  { exists "An account with this email already exists.", (hint (ui p)).
    split; [|by split_and!; auto].
    unfold set_state, modify. simpl. by destruct (ui p). }
  destruct (includes (toLowerCase message) "gateway timeout" ||
            includes (toLowerCase message) "bad gateway").
  { exists "The server is taking too long to respond.",
      (Some "Please try again in a few seconds. If this keeps happening, the backend may still be deploying.").
    split; [|by split_and!; auto].
    unfold bind, set_state, modify. simpl. by destruct (ui p). }
  exists (or_string message "Registration failed"), (hint (ui p)).
  split; [|split_and!; auto; by destruct message].
  unfold set_state, modify. simpl. by destruct (ui p).
Qed.

Lemma handleSubmit_blocked c (p : Page State Call Net) :
  String.eqb (password c) (confirmPassword c)
  && Nat.leb 6 (String.length (password c)) = false →
  handleSubmit c p =
    (Return tt,
     {| ui := setError
                (Some (if String.eqb (password c) (confirmPassword c)
                       then "Password must be at least 6 characters"
                       else "Passwords do not match"))
                (setHint None (ui p));
        server := server p; calls := calls p; routes := routes p |}).
Proof.
  intros Hb. unfold handleSubmit, bind, set_state, modify. simpl.
  destruct (String.eqb (password c) (confirmPassword c)); simpl.
  - rewrite andb_true_l in Hb. apply Nat.leb_gt in Hb.
    destruct (Nat.ltb_spec (String.length (password c)) 6) as [|Hl]; [|lia].
    by destruct (ui p).
  - by destruct (ui p).
Qed.

Lemma handleSubmit_sent c (p : Page State Call Net) :
  String.eqb (password c) (confirmPassword c)
  && Nat.leb 6 (String.length (password c)) = true →
  let rn := registerApi (trim (name c)) (trim (email c)) (password c) (server p) in
  let sent := {| ui := setLoading true (setHint None (setError None (ui p)));
                 server := rn.2;
                 calls := calls p
                          ++ [Register (trim (name c)) (trim (email c)) (password c)];
                 routes := routes p |} in
  handleSubmit c p =
    (Return tt,
     match rn.1 with
     | Return _ =>
         {| ui := setLoading false (ui sent); server := rn.2; calls := calls sent;
            routes := routes p ++ ["/login"] |}
     | Throw err =>
         {| ui := setLoading false (ui (report (message err) sent).2);
            server := rn.2; calls := calls sent; routes := routes p |}
     end).
Proof.
  intros [He Hl]%andb_true_iff. apply Nat.leb_le in Hl.
  unfold handleSubmit. cbv [bind set_state modify try_finally try_catch call route].
  simpl. rewrite He. simpl.
  destruct (Nat.ltb_spec (String.length (password c)) 6) as [|_]; [lia|].
  destruct (registerApi _ _ _ _) as [[v|err] n]; simpl; [done|].
  destruct (report_run (message err)
              {| ui := setLoading true (setHint None (setError None (ui p)));
                 server := n;
                 calls := calls p
                          ++ [Register (trim (name c)) (trim (email c)) (password c)];
                 routes := routes p |}) as (msg & h & E & _).
  by rewrite E.
Qed.

End SignupFacts.

Section SignupProperties.
Import Js Eff Text Paged Signup.
Context {Net : Type} `{Backend Net}.

(** X21: what a signup submission does. The form reaches the backend
    exactly when the two passwords are equal and have at least six
    characters; the comparison comes first, so unequal passwords are
    reported as such even when they are too short, and the length is that
    of the password as typed, spaces included. Stopped at the checks, the
    handler makes no call, takes no route and leaves the loading flag as it
    was. Otherwise one call is made, with the trimmed name, the trimmed
    email and the password as typed, and afterwards the page has either
    gone to [/login] with no error and no hint showing, or stayed with an
    error message that is not empty; the loading flag is off. *)
Theorem signup_submits_or_reports c (p : Page State Call Net) :
  let rp := handleSubmit c p in
  rp.1 = Return tt ∧
  if String.eqb (password c) (confirmPassword c)
     && Nat.leb 6 (String.length (password c))
  then calls rp.2
       = calls p ++ [Register (trim (name c)) (trim (email c)) (password c)] ∧
       loading (ui rp.2) = false ∧
       ((routes rp.2 = routes p ++ ["/login"] ∧
         error (ui rp.2) = None ∧ hint (ui rp.2) = None) ∨
        (routes rp.2 = routes p ∧ ∃ msg, error (ui rp.2) = Some msg ∧ msg ≠ ""))
  else calls rp.2 = calls p ∧ routes rp.2 = routes p ∧ server rp.2 = server p ∧
       loading (ui rp.2) = loading (ui p) ∧
       error (ui rp.2)
       = Some (if String.eqb (password c) (confirmPassword c)
               then "Password must be at least 6 characters"
               else "Passwords do not match").
Proof.
  cbv zeta.
  destruct (String.eqb (password c) (confirmPassword c)
            && Nat.leb 6 (String.length (password c))) eqn:E.
  - rewrite (handleSubmit_sent c p E). simpl.
    destruct (registerApi _ _ _ _) as [[v|err] n]; simpl.
    + split_and!; try done; [by destruct (ui p)|]. left. by destruct (ui p).
    + match goal with |- context [report ?m ?q] =>
        destruct (report_run m q) as (msg & h & -> & Hne & _) end.
      simpl. split_and!; try done; [by destruct (ui p)|]. right.
      split; [done|]. exists msg. by destruct (ui p).
  - rewrite (handleSubmit_blocked c p E). simpl. by destruct (ui p).
Qed.

End SignupProperties.

Section SignupOverHttp.
Import Js Eff Http Text Paged Signup.
Import (hints) LibApi.
Context {Net : Type} `{Host Net} `{Runtime}.

(** X22: the duplicate-email answer of the backend ends as the friendly
    message. With the signup page calling [registerApi] of
    [src/lib/api.ts]: when the passwords pass the checks and the response
    to the register request is not ok and carries a JSON body whose
    [message] is a string that contains, in any mix of upper and lower
    case, the words [user with this email already exists], the page stays
    where it is, shows [An account with this email already exists.], shows
    no hint, and is no longer loading. *)
Theorem duplicate_email_is_reported_friendly
    c (p : Page State Call (World Net)) res data m :
  String.eqb (password c) (confirmPassword c)
  && Nat.leb 6 (String.length (password c)) = true →
  (∀ req, (fetch_step (net (server p)) req).1 = Return res) →
  ok res = false →
  json res = Return data →
  get data "message" = Some (VStr m) →
  includes (toLowerCase m) "user with this email already exists" = true →
  let p' := (handleSubmit c p).2 in
  error (ui p') = Some "An account with this email already exists." ∧
  hint (ui p') = None ∧
  loading (ui p') = false ∧
  routes p' = routes p ∧
  length (issued (server p')) = S (length (issued (server p))).
Proof.
  intros Hc Hnet Hok Hj Hm Hi. cbv zeta.
  rewrite (handleSubmit_sent c p Hc). simpl.
  assert (Ht : truthy_string m = true).
  { destruct m; [|done]. by vm_compute in Hi. }
  assert (Hr : ∃ w', LibApi.registerApi (trim (name c)) (trim (email c)) (password c)
                       (server p) = (Throw (Error m), w') ∧
                     length (issued w') = S (length (issued (server p)))).
  { unfold LibApi.registerApi, ApiV0.apiFetch, ApiV0.getToken, getItem, gets,
      bind, fetch. simpl.
    match goal with |- context [fetch_step _ ?req] =>
      pose proof (Hnet req) as Hq; destruct (fetch_step _ req) as [r n'] end.
    simpl in Hq. subst r. rewrite finish_outcome. eexists. split.
    - unfold outcome, failure_message. rewrite Hok, Hj, Hm. simpl.
      unfold or_value. simpl. by rewrite Ht.
    - simpl. rewrite length_app. simpl. lia. }
  destruct Hr as (w' & -> & Hlen). simpl.
  match goal with |- context [report ?x ?q] =>
    destruct (report_run x q) as (msg & h & -> & _ & _ & Hf) end.
  destruct (Hf Hi) as [-> ->]. simpl. by destruct (ui p).
Qed.

End SignupOverHttp.

#[local] Set Warnings "-clear-no-such-hyp".

(** ** The route guard *)
Section GuardProperties.
Import Js ProtectedRoute.

(** X23: what the route guard renders and where it redirects agree. The
    children are rendered only when the session is loaded and
    authenticated; the no-access panel is always accompanied by a redirect
    to [/dashboard]; while the loading panel shows, the only redirect is
    the one to [/login], issued exactly when the session is loaded and not
    authenticated, with the current path as an encoded [next] parameter.
    The one state in which children are rendered while a redirect is
    issued is an authenticated session without a user object whose role is
    not allowed. *)
Theorem guard_view_and_redirect_agree auth allowedRoles pathname :
  match render auth allowedRoles with
  | Children =>
      loading auth = false ∧ isAuthenticated auth = true ∧
      (redirect auth allowedRoles pathname = None ∨
       hasUser auth = false ∧ redirect auth allowedRoles pathname = Some "/dashboard")
  | NoAccess =>
      loading auth = false ∧ isAuthenticated auth = true ∧
      redirect auth allowedRoles pathname = Some "/dashboard"
  | Loading =>
      redirect auth allowedRoles pathname =
        if loading auth then None
        else Some ("/login?next=" +:+ Endpoints.encodeURIComponent pathname)
  end ∧
  Endpoints.delimiter_free (Endpoints.encodeURIComponent pathname) = true.
Proof.
  split; [|apply encodeURIComponent_delimiter_free].
  unfold render, redirect.
  destruct (loading auth), (isAuthenticated auth); simpl; try done.
  destruct allowedRoles as [roles|]; [|by auto].
  destruct (hasUser auth), (hasRole auth roles); simpl; auto.
Qed.

End GuardProperties.

(** ** The dashboard page *)
Section DashboardProperties.
Import Js Eff Paged Dashboard.

(** X24: which modules the dashboard shows. Without a user nothing is
    shown. Without a module list, or with an empty one, the role decides,
    and the defaults are nested: what a basic user sees a client sees, and
    what a client sees an admin sees, analytics being the admin's alone.
    A list with at least one entry replaces the role's defaults entirely:
    exactly its non-empty entries are shown, whatever the role; a key that
    is not listed is hidden, the overview included. *)
Theorem dashboard_modules_by_role_or_list :
  shown None = ∅ ∧
  (∀ i e n (absent : bool),
     let as_role r := Some {| id := i; email := e; name := n; role := r;
                              modules := if absent then None else Some [] |} in
     shown (as_role user) ⊆ shown (as_role client) ∧
     shown (as_role client) ⊆ shown (as_role admin) ∧
     has "dashboard-overview" (as_role user) = true ∧
     has "analytics" (as_role client) = false ∧
     has "analytics" (as_role admin) = true) ∧
  (∀ i e n r x l k,
     k ∈ shown (Some {| id := i; email := e; name := n; role := r;
                        modules := Some (x :: l) |})
     ↔ k ≠ "" ∧ k ∈ x :: l).
Proof.
  split_and!; [done| |].
  - intros i e n absent. cbv zeta. unfold has.
    destruct absent; simpl; split_and!;
      first [ set_solver
            | apply bool_decide_eq_true_2; set_solver
            | apply bool_decide_eq_false_2; set_solver ].
  - intros i e n r x l k. unfold shown. simpl modules. cbv iota.
    rewrite elem_of_list_to_set, list_elem_of_filter.
    split; intros [Hk Hin]; split; try done.
    + intros ->. done.
    + by destruct k.
Qed.

Context {Net : Type} `{Backend Net}.

(** X25: loading the dashboard never reports an error. The three calls
    are awaited with [Promise.allSettled], so whatever any of them
    answers, [load] completes, the error is [null] afterwards, and the
    calls made are the bookings, the gaming centers (filtered by the
    user's own id exactly for a client) and, for an admin only, the client
    statistics. A call that fails leaves its part of the state as it was;
    the loading flag is off afterwards exactly when the page is still
    mounted. *)
Theorem dashboard_load_never_reports_an_error u isMounted (p : Page State Call Net) :
  let rp := load u isMounted p in
  rp.1 = Return tt ∧
  error (ui rp.2) = None ∧
  loading (ui rp.2) = negb isMounted ∧
  calls rp.2 = calls p ++ [Bookings; GamingCenters (own_centers u)]
                       ++ (if is_admin u then [ClientStatistics] else []) ∧
  bookings (ui rp.2) =
    match (getBookingsApi (server p)).1 with
    | Return v => if isMounted then or_value v (VArr []) else bookings (ui p)
    | Throw _ => bookings (ui p)
    end ∧
  routes rp.2 = routes p.
Proof.
  cbv zeta. unfold load.
  cbv [bind try_catch set_state modify settle call keep_list ret]. simpl.
  destruct (getBookingsApi (server p)) as [r1 n1]. simpl.
  destruct (getGamingCentersApi (own_centers u) n1) as [r2 n2]. simpl.
  destruct (is_admin u); simpl.
  - destruct (getClientStatisticsApi n2) as [r3 n3]. simpl.
    destruct isMounted; simpl.
    + destruct r1, r2, r3 as [v3|]; simpl; try destruct (truthy v3); simpl;
        rewrite <- ?app_assoc; by destruct (ui p).
    + rewrite <- ?app_assoc. by destruct r1, (ui p).
  - destruct isMounted; simpl.
    + destruct r1, r2; simpl; rewrite <- ?app_assoc; by destruct (ui p).
    + rewrite <- ?app_assoc. by destruct r1, (ui p).
Qed.

End DashboardProperties.

(** ** The facilities page *)
Section FacilitiesProperties.
Import Js Text FacilitiesPage.

Lemma filter_filter {A} (p q : A → bool) l :
  List.filter p (List.filter q l) = List.filter (λ x, q x && p x) l.
Proof.
  induction l as [|x l IH]; simpl; [done|].
  destruct (q x); simpl; [|done]. destruct (p x); by rewrite IH.
Qed.

Lemma matches_lower q t l f :
  matches (toLowerCase q) t l f = matches q t l f.
Proof.
  unfold matches. by rewrite toLowerCase_idem, toLowerCase_truthy.
Qed.

(** X26: the filters of the facilities page. With the three filters empty
    the list is shown as it is; every filtered list is a sublist of the
    facilities, in their order; the three filters act independently, so
    applying them one after the other gives the same list; and the search
    ignores case: a query and its lower-case form select the same
    facilities. *)
Theorem facility_filters_compose facilities q t l :
  filteredFacilities facilities "" "" "" = facilities ∧
  sublist (filteredFacilities facilities q t l) facilities ∧
  filteredFacilities facilities q t l
  = filteredFacilities
      (filteredFacilities (filteredFacilities facilities q "" "") "" t "") "" "" l ∧
  filteredFacilities facilities (toLowerCase q) t l
  = filteredFacilities facilities q t l.
Proof.
  unfold filteredFacilities. split_and!.
  - induction facilities as [|f fs IH]; simpl; [done|]. by rewrite IH.
  - induction facilities as [|f fs IH]; simpl; [done|].
    destruct (matches q t l f); by constructor.
  - rewrite !filter_filter. apply List.filter_ext. intros f.
    unfold matches. simpl.
    by destruct (negb (truthy_string q) || _), (negb (truthy_string t) || _),
         (negb (truthy_string l) || _).
  - induction facilities as [|f fs IH]; simpl; [done|].
    by rewrite matches_lower, IH.
Qed.


End FacilitiesProperties.

Section PagePropertyWitnesses.
Import Js Eff Http Text Paged.
Import (hints) Script LibApi.

(** A 409 whose message differs in case from the words looked for. *)
Lemma duplicate_email_witness :
  let c := {| Signup.name := " Jo "; Signup.email := "jo@acme.io";
              Signup.password := "secret1"; Signup.confirmPassword := "secret1";
              Signup.error := None; Signup.hint := None; Signup.loading := false |} in
  let res := {| status := 409;
                json := Return (VObj [("message",
                                       VStr "User with this email already exists")]) |} in
  let p : Page Signup.State Signup.Call (World (list (result Response))) :=
    {| ui := c; server := Script.world ∅ [Return res; Return res]; calls := [];
       routes := [] |} in
  let p' := (Signup.handleSubmit c p).2 in
  Signup.error (ui p') = Some "An account with this email already exists." ∧
  Signup.hint (ui p') = None ∧
  Signup.loading (ui p') = false ∧
  routes p' = routes p ∧
  length (issued (server p')) = S (length (issued (server p))).
Proof.
  apply (duplicate_email_is_reported_friendly
           {| Signup.name := " Jo "; Signup.email := "jo@acme.io";
              Signup.password := "secret1"; Signup.confirmPassword := "secret1";
              Signup.error := None; Signup.hint := None; Signup.loading := false |}
           _ {| status := 409;
                json := Return (VObj [("message",
                                       VStr "User with this email already exists")]) |}
           (VObj [("message", VStr "User with this email already exists")])
           "User with this email already exists");
    done.
Defined.


End PagePropertyWitnesses.

(** ** From step 2 to step 3 on the three-step page *)
Section HandOver.
Import Js Eff Wizard.
Context {Net : Type} `{Backend Net} `{Runtime}.



(** X29: the facility list never drops below one row through the page.
    With at least one facility in the list, adding a facility, clicking a
    remove control and changing a field each leave at least one; a field
    change keeps the number of facilities. The guard is the remove control,
    rendered only when there are two facilities or more: [removeFacility]
    itself has no length test and empties a list of one. *)
Theorem facility_rows_kept s i f v :
  1 ≤ length (Onboarding.facilities s) →
  1 ≤ length (Onboarding.facilities (Onboarding.addFacility s)) ∧
  1 ≤ length (Onboarding.facilities (Step3.click_remove s i s)) ∧
  length (Onboarding.facilities (Onboarding.handleFacilityChange i f v s))
  = length (Onboarding.facilities s) ∧
  (length (Onboarding.facilities s) = 1 →
   Onboarding.facilities (Onboarding.removeFacility 0 s) = []).
Proof.
  intros Hl. destruct s as [? ? ? ? ? ? ? ? rows ?]; simpl in *. split_and!.
  - rewrite length_app. lia.
  - unfold Step3.click_remove, Step3.remove_rendered; simpl.
    destruct (Nat.ltb_spec 1 (length rows)); simpl; [by apply delete_keeps_one | done].
  - by rewrite length_alter.
  - intros H1. by destruct rows as [|? [|? ?]].
Qed.

End HandOver.

Section HandOverWitnesses.
Import Js Eff Wizard.
Import (hints) Script Fixtures.


Lemma facility_rows_witness :
  let s := Onboarding.initialState in
  1 ≤ length (Onboarding.facilities (Onboarding.addFacility s)) ∧
  1 ≤ length (Onboarding.facilities (Step3.click_remove s 0 s)) ∧
  length (Onboarding.facilities
            (Onboarding.handleFacilityChange 0 Onboarding.k_name "Court 1" s))
  = length (Onboarding.facilities s) ∧
  (length (Onboarding.facilities s) = 1 →
   Onboarding.facilities (Onboarding.removeFacility 0 s) = []).
Proof.
  apply (facility_rows_kept Onboarding.initialState 0 Onboarding.k_name "Court 1").
  simpl. constructor.
Defined.

End HandOverWitnesses.

(** ** Editing loaded rows *)
Section EditFacts.
Import Js Eff Wizard.
Context {Net : Type} `{Backend Net} `{Runtime}.

Lemma with_field_id field text num loc :
  field ≠ f_id → id (with_field field text num loc) = id loc.
Proof. intros Hf. by destruct loc, field. Qed.

Lemma handle_identified s e :
  Session.keeps_rows e = true →
  Forall (λ loc, truthy_opt (id loc) = true) (Setup.locations s) →
  Forall (λ loc, truthy_opt (id loc) = true) (Setup.locations (Session.handle s e)).
Proof.
  intros He Hs.
  destruct e as [f v|i f v| |i|step]; destruct s as [? ? ? ? ? ? rows ?];
    simpl in *; try done.
  - apply Forall_alter; [done|]. intros loc _ Hloc.
    rewrite with_field_id; [done|]. by destruct f.
  - unfold Setup.click_remove, Setup.remove_rendered, Setup.removeLocation. simpl.
    destruct (Nat.ltb 1 (length rows)); simpl; [|done].
    by apply Forall_delete.
Qed.

Lemma after_identified events s :
  Forall (λ e, Session.keeps_rows e = true) events →
  Forall (λ loc, truthy_opt (id loc) = true) (Setup.locations s) →
  Forall (λ loc, truthy_opt (id loc) = true)
    (Setup.locations (Session.after events s)).
Proof.
  intros He. revert s. induction He as [|e events Hk _ IH]; intros s Hs; [done|].
  simpl. apply IH. by apply handle_identified.
Qed.

(** Rows that all carry an identifier: the loop calls nothing. *)
Lemma Setup_loop_identified c l (p : Page Setup.State Net) :
  Forall (λ loc, truthy_opt (id loc) = true) l →
  for_of l (Setup.submit_location c) p = (Return tt, p).
Proof.
  induction 1 as [|loc l Hloc _ IH]; [done|].
  rewrite for_of_cons. unfold Setup.submit_location at 1. rewrite Hloc.
  unfold ret. apply IH.
Qed.

End EditFacts.

Section EditProperties.
Import Js Eff Wizard.
Context {Net : Type} `{Backend Net} `{Runtime}.

(** X30: what is typed into the rows of an existing business is never
    saved. On the edit-capable page, when every row carries an identifier
    (as the rows loaded for an existing business do) and the user then
    types into rows and form, clicks remove controls and switches steps,
    without adding a row, the step-2 submission contacts no backend: it
    makes no call at all. If the client identifier is set and the gate
    accepts the rows, it pushes [/dashboard] as after a successful save,
    though nothing of what was typed was sent. *)
Theorem edits_to_loaded_rows_are_never_saved
    (s0 : Setup.State) events (p : Page Setup.State Net) :
  Forall (λ loc, truthy_opt (id loc) = true) (Setup.locations s0) →
  Forall (λ e, Session.keeps_rows e = true) events →
  ui p = Session.after events s0 →
  let p' := (fire Setup.handleSubmitStep2 p).2 in
  calls p' = calls p ∧ server p' = server p ∧
  (truthy (Setup.clientId (ui p)) = true →
   (Setup.validateStep2 (ui p) (ui p)).1 = true →
   pushed p' = pushed p ++ ["/dashboard"]).
Proof.
  intros Hs0 Hev Hui. cbv zeta. unfold fire.
  assert (Hrows : Forall (λ loc, truthy_opt (id loc) = true) (Setup.locations (ui p))).
  { rewrite Hui. by apply after_identified. }
  unfold Setup.handleSubmitStep2.
  destruct (truthy (Setup.clientId (ui p))); simpl.
  2:{ by split_and!. }
  unfold bind, run_ui.
  destruct (Setup.validateStep2 (ui p) (ui p)) as [[|] s1]; simpl.
  2:{ by split_and!. }
  unfold bind, set_state, modify, try_finally, try_catch, router_push. simpl.
  rewrite Setup_loop_identified by done. simpl.
  by split_and!.
Qed.

End EditProperties.

Section EditWitnesses.
Import Js Eff Wizard.
Import (hints) Script.

(** A loaded row is renamed and given coordinates, then saved. *)
Lemma edits_witness :
  let s0 := Script.setup (Script.setup_form "jo@acme.io" "") [Script.loaded "l1" "HQ"]
              (VStr "c1") in
  let events := [Session.TypeLocation 0 f_name "Headquarters";
                 Session.TypeLocation 0 f_city "Salem";
                 Session.GoToStep Setup.Step2] in
  let p : Page Setup.State nat := Script.page (Session.after events s0) 0 in
  let p' := (fire Setup.handleSubmitStep2 p).2 in
  calls p' = [] ∧ server p' = 0 ∧ pushed p' = ["/dashboard"].
Proof.
  destruct (edits_to_loaded_rows_are_never_saved
              (Script.setup (Script.setup_form "jo@acme.io" "")
                 [Script.loaded "l1" "HQ"] (VStr "c1"))
              [Session.TypeLocation 0 f_name "Headquarters";
               Session.TypeLocation 0 f_city "Salem";
               Session.GoToStep Setup.Step2]
              (Script.page
                 (Session.after
                    [Session.TypeLocation 0 f_name "Headquarters";
                     Session.TypeLocation 0 f_city "Salem";
                     Session.GoToStep Setup.Step2]
                    (Script.setup (Script.setup_form "jo@acme.io" "")
                       [Script.loaded "l1" "HQ"] (VStr "c1")))
                 0))
    as (Hc & Hs & Hp); [by repeat constructor..|done|].
  split_and!; [exact Hc | exact Hs | by apply Hp].
Defined.

End EditWitnesses.
